(** * The adaptive-testing (CAT) engine of the question bank

    A shallow embedding of the stored procedures of
    [supabase/migrations/20250306000004_phase4_cat_implementation.sql]
    ([calculate_probability], [calculate_information],
    [estimate_ability_mle], [get_next_cat_question], [submit_cat_answer],
    [create_cat_test]) and of [submit_test_answer] from the phase 2
    migration, with the tables they read and write.

    Conventions of the embedding.
    - A PL/pgSQL variable of type [NUMERIC] (unconstrained) is a real number
      ([R]); [exp] is the real exponential.
    - A column of type [NUMERIC(p,2)] holds a decimal with two fractional
      digits; it is kept as the integer number of hundredths ([Z]), so
      [1.00] is [100].  Assigning a [NUMERIC] to a [NUMERIC(5,2)] column
      rounds to two decimals, half away from zero, and raises
      [numeric field overflow] when the rounded value reaches 1000
      ([cast_numeric_5_2]); reading it back is [of_numeric_2].
      [INTEGER] values are integers ([Z]).
    - [auth.uid()] is [None] for a caller who is not signed in, and the
      [user_id] of a test or of a session may be [NULL]; comparisons with
      them follow SQL's three-valued logic.  A [TEXT[]] response is a
      [text_array]: [NULL], or a list of elements each of which may be
      [NULL].  The other parameters hold a value, and so do the columns
      the procedures always set or that carry a default.  SQL [NULL] in a
      column the procedures leave unset ([was_correct],
      [ability_estimate_after], a selection's [question_id],
      [v_is_correct]) is [None].
    - Assigning a text to a [VARCHAR(255)] column raises
      [value too long] unless the characters after the first 255 are all
      spaces ([varchar]); a string is the sequence of its characters.
    - The triggers that fire on the statements of the procedures are part
      of the model: [update_updated_at_column] before an [UPDATE] of
      [tests], [cat_sessions] and [user_question_status], and
      [update_user_statistics] after an [INSERT] into [test_results].
    - [RAISE EXCEPTION] and the errors of a statement are the outcomes
      [Raise] (nothing was written or drawn from a sequence yet) and
      [RaiseAfter] (with the state the call had reached).  The
      transaction that called the procedure is rolled back ([run_txn]):
      the tables are those before the call, but an id drawn from a
      [SERIAL] sequence stays drawn.  A coercion that fails on a
      parameter of an [INSERT] (overflow, value too long) fails when the
      statement is planned with the values of its parameters, as PL/pgSQL
      plans the first executions of a statement, before the row's
      [SERIAL] default is evaluated; what is proved of such a failure is
      about the tables only.  The rows of [test_questions],
      [user_question_status] and [user_statistics] are kept without their
      [SERIAL] id, which no procedure reads, and without its sequence.
    - [ORDER BY RANDOM()] is an explicit ordering function handed to the
      procedure.

    Later sections embed [initialize_cat_parameters] (the values of
    [random()] are a sequence handed to the procedure, the arithmetic on
    them is real), [get_next_test_question] with the row-level policies
    under which it reads, the view [test_summaries], and
    [generate_study_plan] with the tables of the planner. *)

From Stdlib Require Import ZArith List Ascii String Bool Lia Reals Lra Permutation.
From Stdlib Require Import DecimalString DecimalZ DecimalPos.
From stdpp Require Import base option list gmap strings.

Local Open Scope Z_scope.

(** ** IRT math core (real arithmetic) *)

Module IRT.
Local Open Scope R_scope.

(** [calculate_probability(ability, discrimination, difficulty, guessing)] *)
Definition calculate_probability (ability discrimination difficulty guessing : R) : R :=
  let logit := discrimination * (ability - difficulty) in
  let logit :=
    if Rgt_dec logit 35 then 35
    else if Rlt_dec logit (-35) then -35
    else logit in
  guessing + (1 - guessing) / (1 + exp (- logit)).

(** [calculate_information(ability, discrimination, difficulty, guessing)] *)
Definition calculate_information (ability discrimination difficulty guessing : R) : R :=
  let probability := calculate_probability ability discrimination difficulty guessing in
  if Rgt_dec guessing 0 then
    if Rlt_dec guessing 1 then
      if Rgt_dec probability guessing then
        if Rlt_dec probability 1 then
          (discrimination * discrimination * (probability - guessing) * (probability - guessing)) /
          ((1 - guessing) * (1 - guessing) * probability * (1 - probability))
        else discrimination * discrimination * probability * (1 - probability)
      else discrimination * discrimination * probability * (1 - probability)
    else discrimination * discrimination * probability * (1 - probability)
  else discrimination * discrimination * probability * (1 - probability).

(** The clamp of the logit argument, written with [Rmax]/[Rmin]. *)
Definition clamp_logit (x : R) : R := Rmax (-35) (Rmin 35 x).

(** The logistic factor [1 / (1 + exp (-x))]. *)
Definition logistic (x : R) : R := 1 / (1 + exp (- x)).

End IRT.

(** ** [NUMERIC(p,2)] columns *)

Module Numeric.
Local Open Scope R_scope.

(** Reading a [NUMERIC(p,2)] column into a [NUMERIC] variable. *)
Definition of_numeric_2 (c : Z) : R := IZR c / 100.

(** Rounding to the nearest integer, ties away from zero (the rounding of
    PostgreSQL's [numeric]). *)
Definition round_half_away (x : R) : Z :=
  if Rle_dec 0 x then Int_part (x + / 2) else (- Int_part (- x + / 2))%Z.

(** Rounding a [NUMERIC] value to two decimals, in hundredths. *)
Definition to_numeric_5_2 (x : R) : Z := round_half_away (x * 100).

(** Assigning a [NUMERIC] value to a [NUMERIC(5,2)] column or variable:
    the value rounded to two decimals, or [None] ([numeric field
    overflow]) when the rounded value has more than three integer
    digits. *)
Definition cast_numeric_5_2 (x : R) : option Z :=
  let c := to_numeric_5_2 x in
  if (Z.abs c <? 100000)%Z then Some c else None.

(** The integer [n] as a [NUMERIC(p,2)] value ([n.00]). *)
Definition numeric_of_int (n : Z) : Z := (n * 100)%Z.

End Numeric.

(** ** Ability estimator (Newton-Raphson MLE) *)

Module Estimator.
Import IRT Numeric.
Local Open Scope R_scope.

(** One row of the loop query of [estimate_ability_mle]: the selection's
    [was_correct] joined with the item's parameters. *)
Record mle_row := {
  row_was_correct : option bool;
  row_discrimination : Z;
  row_difficulty : Z;
  row_guessing : Z
}.

(** SQL [SIGN]. *)
Definition SIGN (x : R) : R :=
  if Rlt_dec 0 x then 1 else if Rlt_dec x 0 then -1 else 0.

Definition v_step : R := 0.1.
Definition v_max_iter : nat := 50.

(** Body of the inner [FOR v_selection IN ... LOOP]: one row's contribution
    to the two derivatives.  [IF v_correct] takes the [ELSE] branch when
    [was_correct] is [NULL]. *)
Definition mle_accumulate (v_ability : R) (acc : R * R) (row : mle_row) : R * R :=
  let '(v_likelihood_derivative, v_likelihood_second_derivative) := acc in
  let v_discrimination := of_numeric_2 (row_discrimination row) in
  let v_difficulty := of_numeric_2 (row_difficulty row) in
  let v_guessing := of_numeric_2 (row_guessing row) in
  let v_probability :=
    calculate_probability v_ability v_discrimination v_difficulty v_guessing in
  let v_probability := if Rlt_dec v_probability 0.001 then 0.001 else v_probability in
  let v_probability := if Rgt_dec v_probability 0.999 then 0.999 else v_probability in
  let v_likelihood_derivative :=
    match row_was_correct row with
    | Some true =>
        v_likelihood_derivative + v_discrimination * (1 - v_probability) / v_probability
    | _ =>
        v_likelihood_derivative - v_discrimination * v_probability / (1 - v_probability)
    end in
  (v_likelihood_derivative,
   v_likelihood_second_derivative
   - v_discrimination * v_discrimination * v_probability * (1 - v_probability)).

(** The bounding of the ability after the Newton-Raphson step. *)
Definition bound_ability (v_ability : R) : R :=
  let v_ability := if Rlt_dec v_ability (-4) then -4 else v_ability in
  if Rgt_dec v_ability 4 then 4 else v_ability.

(** Body of the [WHILE] loop: the new [v_ability]. *)
Definition mle_update (rows : list mle_row) (v_ability : R) : R :=
  let '(v_likelihood_derivative, v_likelihood_second_derivative) :=
    fold_left (mle_accumulate v_ability) rows (0, 0) in
  bound_ability
    (if Req_dec_T v_likelihood_second_derivative 0
     then v_ability + v_step * SIGN v_likelihood_derivative
     else v_ability - v_likelihood_derivative / v_likelihood_second_derivative).

(** [WHILE ABS(v_ability - v_prev_ability) > 0.001 AND v_iter < v_max_iter].
    [remaining] is [v_max_iter - v_iter], so the second guard is
    [remaining <> 0]; the result carries the final [v_iter]. *)
Fixpoint mle_while (remaining : nat) (rows : list mle_row)
    (v_ability v_prev_ability : R) (v_iter : nat) : R * nat :=
  match remaining with
  | O => (v_ability, v_iter)
  | S remaining' =>
      if Rgt_dec (Rabs (v_ability - v_prev_ability)) 0.001
      then mle_while remaining' rows (mle_update rows v_ability) v_ability (S v_iter)
      else (v_ability, v_iter)
  end.

(** [estimate_ability_mle] once the session's [current_ability] and the
    loop query's rows are read: the returned ability and the number of
    iterations performed. *)
Definition estimate_ability_mle_loop (rows : list mle_row) (current_ability : R) : R * nat :=
  mle_while v_max_iter rows current_ability (-999) 0.

(** The sequence of estimates: [mle_iterate rows start k] is the ability
    after [k] passes through the loop body. *)
Fixpoint mle_iterate (rows : list mle_row) (start : R) (k : nat) : R :=
  match k with
  | O => start
  | S k' => mle_update rows (mle_iterate rows start k')
  end.

(** The value of [v_prev_ability] when the guard is tested after [k]
    passes: its initial value, then the estimate before the last pass. *)
Definition mle_previous_from (v_prev_ability : R) (rows : list mle_row) (start : R)
    (k : nat) : R :=
  match k with
  | O => v_prev_ability
  | S k' => mle_iterate rows start k'
  end.

Definition mle_previous : list mle_row -> R -> nat -> R := mle_previous_from (-999).

End Estimator.

(** ** Tables *)

Local Open Scope string_scope.
Local Open Scope Z_scope.

(** [auth.users.id] values are only compared for equality. *)
Definition uuid := Z.

(** A [TEXT[]] or [VARCHAR(255)[]] value: [None] is the [NULL] array, and
    an element [None] is a [NULL] element. *)
Definition text_array := option (list (option string)).

(** A condition of [IF], [WHEN] or [WHERE] holds when it is [TRUE], not
    when it is [FALSE] or [NULL]. *)
Definition holds (c : option bool) : bool :=
  match c with Some true => true | _ => false end.

(** [a = b] and [a <> b] on nullable ids: [NULL] when a side is [NULL]. *)
Definition sql_eq (a b : option uuid) : option bool :=
  x ← a; y ← b; Some (x =? y).
Definition sql_ne (a b : option uuid) : option bool :=
  negb <$> sql_eq a b.

(** Assigning a text to a [VARCHAR(n)] column: the text itself when it has
    at most [n] characters, its first [n] characters when the others are
    all spaces, and [None] ([value too long for type character
    varying(n)]) otherwise. *)
Definition varchar (n : nat) (s : string) : option string :=
  if (String.length s <=? n)%nat then Some s
  else if forallb (Ascii.eqb " "%char)
            (list_ascii_of_string (substring n (String.length s - n) s))
  then Some (substring 0 n s)
  else None.

(** The same for an array of texts, element by element. *)
Definition varchar_array (n : nat) (arr : text_array) : option text_array :=
  match arr with
  | None => Some None
  | Some l =>
      Some <$> mapM (fun e : option string =>
                       match e with
                       | None => Some None
                       | Some s => Some <$> varchar n s
                       end) l
  end.

(** [questions] (primary key [id] is the map key). *)
Record question := {
  topic : string;
  sub_topic : string;
  question_format : string;
  use_partial_scoring : bool
}.

(** [answers]; [partial_credit] and [penalty_value] are [NUMERIC(3,2)]. *)
Record answer := {
  answer_id : Z;
  answer_question_id : Z;
  is_correct : bool;
  partial_credit : Z;
  penalty_value : Z
}.

(** [question_difficulty_parameters], keyed by its [UNIQUE] [question_id];
    the three parameters are [NUMERIC(5,2)]. *)
Record difficulty_parameters := {
  discrimination : Z;
  difficulty : Z;
  guessing : Z
}.

(** [user_question_status], keyed by its [UNIQUE (user_id, question_id)]. *)
Record question_status := {
  uqs_status : string;
  attempt_count : Z
}.

(** [tests] (primary key [id] is the map key). *)
Record test := {
  test_user_id : option uuid;
  title : string;
  mode : string;
  topics : text_array;
  question_count : option Z;
  test_status : string
}.

Record test_question := {
  tq_test_id : Z;
  tq_question_id : Z;
  question_order : Z
}.

(** [test_results]; [score] and [max_score] are [NUMERIC(5,2)]. *)
Record test_result := {
  result_id : Z;
  result_test_id : Z;
  result_user_id : uuid;
  result_question_id : Z;
  user_response : text_array;
  result_is_correct : option bool;
  score : Z;
  max_score : Z;
  time_spent_seconds : Z;
  is_flagged : bool
}.

(** [cat_sessions] (primary key [id] is the map key); the abilities and the
    passing standard are [NUMERIC(5,2)]. *)
Record cat_session := {
  session_test_id : Z;
  session_user_id : option uuid;
  initial_ability : Z;
  current_ability : Z;
  passing_standard : Z;
  min_questions : Z;
  max_questions : Z;
  questions_answered : Z;
  status : string
}.

(** [cat_question_selections]; the estimates and the information value are
    [NUMERIC(5,2)]. *)
Record cat_question_selection := {
  selection_id : Z;
  cat_session_id : Z;
  selection_question_id : option Z;
  position : Z;
  ability_estimate_before : Z;
  ability_estimate_after : option Z;
  information_value : Z;
  was_correct : option bool
}.

(** [user_statistics]; [sub_topic] is [NULL] on the row of a whole topic,
    [average_time_seconds] is [NUMERIC(10,2)]. *)
Record statistics_row := {
  stat_user_id : uuid;
  stat_topic : string;
  stat_sub_topic : option string;
  stat_correct_count : Z;
  stat_total_count : Z;
  stat_average_time_seconds : Z
}.

(** The database: the tables the procedures and their triggers touch and
    the [SERIAL] sequences whose ids the procedures read back.  The
    [SERIAL] ids of [user_question_status], [test_questions] and
    [user_statistics] are read by nothing and left out with their
    sequences. *)
Record database := {
  questions : gmap Z question;
  answers : list answer;
  question_difficulty_parameters : gmap Z difficulty_parameters;
  user_question_status : gmap (uuid * Z) question_status;
  tests : gmap Z test;
  test_questions : list test_question;
  test_results : list test_result;
  cat_sessions : gmap Z cat_session;
  cat_question_selections : list cat_question_selection;
  user_statistics : list statistics_row;
  tests_id_seq : Z;
  test_results_id_seq : Z;
  cat_sessions_id_seq : Z;
  cat_question_selections_id_seq : Z
}.

(** Outcome of a procedure call: a returned value with the database it
    leaves; an exception raised before the call wrote anything or drew
    from a sequence; or an exception raised in the state [db] that the
    call had reached. *)
Inductive outcome (A : Type) : Type :=
| Return (a : A) (db : database)
| Raise (message : string)
| RaiseAfter (message : string) (db : database).
Arguments Return {A} a db.
Arguments Raise {A} message.
Arguments RaiseAfter {A} message db.

(** The exception of an outcome, if it is one. *)
Definition raised {A} (o : outcome A) : option string :=
  match o with
  | Return _ _ => None
  | Raise m => Some m
  | RaiseAfter m _ => Some m
  end.

(** The tables of [db] with the sequences of [db']: what a rollback leaves
    of the state [db'] reached from [db]. *)
Definition keep_sequences (db db' : database) : database :=
  {| questions := questions db; answers := answers db;
     question_difficulty_parameters := question_difficulty_parameters db;
     user_question_status := user_question_status db;
     tests := tests db; test_questions := test_questions db;
     test_results := test_results db; cat_sessions := cat_sessions db;
     cat_question_selections := cat_question_selections db;
     user_statistics := user_statistics db;
     tests_id_seq := tests_id_seq db'; test_results_id_seq := test_results_id_seq db';
     cat_sessions_id_seq := cat_sessions_id_seq db';
     cat_question_selections_id_seq := cat_question_selections_id_seq db' |}.

(** A raised exception aborts the calling transaction: the tables are the
    ones before the call; the sequences are not rolled back. *)
Definition run_txn {A} (call : database -> outcome A) (db : database) : database * option A :=
  match call db with
  | Return a db' => (db', Some a)
  | Raise _ => (db, None)
  | RaiseAfter _ db' => (keep_sequences db db', None)
  end.

(** [db'] has the tables of [db]. *)
Definition same_tables (db db' : database) : Prop :=
  questions db' = questions db /\ answers db' = answers db
  /\ question_difficulty_parameters db' = question_difficulty_parameters db
  /\ user_question_status db' = user_question_status db
  /\ tests db' = tests db /\ test_questions db' = test_questions db
  /\ test_results db' = test_results db /\ cat_sessions db' = cat_sessions db
  /\ cat_question_selections db' = cat_question_selections db
  /\ user_statistics db' = user_statistics db.

(** *** Writes *)

Definition with_user_question_status (db : database) (t : gmap (uuid * Z) question_status) : database :=
  {| questions := questions db; answers := answers db;
     question_difficulty_parameters := question_difficulty_parameters db;
     user_question_status := t;
     tests := tests db; test_questions := test_questions db;
     test_results := test_results db; cat_sessions := cat_sessions db;
     cat_question_selections := cat_question_selections db;
     user_statistics := user_statistics db;
     tests_id_seq := tests_id_seq db; test_results_id_seq := test_results_id_seq db;
     cat_sessions_id_seq := cat_sessions_id_seq db;
     cat_question_selections_id_seq := cat_question_selections_id_seq db |}.

Definition with_tests (db : database) (t : gmap Z test) (next_id : Z) : database :=
  {| questions := questions db; answers := answers db;
     question_difficulty_parameters := question_difficulty_parameters db;
     user_question_status := user_question_status db;
     tests := t; test_questions := test_questions db;
     test_results := test_results db; cat_sessions := cat_sessions db;
     cat_question_selections := cat_question_selections db;
     user_statistics := user_statistics db;
     tests_id_seq := next_id; test_results_id_seq := test_results_id_seq db;
     cat_sessions_id_seq := cat_sessions_id_seq db;
     cat_question_selections_id_seq := cat_question_selections_id_seq db |}.

Definition with_test_questions (db : database) (t : list test_question) : database :=
  {| questions := questions db; answers := answers db;
     question_difficulty_parameters := question_difficulty_parameters db;
     user_question_status := user_question_status db;
     tests := tests db; test_questions := t;
     test_results := test_results db; cat_sessions := cat_sessions db;
     cat_question_selections := cat_question_selections db;
     user_statistics := user_statistics db;
     tests_id_seq := tests_id_seq db; test_results_id_seq := test_results_id_seq db;
     cat_sessions_id_seq := cat_sessions_id_seq db;
     cat_question_selections_id_seq := cat_question_selections_id_seq db |}.

Definition with_test_results (db : database) (t : list test_result) (next_id : Z) : database :=
  {| questions := questions db; answers := answers db;
     question_difficulty_parameters := question_difficulty_parameters db;
     user_question_status := user_question_status db;
     tests := tests db; test_questions := test_questions db;
     test_results := t; cat_sessions := cat_sessions db;
     cat_question_selections := cat_question_selections db;
     user_statistics := user_statistics db;
     tests_id_seq := tests_id_seq db; test_results_id_seq := next_id;
     cat_sessions_id_seq := cat_sessions_id_seq db;
     cat_question_selections_id_seq := cat_question_selections_id_seq db |}.

Definition with_cat_sessions (db : database) (t : gmap Z cat_session) (next_id : Z) : database :=
  {| questions := questions db; answers := answers db;
     question_difficulty_parameters := question_difficulty_parameters db;
     user_question_status := user_question_status db;
     tests := tests db; test_questions := test_questions db;
     test_results := test_results db; cat_sessions := t;
     cat_question_selections := cat_question_selections db;
     user_statistics := user_statistics db;
     tests_id_seq := tests_id_seq db; test_results_id_seq := test_results_id_seq db;
     cat_sessions_id_seq := next_id;
     cat_question_selections_id_seq := cat_question_selections_id_seq db |}.

Definition with_cat_question_selections (db : database)
    (t : list cat_question_selection) (next_id : Z) : database :=
  {| questions := questions db; answers := answers db;
     question_difficulty_parameters := question_difficulty_parameters db;
     user_question_status := user_question_status db;
     tests := tests db; test_questions := test_questions db;
     test_results := test_results db; cat_sessions := cat_sessions db;
     cat_question_selections := t;
     user_statistics := user_statistics db;
     tests_id_seq := tests_id_seq db; test_results_id_seq := test_results_id_seq db;
     cat_sessions_id_seq := cat_sessions_id_seq db;
     cat_question_selections_id_seq := next_id |}.

Definition with_user_statistics (db : database) (t : list statistics_row) : database :=
  {| questions := questions db; answers := answers db;
     question_difficulty_parameters := question_difficulty_parameters db;
     user_question_status := user_question_status db;
     tests := tests db; test_questions := test_questions db;
     test_results := test_results db; cat_sessions := cat_sessions db;
     cat_question_selections := cat_question_selections db;
     user_statistics := t;
     tests_id_seq := tests_id_seq db; test_results_id_seq := test_results_id_seq db;
     cat_sessions_id_seq := cat_sessions_id_seq db;
     cat_question_selections_id_seq := cat_question_selections_id_seq db |}.

(** Row updates of [cat_sessions] and [cat_question_selections]. *)
Definition set_session_status (s : cat_session) (st : string) : cat_session :=
  {| session_test_id := session_test_id s; session_user_id := session_user_id s;
     initial_ability := initial_ability s; current_ability := current_ability s;
     passing_standard := passing_standard s; min_questions := min_questions s;
     max_questions := max_questions s; questions_answered := questions_answered s;
     status := st |}.

Definition set_questions_answered (s : cat_session) (n : Z) : cat_session :=
  {| session_test_id := session_test_id s; session_user_id := session_user_id s;
     initial_ability := initial_ability s; current_ability := current_ability s;
     passing_standard := passing_standard s; min_questions := min_questions s;
     max_questions := max_questions s; questions_answered := n;
     status := status s |}.

Definition set_current_ability (s : cat_session) (a : Z) : cat_session :=
  {| session_test_id := session_test_id s; session_user_id := session_user_id s;
     initial_ability := initial_ability s; current_ability := a;
     passing_standard := passing_standard s; min_questions := min_questions s;
     max_questions := max_questions s; questions_answered := questions_answered s;
     status := status s |}.

Definition set_was_correct (r : cat_question_selection) (w : option bool) : cat_question_selection :=
  {| selection_id := selection_id r; cat_session_id := cat_session_id r;
     selection_question_id := selection_question_id r; position := position r;
     ability_estimate_before := ability_estimate_before r;
     ability_estimate_after := ability_estimate_after r;
     information_value := information_value r; was_correct := w |}.

Definition set_ability_estimate_after (r : cat_question_selection) (a : Z) : cat_question_selection :=
  {| selection_id := selection_id r; cat_session_id := cat_session_id r;
     selection_question_id := selection_question_id r; position := position r;
     ability_estimate_before := ability_estimate_before r;
     ability_estimate_after := Some a;
     information_value := information_value r; was_correct := was_correct r |}.

Definition set_test_completed (t : test) : test :=
  {| test_user_id := test_user_id t; title := title t; mode := mode t;
     topics := topics t;
     question_count := question_count t; test_status := "completed" |}.

Definition set_question_count (t : test) (n : Z) : test :=
  {| test_user_id := test_user_id t; title := title t; mode := mode t;
     topics := topics t;
     question_count := Some n; test_status := test_status t |}.

(** ** Scoring engine (the scoring block of [submit_test_answer]) *)

Module Scoring.
Import Numeric.

(** [id::text]: the decimal text of an integer id. *)
Definition id_text (id : Z) : string := NilZero.string_of_int (Z.to_int id).

(** [t = ANY(arr)]: [NULL] for the [NULL] array; [TRUE] when an element is
    [t]; otherwise [NULL] when an element is [NULL], and [FALSE] when none
    is. *)
Definition eq_any (t : string) (arr : text_array) : option bool :=
  l ← arr;
  if existsb (fun e : option string =>
                match e with Some x => String.eqb t x | None => false end) l
  then Some true
  else if existsb (fun e : option string =>
                     match e with Some _ => false | None => true end) l
  then None
  else Some false.

(** [t <> ALL(arr)]: [NULL] for the [NULL] array; [FALSE] when an element
    is [t]; otherwise [NULL] when an element is [NULL], and [TRUE] when
    none is. *)
Definition ne_all (t : string) (arr : text_array) : option bool :=
  negb <$> eq_any t arr.

(** [arr[1]]: [NULL] for the [NULL] array, the empty array and a [NULL]
    first element. *)
Definition first_element (arr : text_array) : option string :=
  l ← arr; e ← head l; e.

(** [FROM answers WHERE question_id = p_question_id] *)
Definition answers_of (tbl : list answer) (p_question_id : Z) : list answer :=
  List.filter (fun a => answer_question_id a =? p_question_id) tbl.

(** The [CASE] summed by the partial-scoring query, for one option. *)
Definition partial_term (p_user_response : text_array) (a : answer) : Z :=
  if holds (eq_any (id_text (answer_id a)) p_user_response) && is_correct a
  then partial_credit a
  else if holds (eq_any (id_text (answer_id a)) p_user_response) && negb (is_correct a)
  then - penalty_value a
  else if holds (ne_all (id_text (answer_id a)) p_user_response) && is_correct a
  then - partial_credit a
  else 0.

(** [COALESCE(SUM(...), 0)] over the question's options. *)
Definition partial_sum (p_user_response : text_array) (opts : list answer) : Z :=
  fold_right Z.add 0 (map (partial_term p_user_response) opts).

(** The scoring block: [(v_is_correct, v_score, v_max_score)] from the
    question's format, its partial-scoring flag, its options and the
    response.  [v_score] starts at 0 and [v_max_score] at 1. *)
Definition score_response (v_question_format : string) (v_use_partial_scoring : bool)
    (opts : list answer) (p_user_response : text_array) : option bool * Z * Z :=
  if String.eqb v_question_format "Multiple Choice" then
    (* SELECT is_correct INTO v_is_correct ... AND id::text = p_user_response[1] *)
    let v_is_correct :=
      match first_element p_user_response with
      | Some r =>
          is_correct <$> List.find (fun a => String.eqb (id_text (answer_id a)) r) opts
      | None => None
      end in
    let v_score :=
      match v_is_correct with
      | Some true => numeric_of_int 1
      | _ => numeric_of_int 0
      end in
    (v_is_correct, v_score, numeric_of_int 1)
  else if String.eqb v_question_format "Select All That Apply" && v_use_partial_scoring then
    let v_score := Z.max (partial_sum p_user_response opts) 0 in
    let v_max_score :=
      numeric_of_int (Z.of_nat (length (List.filter is_correct opts))) in
    (Some (v_score =? v_max_score), v_score, v_max_score)
  else
    if negb (existsb (fun a => is_correct a
                               && holds (ne_all (id_text (answer_id a)) p_user_response)) opts)
       && negb (existsb (fun a => negb (is_correct a)
                                  && holds (eq_any (id_text (answer_id a)) p_user_response)) opts)
    then (Some true, numeric_of_int 1, numeric_of_int 1)
    else (Some false, numeric_of_int 0, numeric_of_int 1).

(** Whether the two assignments of the partial-scoring branch to the
    [NUMERIC(5,2)] variables [v_score] (the sum) and [v_max_score] (the
    count) fit; the other branches assign 0 or 1. *)
Definition fits_numeric_5_2 (v_question_format : string) (v_use_partial_scoring : bool)
    (opts : list answer) (p_user_response : text_array) : bool :=
  if String.eqb v_question_format "Multiple Choice" then true
  else if String.eqb v_question_format "Select All That Apply" && v_use_partial_scoring then
    (Z.abs (partial_sum p_user_response opts) <? 100000)
    && (numeric_of_int (Z.of_nat (length (List.filter is_correct opts))) <? 100000)
  else true.

(** The summed [partial_credit] of the options flagged correct. *)
Definition correct_credit (opts : list answer) : Z :=
  fold_right Z.add 0 (map partial_credit (List.filter is_correct opts)).

(** The number of options flagged correct, as a [NUMERIC(5,2)]. *)
Definition correct_count (opts : list answer) : Z :=
  numeric_of_int (Z.of_nat (length (List.filter is_correct opts))).

End Scoring.

(** ** Triggers *)

(** [update_updated_at_column()], the row trigger [BEFORE UPDATE] of
    [tests], [cat_sessions] and [user_question_status]: it assigns
    [NEW.updated_at], which raises (record new has no field updated_at)
    on a table without that column.  The result is the exception, if
    any. *)
Definition update_updated_at_column (columns : list string) : option string :=
  if existsb (String.eqb "updated_at") columns then None
  else Some "record new has no field updated_at".

(** The columns of the three tables, as their [CREATE TABLE] lists them. *)
Definition tests_columns : list string :=
  ["id"; "user_id"; "title"; "mode"; "question_count"; "topics"; "subtopics";
   "difficulty"; "time_limit_minutes"; "status"; "created_at"; "started_at";
   "finished_at"].
Definition cat_sessions_columns : list string :=
  ["id"; "test_id"; "user_id"; "initial_ability"; "current_ability";
   "ability_confidence"; "passing_standard"; "min_questions"; "max_questions";
   "questions_answered"; "status"; "created_at"; "updated_at"].
Definition user_question_status_columns : list string :=
  ["id"; "user_id"; "question_id"; "status"; "attempt_count"; "last_seen_at";
   "notes"; "created_at"; "updated_at"].

(** [UPDATE tests SET ... WHERE id = p_id]: the trigger fires for the row
    that matches, if there is one. *)
Definition update_tests (f : test -> test) (p_id : Z) (db : database) : string + database :=
  match tests db !! p_id with
  | None => inr db
  | Some t =>
      match update_updated_at_column tests_columns with
      | Some m => inl m
      | None => inr (with_tests db (<[p_id := f t]> (tests db)) (tests_id_seq db))
      end
  end.

(** [UPDATE cat_sessions SET ... WHERE id = p_id], likewise. *)
Definition update_cat_sessions (f : cat_session -> cat_session) (p_id : Z) (db : database)
    : string + database :=
  match cat_sessions db !! p_id with
  | None => inr db
  | Some s =>
      match update_updated_at_column cat_sessions_columns with
      | Some m => inl m
      | None => inr (with_cat_sessions db (<[p_id := f s]> (cat_sessions db))
                       (cat_sessions_id_seq db))
      end
  end.

(** The unique indexes of [user_statistics], each by its key expressions:
    the primary key and [UNIQUE(user_id, topic, sub_topic)]. *)
Definition user_statistics_unique_indexes : list (list string) :=
  [["id"]; ["user_id"; "topic"; "sub_topic"]].

(** The conflict target of the two upserts of [update_user_statistics]. *)
Definition statistics_conflict_target : list string :=
  ["user_id"; "topic"; "COALESCE(sub_topic, '')"].

(** [ON CONFLICT (target)] needs a unique index whose key expressions are
    those of the target. *)
Definition infer_arbiter_index (indexes : list (list string)) (target : list string) : bool :=
  existsb (fun index =>
             forallb (fun e => existsb (String.eqb e) index) target
             && forallb (fun e => existsb (String.eqb e) target) index)
    indexes.

(** [COALESCE(sub_topic, '')] *)
Definition coalesce_sub_topic (st : option string) : string :=
  match st with Some x => x | None => EmptyString end.

(** One [INSERT INTO user_statistics ... ON CONFLICT (user_id, topic,
    COALESCE(sub_topic, '')) DO UPDATE SET ...] of the trigger; the
    statement raises when no unique index matches its conflict target. *)
Definition upsert_statistics (u : uuid) (v_topic : string) (v_sub_topic : option string)
    (new_is_correct : option bool) (new_time_spent_seconds : Z) (db : database)
    : string + database :=
  if negb (infer_arbiter_index user_statistics_unique_indexes statistics_conflict_target)
  then inl "there is no unique or exclusion constraint matching the ON CONFLICT specification"
  else
    let gained := if holds new_is_correct then 1 else 0 in
    let conflicts (r : statistics_row) :=
      (stat_user_id r =? u) && String.eqb (stat_topic r) v_topic
      && String.eqb (coalesce_sub_topic (stat_sub_topic r)) (coalesce_sub_topic v_sub_topic) in
    let updated (r : statistics_row) :=
      {| stat_user_id := stat_user_id r; stat_topic := stat_topic r;
         stat_sub_topic := stat_sub_topic r;
         stat_correct_count := stat_correct_count r + gained;
         stat_total_count := stat_total_count r + 1;
         stat_average_time_seconds :=
           Numeric.round_half_away
             ((Numeric.of_numeric_2 (stat_average_time_seconds r) * IZR (stat_total_count r)
               + IZR new_time_spent_seconds) / IZR (stat_total_count r + 1) * 100)%R |} in
    if existsb conflicts (user_statistics db)
    then inr (with_user_statistics db
                (map (fun r => if conflicts r then updated r else r) (user_statistics db)))
    else inr (with_user_statistics db
                (user_statistics db
                 ++ [{| stat_user_id := u; stat_topic := v_topic;
                        stat_sub_topic := v_sub_topic;
                        stat_correct_count := gained; stat_total_count := 1;
                        stat_average_time_seconds :=
                          Numeric.numeric_of_int new_time_spent_seconds |}])).

(** [update_user_statistics()], the row trigger [AFTER INSERT] of
    [test_results] ([update_statistics_on_test_result]): one upsert for
    the topic of the question and one for its sub-topic. *)
Definition update_user_statistics (NEW : test_result) (db : database) : string + database :=
  match questions db !! result_question_id NEW with
  | None => inl "null value in column topic violates not-null constraint"
  | Some q =>
      match upsert_statistics (result_user_id NEW) (topic q) None
              (result_is_correct NEW) (time_spent_seconds NEW) db with
      | inl m => inl m
      | inr db1 =>
          upsert_statistics (result_user_id NEW) (topic q) (Some (sub_topic q))
            (result_is_correct NEW) (time_spent_seconds NEW) db1
      end
  end.

(** ** Stored procedures *)

(** The JSON object returned by [submit_test_answer]. *)
Record test_answer_json := {
  taj_result_id : Z;
  taj_is_correct : option bool;
  taj_score : Z;
  taj_max_score : Z
}.

(** The JSON object returned by [submit_cat_answer]; ['ability'] is the
    unrounded estimate. *)
Record cat_answer_json := {
  caj_is_correct : option bool;
  caj_score : Z;
  caj_ability : R;
  caj_questions_answered : option Z
}.

(** The two shapes of the JSON object returned by [get_next_cat_question]. *)
Inductive next_question_json :=
| Completed (status_ : string) (message : string) (ability : Z) (questions_answered_ : Z)
| NextQuestion (question_id : option Z) (question_number : Z).

(** The two shapes of the JSON object returned by [create_cat_test]. *)
Inductive create_json :=
| CreateFailed (message : string)
| Created (test_id cat_session_id question_count_ : Z).

Definition status_of_correct (v_is_correct : option bool) : string :=
  match v_is_correct with Some true => "correct" | _ => "incorrect" end.

(** The status row after [submit_test_answer]'s insert or update of
    [user_question_status] (the trigger of the table finds its
    [updated_at]). *)
Definition record_attempt (v_user_id : uuid) (p_question_id : Z) (v_is_correct : option bool)
    (db : database) : string + database :=
  match user_question_status db !! (v_user_id, p_question_id) with
  | None =>
      inr (with_user_question_status db
             (<[(v_user_id, p_question_id) :=
                  {| uqs_status := status_of_correct v_is_correct; attempt_count := 1 |}]>
                (user_question_status db)))
  | Some st =>
      match update_updated_at_column user_question_status_columns with
      | Some m => inl m
      | None =>
          inr (with_user_question_status db
                 (<[(v_user_id, p_question_id) :=
                      {| uqs_status := status_of_correct v_is_correct;
                         attempt_count := attempt_count st + 1 |}]>
                    (user_question_status db)))
      end
  end.

(** [submit_test_answer(p_test_id, p_question_id, p_user_response,
    p_time_spent_seconds, p_is_flagged)], called by [auth_uid].  A question
    id without a [questions] row has a [NULL] format and violates the
    foreign key of the first insert that names it.  The insert into
    [test_results] draws the id, checks the primary key and
    [UNIQUE(test_id, question_id)], and fires [update_user_statistics]. *)
Definition submit_test_answer (auth_uid : option uuid) (p_test_id p_question_id : Z)
    (p_user_response : text_array) (p_time_spent_seconds : Z) (p_is_flagged : bool)
    (db : database) : outcome test_answer_json :=
  match auth_uid with
  | None => Raise "Test not found or does not belong to the current user"
  | Some v_user_id =>
    if negb (match tests db !! p_test_id with
             | Some t => holds (sql_eq (test_user_id t) (Some v_user_id))
             | None => false
             end)
    then Raise "Test not found or does not belong to the current user"
    else
    match questions db !! p_question_id with
    | None => Raise "insert or update violates foreign key constraint on question_id"
    | Some q =>
      let opts := Scoring.answers_of (answers db) p_question_id in
      if negb (Scoring.fits_numeric_5_2 (question_format q) (use_partial_scoring q)
                 opts p_user_response)
      then Raise "numeric field overflow"
      else
      let '(v_is_correct, v_score, v_max_score) :=
        Scoring.score_response (question_format q) (use_partial_scoring q)
          opts p_user_response in
      match record_attempt v_user_id p_question_id v_is_correct db with
      | inl m => Raise m
      | inr db1 =>
        let v_result_id := test_results_id_seq db1 in
        let drawn := with_test_results db1 (test_results db1) (v_result_id + 1) in
        if existsb (fun r => result_id r =? v_result_id) (test_results db1)
        then RaiseAfter "duplicate key value violates unique constraint test_results_pkey"
               drawn
        else if existsb (fun r => (result_test_id r =? p_test_id)
                                  && (result_question_id r =? p_question_id))
                  (test_results db1)
        then RaiseAfter
               "duplicate key value violates unique constraint test_results_test_id_question_id_key"
               drawn
        else
          let NEW :=
            {| result_id := v_result_id; result_test_id := p_test_id;
               result_user_id := v_user_id; result_question_id := p_question_id;
               user_response := p_user_response; result_is_correct := v_is_correct;
               score := v_score; max_score := v_max_score;
               time_spent_seconds := p_time_spent_seconds; is_flagged := p_is_flagged |} in
          let db2 := with_test_results db1 (test_results db1 ++ [NEW]) (v_result_id + 1) in
          match update_user_statistics NEW db2 with
          | inl m => RaiseAfter m db2
          | inr db3 =>
              Return
                {| taj_result_id := v_result_id; taj_is_correct := v_is_correct;
                   taj_score := v_score; taj_max_score := v_max_score |}
                db3
          end
      end
    end
  end.

(** The loop query of [estimate_ability_mle]: the session's selections
    joined with the item parameters of their questions. *)
Definition mle_rows (db : database) (p_cat_session_id : Z) : list Estimator.mle_row :=
  omap (fun r : cat_question_selection =>
          if cat_session_id r =? p_cat_session_id then
            q ← selection_question_id r;
            p ← question_difficulty_parameters db !! q;
            Some {| Estimator.row_was_correct := was_correct r;
                    Estimator.row_discrimination := discrimination p;
                    Estimator.row_difficulty := difficulty p;
                    Estimator.row_guessing := guessing p |}
          else None)
       (cat_question_selections db).

(** [estimate_ability_mle(p_cat_session_id)]; [None] is the [NULL] returned
    when there is no such session. *)
Definition estimate_ability_mle (db : database) (p_cat_session_id : Z) : option R :=
  s ← cat_sessions db !! p_cat_session_id;
  Some (fst (Estimator.estimate_ability_mle_loop (mle_rows db p_cat_session_id)
               (Numeric.of_numeric_2 (current_ability s)))).

(** [cqs.id IS NULL] after the [LEFT JOIN] on the session's selections. *)
Definition not_yet_selected (db : database) (p_cat_session_id q : Z) : bool :=
  negb (existsb (fun r => (cat_session_id r =? p_cat_session_id)
                          && bool_decide (selection_question_id r = Some q))
          (cat_question_selections db)).

(** Rows of the first query of [get_next_cat_question], before ordering:
    pool questions of the test that have item parameters and no selection
    in the session. *)
Definition information_candidates (db : database) (v_test_id p_cat_session_id : Z)
    : list (Z * difficulty_parameters) :=
  omap (fun tq : test_question =>
          if (tq_test_id tq =? v_test_id)
             && not_yet_selected db p_cat_session_id (tq_question_id tq)
          then
            _ ← questions db !! tq_question_id tq;
            p ← question_difficulty_parameters db !! tq_question_id tq;
            Some (tq_question_id tq, p)
          else None)
       (test_questions db).

(** Rows of the fallback query, before ordering: pool questions of the test
    with no selection in the session. *)
Definition fallback_candidates (db : database) (v_test_id p_cat_session_id : Z) : list Z :=
  omap (fun tq : test_question =>
          if (tq_test_id tq =? v_test_id)
             && not_yet_selected db p_cat_session_id (tq_question_id tq)
          then
            _ ← questions db !! tq_question_id tq;
            Some (tq_question_id tq)
          else None)
       (test_questions db).

(** [calculate_information] at the ability, for a candidate row of the
    first query. *)
Definition candidate_information (v_ability : R)
    (v_next_question : Z * difficulty_parameters) : R :=
  IRT.calculate_information v_ability
    (Numeric.of_numeric_2 (discrimination (snd v_next_question)))
    (Numeric.of_numeric_2 (difficulty (snd v_next_question)))
    (Numeric.of_numeric_2 (guessing (snd v_next_question))).

(** Body of the selection loop: keep the candidate when its information is
    strictly above the running maximum. *)
Definition keep_maximum (v_ability : R) (acc : R * option Z)
    (v_next_question : Z * difficulty_parameters) : R * option Z :=
  let v_info := candidate_information v_ability v_next_question in
  if Rgt_dec v_info (fst acc) then (v_info, Some (fst v_next_question)) else acc.

(** The selection loop over the shortlist, from [v_max_info = 0] and
    [v_next_question_id = NULL]. *)
Definition scan_shortlist (v_ability : R) (shortlist : list (Z * difficulty_parameters))
    : R * option Z :=
  fold_left (keep_maximum v_ability) shortlist (0%R, None).

Section Procedures.

(** The row order produced by [ORDER BY RANDOM()]. *)
Variable RANDOM : forall A : Type, list A -> list A.

(** [get_next_cat_question(p_cat_session_id)], called by [auth_uid].
    Without a session row every variable is [NULL]: no check fires, both
    queries are empty, and the insert of the selection, having drawn its
    id, violates [NOT NULL] of [position]. *)
Definition get_next_cat_question (auth_uid : option uuid) (p_cat_session_id : Z)
    (db : database) : outcome next_question_json :=
  match cat_sessions db !! p_cat_session_id with
  | None =>
      RaiseAfter "null value in column position violates not-null constraint"
        (with_cat_question_selections db (cat_question_selections db)
           (cat_question_selections_id_seq db + 1))
  | Some s =>
    let v_test_id := session_test_id s in
    let v_ability := current_ability s in
    let v_questions_answered := questions_answered s in
    let v_status := status s in
    if holds (sql_ne auth_uid (session_user_id s))
    then Raise "Not authorized to access this CAT session"
    else if negb (String.eqb v_status "in_progress")
    then Return (Completed v_status ("Test already completed with status: " ++ v_status)%string
                   v_ability v_questions_answered) db
    else
      let v_pass_fail_decision :=
        if passing_standard s <=? v_ability then "passed" else "failed" in
      let v_test_complete :=
        if max_questions s <=? v_questions_answered then true
        else if min_questions s <=? v_questions_answered
        then 100 <? Z.abs (v_ability - passing_standard s)
        else false in
      if v_test_complete then
        match update_cat_sessions (fun s' => set_session_status s' v_pass_fail_decision)
                p_cat_session_id db with
        | inl m => Raise m
        | inr db1 =>
          match update_tests set_test_completed v_test_id db1 with
          | inl m => RaiseAfter m db1
          | inr db2 =>
              Return (Completed v_pass_fail_decision
                        ("Test completed with status: " ++ v_pass_fail_decision)%string
                        v_ability v_questions_answered) db2
          end
        end
      else
        let shortlist :=
          firstn 50 (RANDOM _ (information_candidates db v_test_id p_cat_session_id)) in
        let '(v_max_info, v_next_question_id) :=
          scan_shortlist (Numeric.of_numeric_2 v_ability) shortlist in
        let v_next_question_id :=
          match v_next_question_id with
          | Some q => Some q
          | None => head (RANDOM _ (fallback_candidates db v_test_id p_cat_session_id))
          end in
        match Numeric.cast_numeric_5_2 v_max_info with
        | None => Raise "numeric field overflow"
        | Some v_information_value =>
          let v_selection_id := cat_question_selections_id_seq db in
          let drawn :=
            with_cat_question_selections db (cat_question_selections db)
              (v_selection_id + 1) in
          if existsb (fun r => selection_id r =? v_selection_id) (cat_question_selections db)
          then RaiseAfter
                 "duplicate key value violates unique constraint cat_question_selections_pkey"
                 drawn
          else
            let row :=
              {| selection_id := v_selection_id;
                 cat_session_id := p_cat_session_id;
                 selection_question_id := v_next_question_id;
                 position := v_questions_answered + 1;
                 ability_estimate_before := v_ability;
                 ability_estimate_after := None;
                 information_value := v_information_value;
                 was_correct := None |} in
            let db1 :=
              with_cat_question_selections db (cat_question_selections db ++ [row])
                (v_selection_id + 1) in
            match update_cat_sessions
                    (fun s' => set_questions_answered s' (questions_answered s' + 1))
                    p_cat_session_id db1 with
            | inl m => RaiseAfter m db1
            | inr db2 =>
              (* the details come from [questions JOIN answers]: no row, hence a
                 NULL id, when the question has no options *)
              let returned_id :=
                q ← v_next_question_id;
                if existsb (fun a => answer_question_id a =? q) (answers db) then Some q
                else None in
              Return (NextQuestion returned_id (v_questions_answered + 1)) db2
            end
        end
  end.

End Procedures.

(** The selections hit by [WHERE cat_session_id = ... AND question_id = ...]. *)
Definition selection_matches (p_cat_session_id p_question_id : Z)
    (r : cat_question_selection) : bool :=
  (cat_session_id r =? p_cat_session_id)
  && bool_decide (selection_question_id r = Some p_question_id).

(** The statements of [submit_cat_answer] after [submit_test_answer] has
    returned [v_result]: the answer is recorded on the selection, the
    ability is estimated again and stored on the selection and on the
    session.  An [UPDATE ... RETURNING ... INTO] that returns more than one
    row raises. *)
Definition record_cat_answer (p_cat_session_id p_question_id : Z)
    (v_result : test_answer_json) (db1 : database) : outcome cat_answer_json :=
  let v_is_correct := taj_is_correct v_result in
  let v_score := taj_score v_result in
  let hit := List.filter (selection_matches p_cat_session_id p_question_id)
               (cat_question_selections db1) in
  match hit with
  | _ :: _ :: _ => RaiseAfter "query returned more than one row" db1
  | _ =>
    let v_selection_id := selection_id <$> head hit in
    let db2 :=
      with_cat_question_selections db1
        (map (fun r => if selection_matches p_cat_session_id p_question_id r
                       then set_was_correct r v_is_correct else r)
           (cat_question_selections db1))
        (cat_question_selections_id_seq db1) in
    match estimate_ability_mle db2 p_cat_session_id with
    | None => RaiseAfter "no such CAT session" db2
    | Some v_ability =>
      match Numeric.cast_numeric_5_2 v_ability with
      | None => RaiseAfter "numeric field overflow" db2
      | Some stored_ability =>
        let db3 :=
          with_cat_question_selections db2
            (map (fun r => if bool_decide (v_selection_id = Some (selection_id r))
                           then set_ability_estimate_after r stored_ability
                           else r)
               (cat_question_selections db2))
            (cat_question_selections_id_seq db2) in
        match update_cat_sessions (fun s' => set_current_ability s' stored_ability)
                p_cat_session_id db3 with
        | inl m => RaiseAfter m db3
        | inr db4 =>
          Return
            {| caj_is_correct := v_is_correct; caj_score := v_score;
               caj_ability := v_ability;
               caj_questions_answered :=
                 questions_answered <$> cat_sessions db4 !! p_cat_session_id |}
            db4
        end
      end
    end
  end.

(** [submit_cat_answer(p_cat_session_id, p_question_id, p_user_response,
    p_time_spent_seconds)], called by [auth_uid].  Without a session row
    [v_user_id] and [v_test_id] are [NULL]: the check does not fire and
    [submit_test_answer] finds no test. *)
Definition submit_cat_answer (auth_uid : option uuid) (p_cat_session_id p_question_id : Z)
    (p_user_response : text_array) (p_time_spent_seconds : Z)
    (db : database) : outcome cat_answer_json :=
  match cat_sessions db !! p_cat_session_id with
  | None => Raise "Test not found or does not belong to the current user"
  | Some s =>
    if holds (sql_ne auth_uid (session_user_id s))
    then Raise "Not authorized to submit answers for this CAT session"
    else
    match submit_test_answer auth_uid (session_test_id s) p_question_id
            p_user_response p_time_spent_seconds false db with
    | Raise m => Raise m
    | RaiseAfter m db' => RaiseAfter m db'
    | Return v_result db1 => record_cat_answer p_cat_session_id p_question_id v_result db1
    end
  end.

(** *** [create_cat_test] *)

(** The row of [user_question_status] joined to a question by
    [uqs.question_id = q.id AND uqs.user_id = v_user_id]; there is none
    for a [NULL] [v_user_id]. *)
Definition joined_status (db : database) (v_user_id : option uuid) (q : Z)
    : option question_status :=
  u ← v_user_id; user_question_status db !! (u, q).

(** The [CASE] of the pool query's [ORDER BY]: unseen questions first, then
    those last answered incorrectly, then the others. *)
Definition pool_tier (db : database) (v_user_id : option uuid) (q : Z) : Z :=
  match joined_status db v_user_id q with
  | None => 1
  | Some st => if String.eqb (uqs_status st) "incorrect" then 2 else 3
  end.

(** Rows of the pool query before ordering: questions with item parameters
    and, when topics are given, of one of the topics and not last answered
    correctly by the user. *)
Definition pool_candidates (db : database) (v_user_id : option uuid)
    (p_topics : text_array) : list Z :=
  omap (fun qr : Z * question =>
          _ ← question_difficulty_parameters db !! fst qr;
          match p_topics with
          | Some (_ :: _) =>
              if holds (Scoring.eq_any (topic (snd qr)) p_topics)
                 && match joined_status db v_user_id (fst qr) with
                    | None => true
                    | Some st => negb (String.eqb (uqs_status st) "correct")
                    end
              then Some (fst qr) else None
          | _ => Some (fst qr)
          end)
       (map_to_list (questions db)).

(** [ORDER BY CASE ... END, RANDOM()]: a random order, sorted stably by tier. *)
Definition order_by_tier (db : database) (v_user_id : option uuid) (l : list Z) : list Z :=
  List.filter (fun q => pool_tier db v_user_id q =? 1) l
  ++ List.filter (fun q => pool_tier db v_user_id q =? 2) l
  ++ List.filter (fun q => pool_tier db v_user_id q =? 3) l.

(** [SELECT v_test_id, q, row_number() OVER () FROM unnest(v_question_ids)] *)
Fixpoint number_rows (v_test_id : Z) (row_number : Z) (v_question_ids : list Z)
    : list test_question :=
  match v_question_ids with
  | [] => []
  | q :: rest =>
      {| tq_test_id := v_test_id; tq_question_id := q; question_order := row_number |}
      :: number_rows v_test_id (row_number + 1) rest
  end.

(** The pool query of [create_cat_test] with its [LIMIT v_question_pool]:
    at most 300 candidates in tier order, under the given random order. *)
Definition drawn_pool (RANDOM : forall A : Type, list A -> list A) (db : database)
    (v_user_id : option uuid) (p_topics : text_array) : list Z :=
  firstn 300 (order_by_tier db v_user_id (RANDOM _ (pool_candidates db v_user_id p_topics))).

(** The row of [INSERT INTO cat_sessions ...] at the end of
    [create_cat_test]; the other columns take their defaults. *)
Definition new_cat_session (v_test_id : Z) (v_user_id : option uuid)
    (v_initial_ability stored_passing_standard : Z)
    (p_min_questions p_max_questions v_question_count : Z) : cat_session :=
  {| session_test_id := v_test_id; session_user_id := v_user_id;
     initial_ability := v_initial_ability; current_ability := v_initial_ability;
     passing_standard := stored_passing_standard;
     min_questions := p_min_questions;
     max_questions := Z.min p_max_questions v_question_count;
     questions_answered := 0; status := "in_progress" |}.

Section CreateProcedure.

Variable RANDOM : forall A : Type, list A -> list A.

(** [create_cat_test(p_title, p_topics, p_min_questions, p_max_questions,
    p_passing_standard)], called by [auth_uid].  The two [SERIAL] inserts
    raise when the drawn id is already a primary key; the unique constraint
    of [test_questions] cannot fire for a test id that was just drawn and is
    left out.  [UPDATE tests SET question_count] fires the trigger of
    [tests] on the row just inserted. *)
Definition create_cat_test (auth_uid : option uuid) (p_title : string)
    (p_topics : text_array) (p_min_questions p_max_questions : Z)
    (p_passing_standard : R) (db : database) : outcome create_json :=
  let v_user_id := auth_uid in
  let v_initial_ability := 0 in
  match varchar 255 p_title, varchar_array 255 p_topics with
  | Some stored_title, Some stored_topics =>
    let v_test_id := tests_id_seq db in
    match tests db !! v_test_id with
    | Some _ =>
        RaiseAfter "duplicate key value violates unique constraint tests_pkey"
          (with_tests db (tests db) (v_test_id + 1))
    | None =>
      let new_test :=
        {| test_user_id := v_user_id; title := stored_title; mode := "CAT";
           topics := stored_topics; question_count := None;
           test_status := "in_progress" |} in
      let db1 := with_tests db (<[v_test_id := new_test]> (tests db)) (v_test_id + 1) in
      let v_question_ids := drawn_pool RANDOM db1 v_user_id p_topics in
      let v_question_count := Z.of_nat (length v_question_ids) in
      if v_question_count =? 0 then
        Return (CreateFailed "Could not create test: No questions available matching criteria")
          (with_tests db1 (delete v_test_id (tests db1)) (tests_id_seq db1))
      else
        let db2 :=
          with_test_questions db1
            (test_questions db1 ++ number_rows v_test_id 1 v_question_ids) in
        match update_tests (fun t => set_question_count t v_question_count) v_test_id db2 with
        | inl m => RaiseAfter m db2
        | inr db3 =>
          match Numeric.cast_numeric_5_2 p_passing_standard with
          | None => RaiseAfter "numeric field overflow" db3
          | Some stored_passing_standard =>
            let v_cat_session_id := cat_sessions_id_seq db3 in
            match cat_sessions db3 !! v_cat_session_id with
            | Some _ =>
                RaiseAfter "duplicate key value violates unique constraint cat_sessions_pkey"
                  (with_cat_sessions db3 (cat_sessions db3) (v_cat_session_id + 1))
            | None =>
              Return (Created v_test_id v_cat_session_id v_question_count)
                (with_cat_sessions db3
                   (<[v_cat_session_id :=
                        new_cat_session v_test_id v_user_id v_initial_ability
                          stored_passing_standard p_min_questions p_max_questions
                          v_question_count]> (cat_sessions db3))
                   (v_cat_session_id + 1))
            end
          end
        end
    end
  | _, _ => Raise "value too long for type character varying(255)"
  end.

End CreateProcedure.

(** *** Calls of the interface *)

(** A call of one of the three procedures the engine exposes. *)
Inductive api_call :=
| CallGetNext (auth_uid : option uuid) (p_cat_session_id : Z)
| CallSubmit (auth_uid : option uuid) (p_cat_session_id p_question_id : Z)
    (p_user_response : text_array) (p_time_spent_seconds : Z)
| CallCreate (auth_uid : option uuid) (p_title : string) (p_topics : text_array)
    (p_min_questions p_max_questions : Z) (p_passing_standard : R).

(** The database after a call made in its own transaction. *)
Definition database_after (RANDOM : forall A : Type, list A -> list A)
    (c : api_call) (db : database) : database :=
  match c with
  | CallGetNext u sid => fst (run_txn (get_next_cat_question RANDOM u sid) db)
  | CallSubmit u sid q resp t => fst (run_txn (submit_cat_answer u sid q resp t) db)
  | CallCreate u ti tp mn mx ps => fst (run_txn (create_cat_test RANDOM u ti tp mn mx ps) db)
  end.

(** *** The rules in the words of the specification *)

(** The stopping rule: the maximum is reached, or the minimum is reached
    and the ability is more than 1.00 away from the passing standard. *)
Definition stopping_rule (s : cat_session) : Prop :=
  max_questions s <= questions_answered s
  \/ (min_questions s <= questions_answered s
      /\ 100 < Z.abs (current_ability s - passing_standard s)).

(** The decision on termination: pass when the ability is at least the
    passing standard. *)
Definition pass_fail (s : cat_session) (decision : string) : Prop :=
  (passing_standard s <= current_ability s /\ decision = "passed")
  \/ (current_ability s < passing_standard s /\ decision = "failed").

(** A question of the test's pool that no selection of the session names. *)
Definition unselected_pool_question (db : database) (v_test_id p_cat_session_id q : Z) : Prop :=
  (exists tq, tq ∈ test_questions db /\ tq_test_id tq = v_test_id /\ tq_question_id tq = q)
  /\ is_Some (questions db !! q)
  /\ (forall r, r ∈ cat_question_selections db ->
        cat_session_id r = p_cat_session_id -> selection_question_id r <> Some q).

(** The selection [get_next_cat_question] records for session [sid], read
    as [s], when [chosen] is selected with maximal information
    [v_max_info]. *)
Definition recorded (db : database) (sid : Z) (s : cat_session)
    (chosen : option Z) (v_max_info : R) : cat_question_selection :=
  {| selection_id := cat_question_selections_id_seq db;
     cat_session_id := sid;
     selection_question_id := chosen;
     position := questions_answered s + 1;
     ability_estimate_before := current_ability s;
     ability_estimate_after := None;
     information_value := Numeric.to_numeric_5_2 v_max_info;
     was_correct := None |}.


(** ** Sample data *)

Module Examples.

(** [ORDER BY RANDOM()] that happens to keep the stored order. *)
Definition stored_order : forall A : Type, list A -> list A := fun _ l => l.

Definition sample_questions : gmap Z question :=
  {[ 1 := {| topic := "Pharmacology"; sub_topic := "Dosage"; question_format := "Multiple Choice";
             use_partial_scoring := false |};
     2 := {| topic := "Pharmacology"; sub_topic := "Dosage"; question_format := "Multiple Choice";
             use_partial_scoring := false |};
     3 := {| topic := "Safety"; sub_topic := "Infection Control"; question_format := "Select All That Apply";
             use_partial_scoring := true |} ]}.

(** Question 3 has two correct options worth 0.50 each and an incorrect one
    with a penalty of 0.50. *)
Definition sample_answers : list answer :=
  [ {| answer_id := 11; answer_question_id := 1; is_correct := true;
       partial_credit := 0; penalty_value := 0 |};
    {| answer_id := 12; answer_question_id := 1; is_correct := false;
       partial_credit := 0; penalty_value := 0 |};
    {| answer_id := 21; answer_question_id := 2; is_correct := true;
       partial_credit := 0; penalty_value := 0 |};
    {| answer_id := 22; answer_question_id := 2; is_correct := false;
       partial_credit := 0; penalty_value := 0 |};
    {| answer_id := 31; answer_question_id := 3; is_correct := true;
       partial_credit := 50; penalty_value := 0 |};
    {| answer_id := 32; answer_question_id := 3; is_correct := true;
       partial_credit := 50; penalty_value := 0 |};
    {| answer_id := 33; answer_question_id := 3; is_correct := false;
       partial_credit := 0; penalty_value := 50 |} ].

Definition sample_parameters : gmap Z difficulty_parameters :=
  {[ 1 := {| discrimination := 100; difficulty := 0; guessing := 20 |};
     2 := {| discrimination := 100; difficulty := 0; guessing := 20 |} ]}.

(** A question bank with no test yet. *)
Definition bank : database :=
  {| questions := sample_questions; answers := sample_answers;
     question_difficulty_parameters := sample_parameters;
     user_question_status := ∅; tests := ∅; test_questions := [];
     test_results := []; cat_sessions := ∅; cat_question_selections := []; user_statistics := [];
     tests_id_seq := 1; test_results_id_seq := 1;
     cat_sessions_id_seq := 1; cat_question_selections_id_seq := 1 |}.

Definition sample_session (ability answered : Z) (st : string) : cat_session :=
  {| session_test_id := 1; session_user_id := Some 7;
     initial_ability := 0; current_ability := ability; passing_standard := 0;
     min_questions := 1; max_questions := 2; questions_answered := answered;
     status := st |}.

Definition sample_test : test :=
  {| test_user_id := Some 7; title := "NCLEX CAT Simulation"; mode := "CAT";
     topics := None; question_count := Some 2; test_status := "in_progress" |}.

Definition sample_pool : list test_question :=
  [ {| tq_test_id := 1; tq_question_id := 1; question_order := 1 |};
    {| tq_test_id := 1; tq_question_id := 2; question_order := 2 |} ].

(** User 7's session 1 on test 1 with the pool of questions 1 and 2. *)
Definition with_session (s : cat_session) (log : list cat_question_selection) : database :=
  {| questions := sample_questions; answers := sample_answers;
     question_difficulty_parameters := sample_parameters;
     user_question_status := ∅; tests := {[ 1 := sample_test ]};
     test_questions := sample_pool;
     test_results := []; cat_sessions := {[ 1 := s ]};
     cat_question_selections := log; user_statistics := [];
     tests_id_seq := 2; test_results_id_seq := 1;
     cat_sessions_id_seq := 2;
     cat_question_selections_id_seq := 1 + Z.of_nat (length log) |}.

(** The selection of question 1, served first and not yet answered. *)
Definition first_selection : cat_question_selection :=
  {| selection_id := 1; cat_session_id := 1; selection_question_id := Some 1;
     position := 1; ability_estimate_before := 0; ability_estimate_after := None;
     information_value := 104; was_correct := None |}.

(** The selection of question 2, served second and not yet answered. *)
Definition second_selection : cat_question_selection :=
  {| selection_id := 2; cat_session_id := 1; selection_question_id := Some 2;
     position := 2; ability_estimate_before := 0; ability_estimate_after := None;
     information_value := 104; was_correct := None |}.

(** Nothing served yet. *)
Definition fresh : database := with_session (sample_session 0 0 "in_progress") [].

(** Question 1 is in flight; question 2 has not been served. *)
Definition in_flight : database :=
  with_session (sample_session 0 1 "in_progress") [first_selection].

(** A session that has ended. *)
Definition finished : database :=
  with_session (sample_session 150 2 "passed") [first_selection].

(** A session in progress that has counted its maximum of two questions,
    with the ability at 1.50. *)
Definition at_maximum : database :=
  with_session (sample_session 150 2 "in_progress") [first_selection; second_selection].

(** A session in progress with the ability at 4.00 and a pool question of
    discrimination 1.20, difficulty -1.25 and guessing 0.25. *)
Definition steep_parameters : gmap Z difficulty_parameters :=
  {[ 1 := {| discrimination := 120; difficulty := -125; guessing := 25 |} ]}.

Definition at_ceiling : database :=
  {| questions := sample_questions; answers := sample_answers;
     question_difficulty_parameters := steep_parameters;
     user_question_status := ∅; tests := {[ 1 := sample_test ]};
     test_questions := sample_pool;
     test_results := [];
     cat_sessions := {[ 1 := sample_session 400 0 "in_progress" ]};
     cat_question_selections := []; user_statistics := [];
     tests_id_seq := 2; test_results_id_seq := 1;
     cat_sessions_id_seq := 2; cat_question_selections_id_seq := 1 |}.

(** A session row whose ability is the initial value of [v_prev_ability]. *)
Definition at_sentinel : database :=
  with_session (sample_session (-99900) 0 "in_progress") [].

End Examples.

(** ** Auxiliary notions for the properties of the estimator *)

Module EstimatorTerms.
Import IRT Numeric Estimator.
Local Open Scope R_scope.

(** The probability the loop body works with: [calculate_probability] at the
    row's parameters, limited to [0.001, 0.999]. *)
Definition limited_probability (v_ability : R) (row : mle_row) : R :=
  let p := calculate_probability v_ability (of_numeric_2 (row_discrimination row))
             (of_numeric_2 (row_difficulty row)) (of_numeric_2 (row_guessing row)) in
  let p := if Rlt_dec p 0.001 then 0.001 else p in
  if Rgt_dec p 0.999 then 0.999 else p.

(** What one row adds to [v_likelihood_derivative]. *)
Definition derivative_term (v_ability : R) (row : mle_row) : R :=
  let a := of_numeric_2 (row_discrimination row) in
  let p := limited_probability v_ability row in
  match row_was_correct row with
  | Some true => a * (1 - p) / p
  | _ => - (a * p / (1 - p))
  end.

(** What one row adds to [v_likelihood_second_derivative]. *)
Definition second_derivative_term (v_ability : R) (row : mle_row) : R :=
  let a := of_numeric_2 (row_discrimination row) in
  let p := limited_probability v_ability row in
  - (a * a * p * (1 - p)).

Definition Rsum (l : list R) : R := fold_right Rplus 0 l.

End EstimatorTerms.

(** ** Notions for the invariants of the engine *)

(** The selections of a session, in the order of their insertion. *)
Definition session_selections (db : database) (p_cat_session_id : Z)
    : list cat_question_selection :=
  List.filter (fun r => cat_session_id r =? p_cat_session_id) (cat_question_selections db).

(** The questions a session's selections name. *)
Definition selected_questions (db : database) (p_cat_session_id : Z) : list Z :=
  omap selection_question_id (session_selections db p_cat_session_id).

(** [v_next_question_id] at the insert of [get_next_cat_question], for the
    session [p_cat_session_id] read as [s]. *)
Definition chosen_question (RANDOM : forall A : Type, list A -> list A) (db : database)
    (p_cat_session_id : Z) (s : cat_session) : option Z :=
  match
    snd (scan_shortlist (Numeric.of_numeric_2 (current_ability s))
           (firstn 50 (RANDOM _ (information_candidates db (session_test_id s)
                                   p_cat_session_id))))
  with
  | Some q => Some q
  | None => head (RANDOM _ (fallback_candidates db (session_test_id s) p_cat_session_id))
  end.

(** The database after a sequence of calls of the interface. *)
Definition database_after_calls (RANDOM : forall A : Type, list A -> list A)
    (calls : list api_call) (db : database) : database :=
  fold_left (fun db c => database_after RANDOM c db) calls db.

(** The selection log agrees with the sessions: selection ids are distinct
    and below the sequence, every selection belongs to a session, and the
    positions of a session's selections are 1, 2, ... up to its
    [questions_answered], in the order of insertion. *)
Definition selection_log_consistent (db : database) : Prop :=
  (forall r, r ∈ cat_question_selections db ->
     selection_id r < cat_question_selections_id_seq db
     /\ is_Some (cat_sessions db !! cat_session_id r))
  /\ NoDup (map selection_id (cat_question_selections db))
  /\ (forall sid s, cat_sessions db !! sid = Some s ->
        0 <= questions_answered s
        /\ map position (session_selections db sid) = seqZ 1 (questions_answered s)).

(** No session has selected a question twice. *)
Definition questions_selected_once (db : database) : Prop :=
  forall sid, NoDup (selected_questions db sid).

(** No session has counted more questions than its maximum. *)
Definition within_maximum (db : database) : Prop :=
  forall sid s, cat_sessions db !! sid = Some s ->
    questions_answered s <= Z.max 0 (max_questions s).

(** The pool of every session's test holds at least [max_questions]
    different questions of the bank. *)
Definition pool_suffices (db : database) : Prop :=
  forall sid s, cat_sessions db !! sid = Some s ->
    exists pool : list Z,
      NoDup pool
      /\ max_questions s <= Z.of_nat (length pool)
      /\ forall q, q ∈ pool ->
           (exists tq, tq ∈ test_questions db /\ tq_test_id tq = session_test_id s
                       /\ tq_question_id tq = q)
           /\ is_Some (questions db !! q).

(** Every selection names a question of the pool of its session's test. *)
Definition selections_from_pool (db : database) : Prop :=
  forall r s, r ∈ cat_question_selections db ->
    cat_sessions db !! cat_session_id r = Some s ->
    exists q tq,
      selection_question_id r = Some q
      /\ tq ∈ test_questions db /\ tq_test_id tq = session_test_id s
      /\ tq_question_id tq = q.

(** The question in flight of a session: the question of its most recent
    selection, when that selection has no answer yet. *)
Definition question_in_flight (db : database) (p_cat_session_id : Z) : option Z :=
  r ← last (session_selections db p_cat_session_id);
  match was_correct r with
  | None => selection_question_id r
  | Some _ => None
  end.

(** ** [initialize_cat_parameters] *)

Definition with_question_difficulty_parameters (db : database)
    (t : gmap Z difficulty_parameters) : database :=
  {| questions := questions db; answers := answers db;
     question_difficulty_parameters := t;
     user_question_status := user_question_status db;
     tests := tests db; test_questions := test_questions db;
     test_results := test_results db; cat_sessions := cat_sessions db;
     cat_question_selections := cat_question_selections db;
     user_statistics := user_statistics db;
     tests_id_seq := tests_id_seq db; test_results_id_seq := test_results_id_seq db;
     cat_sessions_id_seq := cat_sessions_id_seq db;
     cat_question_selections_id_seq := cat_question_selections_id_seq db |}.

(** The [CASE] that converts the text difficulty to a number. *)
Definition label_difficulty (label : string) : R :=
  if String.eqb label "Easy" then (-1.0)%R
  else if String.eqb label "Medium" then 0.0%R
  else if String.eqb label "Hard" then 1.0%R
  else 0.0%R.

(** Rows of the loop query: the questions without a parameter row. *)
Definition questions_without_parameters (db : database) : list Z :=
  List.filter (fun q => negb (bool_decide (is_Some (question_difficulty_parameters db !! q))))
    (map fst (map_to_list (questions db))).

Section InitializeProcedure.

(** [raw_user_meta_data->>'role'] of the rows of [auth.users]. *)
Variable user_role : uuid -> option string.

(** [questions.difficulty], the label of each question. *)
Variable question_difficulty : Z -> string.

(** The successive values of [random()], each in [0, 1). *)
Variable random : nat -> R.

(** Body of the loop; [drawn] counts the values of [random()] used so far. *)
Definition initialize_row (acc : gmap Z difficulty_parameters * nat) (v_question_id : Z)
    : gmap Z difficulty_parameters * nat :=
  let v_difficulty := label_difficulty (question_difficulty v_question_id) in
  let v_difficulty := (v_difficulty + (random (snd acc) * 0.5 - 0.25))%R in
  (<[v_question_id :=
       {| discrimination := Numeric.to_numeric_5_2 (0.8 + random (S (snd acc)) * 0.4)%R;
          difficulty := Numeric.to_numeric_5_2 v_difficulty;
          guessing := Numeric.to_numeric_5_2 (0.20 + random (S (S (snd acc))) * 0.05)%R |}]>
     (fst acc),
   S (S (S (snd acc)))).

(** [initialize_cat_parameters()], called by [auth_uid]. *)
Definition initialize_cat_parameters (auth_uid : uuid) (db : database) : outcome unit :=
  if negb (bool_decide (user_role auth_uid = Some "admin"))
  then Raise "Only administrators can initialize CAT parameters"
  else
    Return tt
      (with_question_difficulty_parameters db
         (fst (fold_left initialize_row (questions_without_parameters db)
                 (question_difficulty_parameters db, 0%nat)))).

End InitializeProcedure.

(** Parameter rows as [initialize_cat_parameters] writes them for a question
    labelled [label]: discrimination in [0.80, 1.20], guessing in
    [0.20, 0.25], difficulty within 0.25 of the label's value. *)
Definition initial_parameters (label : string) (p : difficulty_parameters) : Prop :=
  80 <= discrimination p <= 120
  /\ 20 <= guessing p <= 25
  /\ (label_difficulty label - 0.25 <= Numeric.of_numeric_2 (difficulty p)
      <= label_difficulty label + 0.25)%R.

(** ** [get_next_test_question] and the view [test_summaries] *)

(** [get_next_test_question] runs with the rights of its caller, so the
    row-level policies filter what it reads: the questions of the caller's
    own tests, and the caller's own results; questions and answers are
    visible to everyone. *)
Definition visible_test_question (auth_uid : uuid) (db : database) (tq : test_question)
    : bool :=
  match tests db !! tq_test_id tq with
  | Some t => holds (sql_eq (test_user_id t) (Some auth_uid))
  | None => false
  end.

Definition visible_test_result (auth_uid : uuid) (r : test_result) : bool :=
  result_user_id r =? auth_uid.

(** [tr.id IS NOT NULL] after the [LEFT JOIN] on the results. *)
Definition has_result (auth_uid : uuid) (db : database) (tq : test_question) : bool :=
  existsb (fun r => visible_test_result auth_uid r
                    && (result_test_id r =? tq_test_id tq)
                    && (result_question_id r =? tq_question_id tq))
    (test_results db).

(** Rows of [next_question] before [ORDER BY ... LIMIT 1]. *)
Definition unanswered_test_questions (auth_uid : uuid) (db : database) (p_test_id : Z)
    : list test_question :=
  List.filter (fun tq => visible_test_question auth_uid db tq
                         && (tq_test_id tq =? p_test_id)
                         && bool_decide (is_Some (questions db !! tq_question_id tq))
                         && negb (has_result auth_uid db tq))
    (test_questions db).

(** [ORDER BY tq.question_order LIMIT 1]: a row of least order, the first
    such in the stored order. *)
Fixpoint first_by_order (rows : list test_question) : option test_question :=
  match rows with
  | [] => None
  | tq :: rest =>
      match first_by_order rest with
      | Some least => if question_order least <? question_order tq then Some least else Some tq
      | None => Some tq
      end
  end.

(** A row of the result; [ntq_answers] holds the ids of the JSON objects
    of [ARRAY_AGG]. *)
Record next_test_question_row := {
  ntq_question_id : Z;
  ntq_question_order : Z;
  ntq_question_format : string;
  ntq_answers : list Z
}.

(** [get_next_test_question(p_test_id)], called by [auth_uid]. *)
Definition get_next_test_question (auth_uid : uuid) (p_test_id : Z) (db : database)
    : list next_test_question_row :=
  match first_by_order (unanswered_test_questions auth_uid db p_test_id) with
  | None => []
  | Some nq =>
      match questions db !! tq_question_id nq,
            List.filter (fun a => answer_question_id a =? tq_question_id nq) (answers db) with
      | Some q, a :: more =>
          [ {| ntq_question_id := tq_question_id nq;
               ntq_question_order := question_order nq;
               ntq_question_format := question_format q;
               ntq_answers := map answer_id (a :: more) |} ]
      | _, _ => []
      end
  end.

(** A row of [test_summaries]; the scores are sums of [NUMERIC(5,2)]
    values, the percentage is their quotient. *)
Record test_summary := {
  summary_test_id : Z;
  summary_user_id : option uuid;
  total_score : Z;
  total_possible_score : Z;
  answered_questions : Z;
  correct_answers : Z;
  percentage_score : R
}.

(** The results joined to a test. *)
Definition results_of_test (db : database) (p_test_id : Z) : list test_result :=
  List.filter (fun tr => result_test_id tr =? p_test_id) (test_results db).

Definition SUM (l : list Z) : Z := fold_right Z.add 0 l.

(** The group of the test [p_test_id], read as [t]. *)
Definition test_summary_row (db : database) (p_test_id : Z) (t : test) : test_summary :=
  let trs := results_of_test db p_test_id in
  let v_total_score := SUM (map score trs) in
  let v_total_possible_score := SUM (map max_score trs) in
  {| summary_test_id := p_test_id;
     summary_user_id := test_user_id t;
     total_score := v_total_score;
     total_possible_score := v_total_possible_score;
     answered_questions := Z.of_nat (length trs);
     correct_answers :=
       SUM (map (fun tr => match result_is_correct tr with Some true => 1 | _ => 0 end) trs);
     percentage_score :=
       if 0 <? v_total_possible_score
       then (Numeric.of_numeric_2 v_total_score / Numeric.of_numeric_2 v_total_possible_score
             * 100)%R
       else 0%R |}.

(** The view [test_summaries]. *)
Definition test_summaries (db : database) : list test_summary :=
  map (fun row : Z * test => test_summary_row db (fst row) (snd row)) (map_to_list (tests db)).

(** The sample session after user 7 has answered question 1 correctly. *)
Definition one_answer_recorded : database :=
  with_test_results Examples.in_flight
    [ {| result_id := 1; result_test_id := 1; result_user_id := 7; result_question_id := 1;
         user_response := Some [Some "11"]; result_is_correct := Some true;
         score := 100; max_score := 100; time_spent_seconds := 30; is_flagged := false |} ]
    2.

(** ** The study planner ([generate_study_plan]) *)

Module StudyPlan.

(** [topics] and [subtopics]; a [DATE] is the number of its day. *)
Record topic_row := {
  topic_id : Z;
  topic_name : string
}.

Record subtopic_row := {
  subtopic_id : Z;
  subtopic_topic_id : option Z;
  subtopic_name : string
}.

Record user_statistic := {
  us_user_id : uuid;
  us_topic : string;
  us_sub_topic : option string;
  us_correct_count : Z;
  us_total_count : Z
}.

Record study_plan := {
  plan_user_id : uuid;
  plan_title : string;
  plan_description : string;
  start_date : Z;
  end_date : Z
}.

(** [study_plan_items], without the [SERIAL] id that nothing reads. *)
Record study_plan_item := {
  item_study_plan_id : Z;
  due_date : Z;
  item_topic : string;
  item_sub_topic : option string;
  activity_type : string;
  item_description : string;
  duration_minutes : Z
}.

Record planner := {
  topics : list topic_row;
  subtopics : list subtopic_row;
  user_statistics : list user_statistic;
  study_plans : gmap Z study_plan;
  study_plan_items : list study_plan_item;
  study_plans_id_seq : Z
}.

Inductive plan_outcome :=
| PlanReturn (v_study_plan_id : Z) (pl : planner)
| PlanRaise (message : string).

(** The [ORDER BY] expression of both loops, [None] being [NULL]: 999 for a
    statistics row without attempts, the success rate for one with
    attempts, and [NULL] when the [LEFT JOIN] found no statistics row. *)
Definition order_key (us : option user_statistic) : option R :=
  match us with
  | None => None
  | Some u =>
      if us_total_count u =? 0 then Some 999%R
      else Some (IZR (us_correct_count u) / IZR (us_total_count u))%R
  end.

(** [ASC] with [NULL]s last. *)
Definition key_le (a b : option R) : bool :=
  match a, b with
  | _, None => true
  | None, Some _ => false
  | Some x, Some y => if Rle_dec x y then true else false
  end.

Fixpoint insert_by_key {A : Type} (key : A -> option R) (x : A) (l : list A) : list A :=
  match l with
  | [] => [x]
  | y :: rest =>
      if key_le (key x) (key y) then x :: y :: rest else y :: insert_by_key key x rest
  end.

(** [ORDER BY ... ASC]; rows of equal key keep the order of the join. *)
Definition ORDER_BY {A : Type} (key : A -> option R) (l : list A) : list A :=
  fold_right (insert_by_key key) [] l.

(** Rows in ascending order of key: no row has a key above that of a later
    row. *)
Fixpoint ascending {A : Type} (key : A -> option R) (l : list A) : Prop :=
  match l with
  | [] => True
  | x :: rest => Forall (fun y => key_le (key x) (key y) = true) rest /\ ascending key rest
  end.

(** [topics t LEFT JOIN user_statistics us ON t.name = us.topic AND
    us.user_id = p_user_id AND us.sub_topic IS NULL] *)
Definition topic_rows (pl : planner) (p_user_id : uuid)
    : list (topic_row * option user_statistic) :=
  flat_map (fun t =>
              match List.filter (fun us => String.eqb (topic_name t) (us_topic us)
                                           && (us_user_id us =? p_user_id)
                                           && bool_decide (us_sub_topic us = None))
                      (user_statistics pl) with
              | [] => [(t, None)]
              | matches => map (fun us => (t, Some us)) matches
              end)
    (topics pl).

(** [subtopics s JOIN topics t ON s.topic_id = t.id LEFT JOIN
    user_statistics us ON t.name = us.topic AND s.name = us.sub_topic AND
    us.user_id = p_user_id] *)
Definition subtopic_rows (pl : planner) (p_user_id : uuid)
    : list (subtopic_row * topic_row * option user_statistic) :=
  flat_map (fun s =>
              flat_map (fun t =>
                          if bool_decide (subtopic_topic_id s = Some (topic_id t)) then
                            match List.filter
                                    (fun us => String.eqb (topic_name t) (us_topic us)
                                               && bool_decide (us_sub_topic us
                                                               = Some (subtopic_name s))
                                               && (us_user_id us =? p_user_id))
                                    (user_statistics pl) with
                            | [] => [(s, t, None)]
                            | matches => map (fun us => (s, t, Some us)) matches
                            end
                          else [])
                (topics pl))
    (subtopics pl).

(** Body of the first loop; the state is the items inserted so far and
    [v_current_date]. *)
Definition overview_step (v_study_plan_id p_end_date : Z)
    (acc : list study_plan_item * Z) (v_topic : topic_row * option user_statistic)
    : list study_plan_item * Z :=
  let v_current_date := snd acc in
  let item :=
    {| item_study_plan_id := v_study_plan_id; due_date := v_current_date;
       item_topic := topic_name (fst v_topic); item_sub_topic := None;
       activity_type := "Study";
       item_description := ("Overview of " ++ topic_name (fst v_topic))%string;
       duration_minutes := 120 |} in
  ((fst acc ++ [item])%list,
   if v_current_date <? p_end_date - 2
   then v_current_date + Z.rem (topic_id (fst v_topic)) 2
   else v_current_date).

(** Body of the second loop. *)
Definition practice_step (v_study_plan_id p_end_date : Z)
    (acc : list study_plan_item * Z)
    (v_subtopic : subtopic_row * topic_row * option user_statistic)
    : list study_plan_item * Z :=
  let v_current_date := snd acc in
  let s := fst (fst v_subtopic) in
  let t := snd (fst v_subtopic) in
  let item :=
    {| item_study_plan_id := v_study_plan_id; due_date := v_current_date;
       item_topic := topic_name t; item_sub_topic := Some (subtopic_name s);
       activity_type := "Practice";
       item_description := ("Practice questions on " ++ subtopic_name s)%string;
       duration_minutes := 90 |} in
  ((fst acc ++ [item])%list,
   if v_current_date <? p_end_date - 5
   then v_current_date + Z.rem (subtopic_id s) 3
   else v_current_date).

(** The simulated exam of [v_i] in [0..2]. *)
Definition simulation_item (v_study_plan_id p_end_date v_i : Z) : study_plan_item :=
  {| item_study_plan_id := v_study_plan_id; due_date := p_end_date - (5 - v_i);
     item_topic := "NCLEX Simulation"; item_sub_topic := None;
     activity_type := "Test";
     item_description := "Take a full simulated NCLEX exam";
     duration_minutes := 360 |}.

Definition final_review_item (v_study_plan_id p_end_date : Z) : study_plan_item :=
  {| item_study_plan_id := v_study_plan_id; due_date := p_end_date - 1;
     item_topic := "Final Review"; item_sub_topic := None;
     activity_type := "Review";
     item_description := "Final review of weak areas before the exam";
     duration_minutes := 240 |}.

(** The items of the first loop, of the second loop, and of the last
    days. *)
Definition overview_items (pl : planner) (p_user_id : uuid)
    (v_study_plan_id p_start_date p_end_date : Z) : list study_plan_item :=
  fst (fold_left (overview_step v_study_plan_id p_end_date)
         (ORDER_BY (fun row => order_key (snd row)) (topic_rows pl p_user_id))
         ([], p_start_date)).

Definition practice_items (pl : planner) (p_user_id : uuid)
    (v_study_plan_id p_start_date p_end_date : Z) : list study_plan_item :=
  fst (fold_left (practice_step v_study_plan_id p_end_date)
         (ORDER_BY (fun row => order_key (snd row)) (subtopic_rows pl p_user_id))
         ([], p_start_date + 2)).

Definition closing_items (v_study_plan_id p_end_date : Z) : list study_plan_item :=
  (map (simulation_item v_study_plan_id p_end_date) [0; 1; 2]
   ++ [final_review_item v_study_plan_id p_end_date])%list.

(** [generate_study_plan(p_user_id, p_title, p_description, p_start_date,
    p_end_date, p_daily_hours)], called by [auth_uid].  The insert into
    [study_plans] raises when the title does not fit [VARCHAR(255)] and
    when the id drawn is already a primary key. *)
Definition generate_study_plan (auth_uid : option uuid) (p_user_id : uuid)
    (p_title p_description : string) (p_start_date p_end_date : Z) (p_daily_hours : Z)
    (pl : planner) : plan_outcome :=
  if holds (sql_ne auth_uid (Some p_user_id))
  then PlanRaise "You can only create study plans for yourself"
  else
    let v_days_until_exam := p_end_date - p_start_date in
    if v_days_until_exam <? 7
    then PlanRaise "Study plan requires at least 7 days"
    else
      let v_total_topics := Z.of_nat (length (topics pl)) in
      if v_total_topics =? 0
      then PlanRaise "No topics found to create study plan"
      else
        match varchar 255 p_title with
        | None => PlanRaise "value too long for type character varying(255)"
        | Some stored_title =>
        let v_study_plan_id := study_plans_id_seq pl in
        match study_plans pl !! v_study_plan_id with
        | Some _ =>
            PlanRaise "duplicate key value violates unique constraint study_plans_pkey"
        | None =>
          PlanReturn v_study_plan_id
            {| topics := topics pl; subtopics := subtopics pl;
               user_statistics := user_statistics pl;
               study_plans :=
                 <[v_study_plan_id :=
                     {| plan_user_id := p_user_id; plan_title := stored_title;
                        plan_description := p_description;
                        start_date := p_start_date; end_date := p_end_date |}]>
                   (study_plans pl);
               study_plan_items :=
                 (study_plan_items pl
                  ++ overview_items pl p_user_id v_study_plan_id p_start_date p_end_date
                  ++ practice_items pl p_user_id v_study_plan_id p_start_date p_end_date
                  ++ closing_items v_study_plan_id p_end_date)%list;
               study_plans_id_seq := v_study_plan_id + 1 |}
        end
        end.

(** A small syllabus: two topics, one with a subtopic, and the statistics
    of user 7 on the first topic. *)
Definition sample_planner : planner :=
  {| topics := [ {| topic_id := 1; topic_name := "Pharmacology" |};
                 {| topic_id := 2; topic_name := "Safety" |} ];
     subtopics := [ {| subtopic_id := 1; subtopic_topic_id := Some 1;
                       subtopic_name := "Dosage" |} ];
     user_statistics := [ {| us_user_id := 7; us_topic := "Pharmacology";
                             us_sub_topic := None; us_correct_count := 1;
                             us_total_count := 2 |};
                          {| us_user_id := 7; us_topic := "Safety";
                             us_sub_topic := None; us_correct_count := 0;
                             us_total_count := 0 |} ];
     study_plans := ∅; study_plan_items := []; study_plans_id_seq := 1 |}.

End StudyPlan.

(** * Properties *)

(** Case analysis on every real comparison that guards a branch. *)
Ltac case_Rdec :=
  repeat match goal with
  | |- context [Rgt_dec ?a ?b] => destruct (Rgt_dec a b)
  | |- context [Rlt_dec ?a ?b] => destruct (Rlt_dec a b)
  | |- context [Rle_dec ?a ?b] => destruct (Rle_dec a b)
  | |- context [Rge_dec ?a ?b] => destruct (Rge_dec a b)
  end.

(** ** IRT math core *)

Module IRTFacts.
Import IRT.
Local Open Scope R_scope.

Lemma clamp_logit_range x : -35 <= clamp_logit x <= 35.
Proof.
  unfold clamp_logit, Rmin. case_Rdec; unfold Rmax; case_Rdec; lra.
Qed.

Lemma clamp_logit_mono x y : x <= y -> clamp_logit x <= clamp_logit y.
Proof.
  intros Hxy. unfold clamp_logit, Rmin. case_Rdec; unfold Rmax; case_Rdec; lra.
Qed.

Lemma clamp_logit_inside x : -35 <= x <= 35 -> clamp_logit x = x.
Proof.
  intros Hx. unfold clamp_logit, Rmin. case_Rdec; unfold Rmax; case_Rdec; lra.
Qed.

Lemma calculate_probability_clamped ability a b c :
  calculate_probability ability a b c =
  c + (1 - c) / (1 + exp (- clamp_logit (a * (ability - b)))).
Proof.
  unfold calculate_probability, clamp_logit, Rmin.
  case_Rdec; unfold Rmax; case_Rdec; try lra; try reflexivity.
  replace (a * (ability - b)) with 35 by lra. reflexivity.
Qed.

Lemma logistic_range x : 0 < logistic x < 1.
Proof.
  unfold logistic. pose proof (exp_pos (- x)) as He.
  split.
  - apply Rdiv_lt_0_compat; lra.
  - apply (Rmult_lt_reg_r (1 + exp (- x))); [lra|].
    unfold Rdiv. rewrite Rmult_assoc, Rinv_l by lra. lra.
Qed.

Lemma logistic_strict x y : x < y -> logistic x < logistic y.
Proof.
  intros Hxy. unfold logistic, Rdiv. rewrite !Rmult_1_l.
  pose proof (exp_pos (- x)). pose proof (exp_pos (- y)).
  apply Rinv_lt_contravar.
  - apply Rmult_lt_0_compat; lra.
  - apply Rplus_lt_compat_l, exp_increasing. lra.
Qed.

Lemma logistic_mono x y : x <= y -> logistic x <= logistic y.
Proof.
  intros [Hlt | ->]; [left; by apply logistic_strict | lra].
Qed.

Lemma calculate_probability_logistic ability a b c :
  calculate_probability ability a b c =
  c + (1 - c) * logistic (clamp_logit (a * (ability - b))).
Proof.
  rewrite calculate_probability_clamped. unfold logistic, Rdiv. lra.
Qed.

Lemma calculate_probability_range ability a b c :
  0 <= c < 1 -> c < calculate_probability ability a b c < 1.
Proof.
  intros Hc. rewrite calculate_probability_logistic.
  pose proof (logistic_range (clamp_logit (a * (ability - b)))) as Hl. nra.
Qed.

(** With a guessing parameter in [0, 1) the information is never negative. *)
Lemma calculate_information_nonneg ability a b c :
  0 <= c < 1 -> 0 <= calculate_information ability a b c.
Proof.
  intros Hc. unfold calculate_information.
  pose proof (calculate_probability_range ability a b c Hc) as Hp.
  set (p := calculate_probability ability a b c) in *.
  assert (0 <= a * a) by nra.
  assert (0 <= a * a * p * (1 - p)) by (apply Rmult_le_pos; [apply Rmult_le_pos|]; lra).
  case_Rdec; try assumption.
  apply Rmult_le_pos.
  - assert (0 <= (p - c) * (p - c)) by nra. nra.
  - left. apply Rinv_0_lt_compat.
    apply Rmult_lt_0_compat; [apply Rmult_lt_0_compat|]; nra.
Qed.

(** C9: for a > 0 and 0 <= c < 1 the probability of a correct response is
    the 3PL value at the logit clamped to [-35, 35], lies in [0, 1], and
    does not decrease when the ability grows; it grows strictly while
    neither logit is cut by the clamp. *)
Theorem calculate_probability_unit_interval_monotone (theta1 theta2 a b c : R) :
  0 < a -> 0 <= c < 1 -> theta1 <= theta2 ->
  calculate_probability theta1 a b c
    = c + (1 - c) / (1 + exp (- clamp_logit (a * (theta1 - b))))
  /\ -35 <= clamp_logit (a * (theta1 - b)) <= 35
  /\ 0 <= calculate_probability theta1 a b c <= 1
  /\ calculate_probability theta1 a b c <= calculate_probability theta2 a b c
  /\ (theta1 < theta2 -> -35 <= a * (theta1 - b) -> a * (theta2 - b) <= 35 ->
      calculate_probability theta1 a b c < calculate_probability theta2 a b c).
Proof.
  intros Ha Hc Hle.
  split; [apply calculate_probability_clamped|].
  split; [apply clamp_logit_range|].
  split; [pose proof (calculate_probability_range theta1 a b c Hc); lra|].
  rewrite !calculate_probability_logistic. split.
  - assert (clamp_logit (a * (theta1 - b)) <= clamp_logit (a * (theta2 - b))) as Hcl
      by (apply clamp_logit_mono; nra).
    apply logistic_mono in Hcl. nra.
  - intros Hlt Hlo Hhi.
    rewrite !clamp_logit_inside by nra.
    assert (logistic (a * (theta1 - b)) < logistic (a * (theta2 - b)))
      by (apply logistic_strict; nra).
    nra.
Qed.

Lemma calculate_probability_unit_interval_monotone_witness :
  0 <= calculate_probability 0 1 0 (/ 4) <= 1
  /\ calculate_probability 0 1 0 (/ 4) <= calculate_probability 1 1 0 (/ 4).
Proof.
  assert (0 < 1) as Ha by lra.
  assert (0 <= / 4 < 1) as Hc by lra.
  assert (0 <= 1) as Hle by lra.
  destruct (calculate_probability_unit_interval_monotone 0 1 1 0 (/ 4) Ha Hc Hle)
    as (_ & _ & Hr & Hm & _).
  exact (conj Hr Hm).
Defined.

End IRTFacts.

(** ** [NUMERIC(p,2)] columns *)

Module NumericFacts.
Import Numeric.
Local Open Scope R_scope.

Lemma Int_part_bounds x : IZR (Int_part x) <= x < IZR (Int_part x) + 1.
Proof. destruct (base_Int_part x). lra. Qed.

Lemma Int_part_ge (lo : Z) x : IZR lo <= x -> (lo <= Int_part x)%Z.
Proof.
  intros H. destruct (Int_part_bounds x) as [_ Hu].
  assert (IZR lo < IZR (Int_part x + 1)) as Hlt by (rewrite plus_IZR; lra).
  apply lt_IZR in Hlt. lia.
Qed.

Lemma Int_part_le (hi : Z) x : x < IZR hi + 1 -> (Int_part x <= hi)%Z.
Proof.
  intros H. destruct (Int_part_bounds x) as [Hl _].
  assert (IZR (Int_part x) < IZR (hi + 1)) as Hlt by (rewrite plus_IZR; lra).
  apply lt_IZR in Hlt. lia.
Qed.

Lemma round_half_away_bounds (lo hi : Z) x :
  IZR lo <= x <= IZR hi -> (lo <= round_half_away x <= hi)%Z.
Proof.
  intros [Hlo Hhi]. unfold round_half_away. destruct (Rle_dec 0 x) as [Hx|Hx].
  - split; [apply Int_part_ge | apply Int_part_le]; lra.
  - assert (- hi <= Int_part (- x + / 2) <= - lo)%Z; [|lia].
    split; [apply Int_part_ge | apply Int_part_le]; rewrite opp_IZR; lra.
Qed.

Lemma round_half_away_IZR (n : Z) : round_half_away (IZR n) = n.
Proof.
  assert (IZR n <= IZR n <= IZR n) as H by lra.
  apply round_half_away_bounds in H. lia.
Qed.

Lemma to_numeric_5_2_bounds (lo hi : Z) x :
  of_numeric_2 lo <= x <= of_numeric_2 hi -> (lo <= to_numeric_5_2 x <= hi)%Z.
Proof.
  unfold of_numeric_2, to_numeric_5_2. intros H.
  apply round_half_away_bounds. lra.
Qed.

Lemma to_numeric_5_2_of_numeric_2 (c : Z) : to_numeric_5_2 (of_numeric_2 c) = c.
Proof.
  unfold of_numeric_2, to_numeric_5_2.
  replace (IZR c / 100 * 100) with (IZR c) by lra.
  apply round_half_away_IZR.
Qed.


(** A non-negative value rounds to the integer within a half of it. *)
Lemma round_half_away_nearest (n : Z) x :
  0 <= x -> IZR n - / 2 <= x < IZR n + / 2 -> round_half_away x = n.
Proof.
  intros Hx [Hlo Hhi]. unfold round_half_away.
  destruct (Rle_dec 0 x) as [_|Hn]; [|done].
  assert (n <= Int_part (x + / 2))%Z by (apply Int_part_ge; lra).
  assert (Int_part (x + / 2) <= n)%Z by (apply Int_part_le; lra).
  lia.
Qed.

(** The assignment to a [NUMERIC(5,2)] column stores the rounded value when
    it has at most three integer digits, and fails otherwise. *)
Lemma cast_numeric_5_2_Some x c :
  cast_numeric_5_2 x = Some c <-> c = to_numeric_5_2 x /\ (Z.abs c < 100000)%Z.
Proof.
  unfold cast_numeric_5_2.
  destruct (Z.ltb_spec (Z.abs (to_numeric_5_2 x)) 100000); split.
  - by intros [= <-].
  - by intros [-> _].
  - done.
  - intros [-> ?]. lia.
Qed.

Lemma cast_numeric_5_2_None x :
  cast_numeric_5_2 x = None <-> (100000 <= Z.abs (to_numeric_5_2 x))%Z.
Proof.
  unfold cast_numeric_5_2.
  destruct (Z.ltb_spec (Z.abs (to_numeric_5_2 x)) 100000); split; try done. lia.
Qed.

(** A value within the bounds of the estimator fits. *)
Lemma cast_numeric_5_2_bounded x :
  -4 <= x <= 4 -> cast_numeric_5_2 x = Some (to_numeric_5_2 x).
Proof.
  intros Hx. apply cast_numeric_5_2_Some. split; [done|].
  assert (-400 <= to_numeric_5_2 x <= 400)%Z; [|lia].
  apply to_numeric_5_2_bounds. unfold of_numeric_2. lra.
Qed.

End NumericFacts.

(** ** Ability estimator *)

Module EstimatorFacts.
Import IRT Numeric Estimator.
Local Open Scope R_scope.

Lemma bound_ability_range x : -4 <= bound_ability x <= 4.
Proof. unfold bound_ability. destruct (Rlt_dec x (-4)); case_Rdec; lra. Qed.

Lemma mle_update_range rows v : -4 <= mle_update rows v <= 4.
Proof.
  unfold mle_update. destruct (fold_left _ _ _) as [d1 d2].
  apply bound_ability_range.
Qed.

Lemma mle_iterate_range rows start k :
  (0 < k)%nat -> -4 <= mle_iterate rows start k <= 4.
Proof. destruct k; [lia|]. intros _. apply mle_update_range. Qed.

Lemma mle_iterate_shift rows v k :
  mle_iterate rows (mle_update rows v) k = mle_iterate rows v (S k).
Proof. induction k as [|k IH]; [reflexivity|]. simpl in *. by rewrite IH. Qed.

(** The loop, from any state: it makes [j] passes, [j] bounded by what is
    left of the iteration budget; the guard held before each pass, and if
    budget is left the guard failed after the last one. *)
Lemma mle_while_trace remaining rows :
  forall v prev i,
  exists j : nat,
    (j <= remaining)%nat
    /\ mle_while remaining rows v prev i = (mle_iterate rows v j, (i + j)%nat)
    /\ (forall k, (k < j)%nat ->
          Rabs (mle_iterate rows v k - mle_previous_from prev rows v k) > 0.001)
    /\ ((j < remaining)%nat ->
          Rabs (mle_iterate rows v j - mle_previous_from prev rows v j) <= 0.001).
Proof.
  induction remaining as [|remaining IH]; intros v prev i.
  - exists 0%nat. simpl. rewrite Nat.add_0_r. repeat split; [lia | | ]; intros; lia.
  - simpl. destruct (Rgt_dec (Rabs (v - prev)) 0.001) as [Hgo|Hstop].
    + destruct (IH (mle_update rows v) v (S i)) as (j & Hj & Heq & Hbefore & Hafter).
      exists (S j). split; [lia|]. split; [|split].
      * rewrite Heq, mle_iterate_shift. f_equal. lia.
      * intros [|k] Hk; [exact Hgo|].
        specialize (Hbefore k ltac:(lia)).
        rewrite mle_iterate_shift in Hbefore.
        destruct k; simpl in *; [exact Hbefore|].
        by rewrite mle_iterate_shift in Hbefore.
      * intros Hlt. specialize (Hafter ltac:(lia)).
        rewrite mle_iterate_shift in Hafter.
        destruct j; simpl in *; [exact Hafter|].
        by rewrite mle_iterate_shift in Hafter.
    + exists 0%nat. rewrite Nat.add_0_r. split; [lia|]. split; [reflexivity|].
      split; [intros; lia|]. intros _. simpl. lra.
Qed.

(** The procedure's loop: at most 50 passes, it stops at the first estimate
    within 0.001 of the previous one, and after at least one pass the
    result is in [-4, 4]. *)
Lemma estimate_ability_mle_loop_trace rows start :
  exists n : nat,
    (n <= 50)%nat
    /\ estimate_ability_mle_loop rows start = (mle_iterate rows start n, n)
    /\ (forall k, (k < n)%nat ->
          Rabs (mle_iterate rows start k - mle_previous rows start k) > 0.001)
    /\ ((n < 50)%nat ->
          Rabs (mle_iterate rows start n - mle_previous rows start n) <= 0.001)
    /\ (Rabs (start - -999) > 0.001 ->
          (1 <= n)%nat /\ -4 <= mle_iterate rows start n <= 4).
Proof.
  destruct (mle_while_trace v_max_iter rows start (-999) 0) as (n & Hn & Heq & Hb & Ha).
  exists n. unfold v_max_iter in *. repeat split; try done.
  - destruct n; [|lia]. specialize (Ha ltac:(lia)). simpl in Ha. lra.
  - apply mle_iterate_range. destruct n; [|lia].
    specialize (Ha ltac:(lia)). simpl in Ha. lra.
  - apply mle_iterate_range. destruct n; [|lia].
    specialize (Ha ltac:(lia)). simpl in Ha. lra.
Qed.

(** At the initial value of [v_prev_ability] the loop is not entered. *)
Lemma estimate_ability_mle_loop_sentinel rows :
  estimate_ability_mle_loop rows (-999) = (-999, 0%nat).
Proof.
  unfold estimate_ability_mle_loop, v_max_iter. simpl.
  destruct (Rgt_dec _ _) as [H|H]; [|reflexivity].
  replace (-999 - -999) with 0 in H by lra. rewrite Rabs_R0 in H. lra.
Qed.

End EstimatorFacts.

(** ** Scoring engine *)

Module ScoringFacts.
Import Numeric Scoring.

Lemma id_text_inj x y : id_text x = id_text y -> x = y.
Proof.
  unfold id_text. intros H. apply DecimalZ.to_int_inj.
  assert (forall z, NilZero.int_of_string (NilZero.string_of_int (Z.to_int z))
                    = Some (Z.to_int z)) as Hi.
  { intros z. apply NilZero.isi; destruct z; simpl; try discriminate;
      intros [= E]; revert E; apply DecimalPos.Unsigned.to_uint_nonnil. }
  pose proof (Hi x) as Hx. rewrite H, Hi in Hx. congruence.
Qed.

(** On a response without [NULL]s the two array tests are the membership
    test and its negation. *)
Lemma eq_any_null_free t l :
  eq_any t (Some (map Some l)) = Some (existsb (String.eqb t) l).
Proof.
  unfold eq_any. simpl.
  assert (existsb (fun e : option string =>
                     match e with Some x => String.eqb t x | None => false end)
            (map Some l) = existsb (String.eqb t) l) as ->.
  { induction l as [|x l IH]; [reflexivity|]. simpl. by rewrite IH. }
  assert (existsb (fun e : option string =>
                     match e with Some _ => false | None => true end)
            (map Some l) = false) as ->.
  { induction l as [|x l IH]; [reflexivity|]. simpl. exact IH. }
  by destruct (existsb (String.eqb t) l).
Qed.

Lemma existsb_eqb_In t l : existsb (String.eqb t) l = true <-> In t l.
Proof.
  rewrite existsb_exists. split.
  - intros (x & Hx & Heq). apply String.eqb_eq in Heq. by subst.
  - intros Hin. exists t. split; [done | apply String.eqb_refl].
Qed.

(** [t = ANY(arr)] is [TRUE] exactly when [t] is an element of the
    array. *)
Lemma holds_eq_any t arr :
  holds (eq_any t arr) = true <-> exists l, arr = Some l /\ In (Some t) l.
Proof.
  unfold eq_any. destruct arr as [l|]; simpl.
  - destruct (existsb _ l) eqn:He.
    + split; [intros _|done]. exists l. split; [done|].
      apply existsb_exists in He as ([x|] & Hx & Heq); [|done].
      apply String.eqb_eq in Heq. by subst.
    + split.
      * case (existsb _ l); simpl; intros; discriminate.
      * intros (l' & [= <-] & Hin). exfalso.
        assert (existsb (fun e : option string =>
                  match e with Some x => String.eqb t x | None => false end) l = true) as Ht.
        { apply existsb_exists. exists (Some t). split; [done|apply String.eqb_refl]. }
        congruence.
  - split; [done|]. by intros (l & ? & _).
Qed.

(** [t <> ALL(arr)] is [TRUE] exactly when the array has no [NULL] and
    [t] is none of its elements. *)
Lemma holds_ne_all t arr :
  holds (ne_all t arr) = true
  <-> exists l, arr = Some l /\ ~ In (Some t) l /\ ~ In None l.
Proof.
  unfold ne_all, eq_any. destruct arr as [l|]; simpl.
  - destruct (existsb (fun e : option string =>
                match e with Some x => String.eqb t x | None => false end) l) eqn:He.
    + simpl. split; [done|]. intros (l' & [= <-] & Hnot & _). exfalso. apply Hnot.
      apply existsb_exists in He as ([x|] & Hx & Heq); [|done].
      apply String.eqb_eq in Heq. by subst.
    + destruct (existsb (fun e : option string =>
                  match e with Some _ => false | None => true end) l) eqn:Hn; simpl.
      * split; [done|]. intros (l' & [= <-] & _ & Hnot). exfalso. apply Hnot.
        by apply existsb_exists in Hn as ([x|] & Hx & Heq).
      * split; [intros _|done]. exists l. split; [done|]. split.
        -- intros Hin. assert (existsb (fun e : option string =>
                  match e with Some x => String.eqb t x | None => false end) l = true) as Ht.
           { apply existsb_exists. exists (Some t). split; [done|apply String.eqb_refl]. }
           congruence.
        -- intros Hin. assert (existsb (fun e : option string =>
                  match e with Some _ => false | None => true end) l = true) as Ht.
           { apply existsb_exists. by exists None. }
           congruence.
  - split; [done|]. by intros (l & ? & _).
Qed.

(** When [t = ANY(arr)] is not [NULL], it decides both array tests. *)
Lemma decided_selection t arr b :
  eq_any t arr = Some b ->
  holds (eq_any t arr) = b /\ holds (ne_all t arr) = negb b.
Proof.
  unfold ne_all. intros ->. by destruct b.
Qed.

(** Options with distinct ids are told apart by their id. *)
Lemma answer_id_inj opts a b :
  NoDup (map answer_id opts) -> In a opts -> In b opts ->
  answer_id a = answer_id b -> a = b.
Proof.
  induction opts as [|x opts IH]; simpl; [done|].
  intros Hnd [->|Ha] [->|Hb] Heq; [done | | | ].
  - apply NoDup_cons_1_1 in Hnd. exfalso. apply Hnd. rewrite list_elem_of_In.
    rewrite Heq. by apply in_map.
  - apply NoDup_cons_1_1 in Hnd. exfalso. apply Hnd. rewrite list_elem_of_In.
    rewrite <- Heq. by apply in_map.
  - apply NoDup_cons_1_2 in Hnd. by apply IH.
Qed.

(** The lookup of the Multiple Choice branch finds the option named. *)
Lemma find_option_by_text opts a :
  NoDup (map answer_id opts) -> In a opts ->
  List.find (fun x => String.eqb (id_text (answer_id x)) (id_text (answer_id a))) opts
  = Some a.
Proof.
  intros Hnd Hin. destruct (List.find _ opts) as [x|] eqn:Hf.
  - apply find_some in Hf as [Hx Heq]. apply String.eqb_eq, id_text_inj in Heq.
    f_equal. by apply (answer_id_inj opts).
  - eapply find_none in Hf; [|exact Hin]. by rewrite String.eqb_refl in Hf.
Qed.

(** C3 as the code has it: for a question in the format 'Multiple Choice'
    or in any format other than 'Select All That Apply', with distinct
    option ids and exactly one option [c] flagged correct, every response
    scores 0 or 1 out of a maximum of 1, and [v_is_correct] is true exactly
    when the score is the maximum.  A response made of the single text [r]
    scores 1 if [r] is the id of [c] and 0 otherwise.  In the format
    'Multiple Choice' [v_is_correct] is the comparison of the score with the
    maximum when [r] is the id of an option of the question and [NULL]
    when it is not; in the other formats it is that comparison. *)
Theorem single_best_answer_score
    (v_question_format : string) (v_use_partial_scoring : bool)
    (opts : list answer) (c : answer) :
  v_question_format = "Multiple Choice" \/ v_question_format <> "Select All That Apply" ->
  NoDup (map answer_id opts) ->
  In c opts -> is_correct c = true ->
  (forall a, In a opts -> is_correct a = true -> a = c) ->
  (forall resp : text_array,
     exists v_is_correct v_score,
       score_response v_question_format v_use_partial_scoring opts resp
         = (v_is_correct, v_score, numeric_of_int 1)
       /\ (v_score = numeric_of_int 1 \/ v_score = numeric_of_int 0)
       /\ (v_is_correct = Some true <-> v_score = numeric_of_int 1))
  /\ (forall r : string,
        exists v_is_correct v_score,
          score_response v_question_format v_use_partial_scoring opts (Some [Some r])
            = (v_is_correct, v_score, numeric_of_int 1)
          /\ v_score = (if String.eqb r (id_text (answer_id c))
                        then numeric_of_int 1 else numeric_of_int 0)
          /\ v_is_correct
             = if String.eqb v_question_format "Multiple Choice"
               then if existsb (fun a => String.eqb (id_text (answer_id a)) r) opts
                    then Some (v_score =? numeric_of_int 1)
                    else None
               else Some (v_score =? numeric_of_int 1)).
Proof.
  intros Hfmt Hnd Hc Hcc Honly. split.
  - (* every response *)
    intros resp. unfold score_response.
    destruct (String.eqb_spec v_question_format "Multiple Choice") as [HMC|HMC].
    + destruct (first_element resp) as [r|]; [|by eexists _, _; repeat split; auto].
      destruct (List.find _ opts) as [a|]; simpl;
        [destruct (is_correct a)|]; eexists _, _; repeat split; auto; done.
    + destruct Hfmt as [?|HSATA]; [done|].
      apply String.eqb_neq in HSATA. rewrite HSATA, andb_false_l.
      destruct (negb _ && negb _); eexists _, _; repeat split; auto; done.
  - (* a response of one element *)
    intros r. unfold score_response.
    destruct (String.eqb_spec v_question_format "Multiple Choice") as [HMC|HMC].
    + (* the Multiple Choice branch *)
      change (first_element (Some [Some r])) with (Some r). cbv beta iota.
      destruct (String.eqb_spec r (id_text (answer_id c))) as [->|Hr].
      * rewrite (find_option_by_text opts c Hnd Hc). simpl. rewrite Hcc.
        assert (existsb (fun a => String.eqb (id_text (answer_id a))
                                    (id_text (answer_id c))) opts = true) as ->.
        { apply existsb_exists. exists c. split; [done|apply String.eqb_refl]. }
        eexists _, _. by repeat split.
      * destruct (List.find _ opts) as [a|] eqn:Hf; simpl.
        -- pose proof Hf as Hf'. apply find_some in Hf as [Ha Heq].
           assert (existsb (fun a => String.eqb (id_text (answer_id a)) r) opts = true) as ->.
           { apply existsb_exists. by exists a. }
           apply String.eqb_eq in Heq.
           destruct (is_correct a) eqn:Hca.
           { apply Honly in Hca; [|done]. subst a. by destruct Hr. }
           eexists _, _. by repeat split.
        -- assert (existsb (fun a => String.eqb (id_text (answer_id a)) r) opts = false) as ->.
           { apply not_true_is_false. rewrite existsb_exists. intros (a & Ha & Heq).
             eapply find_none in Hf; [|exact Ha]. simpl in Hf. congruence. }
           eexists _, _. by repeat split.
    + (* every format that is not 'Select All That Apply' *)
      destruct Hfmt as [?|HSATA]; [done|].
      apply String.eqb_neq in HSATA. rewrite HSATA, andb_false_l.
      destruct (String.eqb_spec r (id_text (answer_id c))) as [->|Hr].
      * assert (existsb (fun a => is_correct a
                  && holds (ne_all (id_text (answer_id a))
                              (Some [Some (id_text (answer_id c))]))) opts = false) as ->.
        { apply not_true_is_false. rewrite existsb_exists.
          intros (a & Ha & Hb). apply andb_prop in Hb as [Hca Hne].
          apply Honly in Hca; [|done]. subst a.
          apply holds_ne_all in Hne as (l & [= <-] & Hnot & _). apply Hnot. by left. }
        assert (existsb (fun a => negb (is_correct a)
                  && holds (eq_any (id_text (answer_id a))
                              (Some [Some (id_text (answer_id c))]))) opts = false) as ->.
        { apply not_true_is_false. rewrite existsb_exists.
          intros (a & Ha & Hb). apply andb_prop in Hb as [Hca Heq].
          apply holds_eq_any in Heq as (l & [= <-] & [[= Heq]|[]]).
          apply id_text_inj in Heq.
          assert (c = a) as <- by (by apply (answer_id_inj opts c a Hnd Hc Ha)).
          by rewrite Hcc in Hca. }
        simpl. eexists _, _. by repeat split.
      * assert (existsb (fun a => is_correct a
                  && holds (ne_all (id_text (answer_id a)) (Some [Some r]))) opts = true) as ->.
        { apply existsb_exists. exists c. split; [done|]. rewrite Hcc. simpl.
          apply holds_ne_all. exists [Some r]. split; [done|]. split.
          - intros [[= Heq]|[]]. by subst.
          - by intros [?|[]]. }
        simpl. eexists _, _. by repeat split.
Qed.

(** Under an exact selection the partial-scoring sum is the credit of the
    correct options. *)
Lemma partial_sum_exact opts resp :
  (forall a, In a opts -> eq_any (id_text (answer_id a)) resp = Some (is_correct a)) ->
  partial_sum resp opts = correct_credit opts.
Proof.
  unfold partial_sum, correct_credit.
  induction opts as [|a opts IH]; intros Hsel; [reflexivity|].
  simpl. rewrite IH by (intros; apply Hsel; by right).
  unfold partial_term.
  destruct (decided_selection _ _ _ (Hsel a (or_introl eq_refl))) as [-> ->].
  destruct (is_correct a); simpl; lia.
Qed.

(** With nothing selected the sum is the negated credit of the correct
    options. *)
Lemma partial_sum_nothing opts : partial_sum (Some []) opts = - correct_credit opts.
Proof.
  unfold partial_sum, correct_credit.
  induction opts as [|a opts IH]; [reflexivity|].
  simpl. rewrite IH. unfold partial_term. simpl.
  destruct (is_correct a); simpl; lia.
Qed.

(** With a [NULL] response no [WHEN] holds and the sum is 0. *)
Lemma partial_sum_null opts : partial_sum None opts = 0.
Proof.
  unfold partial_sum. induction opts as [|a opts IH]; [reflexivity|].
  simpl. rewrite IH. reflexivity.
Qed.

Lemma correct_credit_nonneg opts :
  (forall a, In a opts -> is_correct a = true -> 0 <= partial_credit a) ->
  0 <= correct_credit opts.
Proof.
  unfold correct_credit. induction opts as [|a opts IH]; intros Hpc; simpl; [lia|].
  assert (0 <= fold_right Z.add 0 (map partial_credit (List.filter is_correct opts)))
    by (apply IH; intros; apply Hpc; [by right|done]).
  destruct (is_correct a) eqn:Hca; simpl; [|done].
  specialize (Hpc a (or_introl eq_refl) Hca). lia.
Qed.

Lemma correct_credit_full opts :
  (forall a, In a opts -> is_correct a = true -> partial_credit a = numeric_of_int 1) ->
  correct_credit opts = correct_count opts.
Proof.
  unfold correct_credit, correct_count, numeric_of_int.
  induction opts as [|a opts IH]; intros Hpc; [reflexivity|].
  simpl. specialize (IH (fun b Hb => Hpc b (or_intror Hb))).
  destruct (is_correct a) eqn:Hca; simpl; [|done].
  rewrite IH, (Hpc a (or_introl eq_refl) Hca). unfold numeric_of_int. lia.
Qed.

(** C4 as the code has it: with partial scoring and non-negative credits,
    selecting exactly the correct options scores the summed credit of the
    correct options out of their number, so the score is the maximum and
    [v_is_correct] is true exactly when those credits add up to that number,
    as they do when each correct option carries 1.00; selecting nothing
    (an empty or a [NULL] response) scores 0. *)
Theorem sata_partial_exact_and_empty (opts : list answer) (resp : text_array) :
  (forall a, In a opts -> is_correct a = true -> 0 <= partial_credit a) ->
  (forall a, In a opts -> eq_any (id_text (answer_id a)) resp = Some (is_correct a)) ->
  score_response "Select All That Apply" true opts resp
    = (Some (correct_credit opts =? correct_count opts),
       correct_credit opts, correct_count opts)
  /\ ((forall a, In a opts -> is_correct a = true -> partial_credit a = numeric_of_int 1) ->
      score_response "Select All That Apply" true opts resp
        = (Some true, correct_count opts, correct_count opts))
  /\ (exists v_is_correct,
        score_response "Select All That Apply" true opts (Some [])
        = (v_is_correct, 0, correct_count opts))
  /\ (exists v_is_correct,
        score_response "Select All That Apply" true opts None
        = (v_is_correct, 0, correct_count opts)).
Proof.
  intros Hpc Hsel.
  pose proof (correct_credit_nonneg opts Hpc) as Hnn.
  assert (score_response "Select All That Apply" true opts resp
          = (Some (correct_credit opts =? correct_count opts),
             correct_credit opts, correct_count opts)) as Hexact.
  { unfold score_response. simpl String.eqb. simpl andb. cbv iota.
    rewrite (partial_sum_exact opts resp Hsel), Z.max_l by lia. reflexivity. }
  split; [exact Hexact|]. split; [|split].
  - intros Hfull. rewrite Hexact, (correct_credit_full opts Hfull), Z.eqb_refl. reflexivity.
  - unfold score_response. simpl String.eqb. simpl andb. cbv iota.
    rewrite partial_sum_nothing, Z.max_r by lia. eexists. reflexivity.
  - unfold score_response. simpl String.eqb. simpl andb. cbv iota.
    rewrite partial_sum_null. eexists. reflexivity.
Qed.

End ScoringFacts.

(** ** Scoring and estimation on the sample data *)

Module SampleFacts.
Import Numeric Scoring Estimator Examples.

(** The response ["31"; "32"] selects exactly the correct options of
    question 3. *)
Lemma sample_exact_selection a :
  In a (answers_of sample_answers 3) ->
  eq_any (id_text (answer_id a)) (Some [Some "31"; Some "32"]) = Some (is_correct a).
Proof.
  intros Ha. vm_compute in Ha.
  destruct Ha as [<-|[<-|[<-|[]]]]; vm_compute; reflexivity.
Qed.

(** C4, as stated, fails: on question 3, whose two correct options are
    worth 0.50 each, the response that selects exactly those two options
    scores 1.00 out of 2.00 and is marked incorrect. *)
Lemma sata_partial_exact_selection_not_full_marks :
  (forall a, In a (answers_of sample_answers 3) ->
     eq_any (id_text (answer_id a)) (Some [Some "31"; Some "32"]) = Some (is_correct a))
  /\ score_response "Select All That Apply" true (answers_of sample_answers 3)
       (Some [Some "31"; Some "32"])
     = (Some false, 100, 200).
Proof.
  split; [exact sample_exact_selection | vm_compute; reflexivity].
Qed.

Lemma sata_partial_exact_and_empty_witness :
  score_response "Select All That Apply" true (answers_of sample_answers 3)
    (Some [Some "31"; Some "32"])
    = (Some (correct_credit (answers_of sample_answers 3)
             =? correct_count (answers_of sample_answers 3)),
       correct_credit (answers_of sample_answers 3),
       correct_count (answers_of sample_answers 3))
  /\ exists v_is_correct,
       score_response "Select All That Apply" true (answers_of sample_answers 3) (Some [])
       = (v_is_correct, 0, correct_count (answers_of sample_answers 3)).
Proof.
  assert (forall a, In a (answers_of sample_answers 3) ->
            is_correct a = true -> 0 <= partial_credit a) as Hpc.
  { intros a Ha _. vm_compute in Ha.
    destruct Ha as [<-|[<-|[<-|[]]]]; vm_compute; discriminate. }
  destruct (ScoringFacts.sata_partial_exact_and_empty
              (answers_of sample_answers 3) (Some [Some "31"; Some "32"]) Hpc
              sample_exact_selection)
    as (Hexact & _ & Hnone & _).
  exact (conj Hexact Hnone).
Defined.

(** C3, as stated, fails: on the Multiple Choice question 1 the response
    ["99"], which names none of its options, scores 0 out of 1 and leaves
    [v_is_correct] [NULL], which is not the value of the comparison of the
    score with the maximum. *)
Lemma multiple_choice_unknown_option_leaves_is_correct_null :
  score_response "Multiple Choice" false (answers_of sample_answers 1) (Some [Some "99"])
    = (None, numeric_of_int 0, numeric_of_int 1)
  /\ (None : option bool) <> Some (numeric_of_int 0 =? numeric_of_int 1).
Proof.
  split; [vm_compute; reflexivity | discriminate].
Qed.

Lemma single_best_answer_score_witness :
  (exists v_is_correct v_score,
     score_response "Multiple Choice" false (answers_of sample_answers 1) (Some [Some "11"])
       = (v_is_correct, v_score, numeric_of_int 1)
     /\ v_score = numeric_of_int 1 /\ v_is_correct = Some true)
  /\ (exists v_is_correct v_score,
     score_response "Multiple Choice" false (answers_of sample_answers 1) (Some [Some "99"])
       = (v_is_correct, v_score, numeric_of_int 1)
     /\ v_score = numeric_of_int 0 /\ v_is_correct = None).
Proof.
  assert (NoDup (map answer_id (answers_of sample_answers 1))) as Hnd.
  { vm_compute. apply NoDup_cons; split; [|apply NoDup_singleton].
    intros H. apply list_elem_of_singleton in H. discriminate H. }
  assert (forall a, In a (answers_of sample_answers 1) -> is_correct a = true ->
            a = {| answer_id := 11; answer_question_id := 1; is_correct := true;
                   partial_credit := 0; penalty_value := 0 |}) as Honly.
  { intros a Ha Hc. vm_compute in Ha. destruct Ha as [<-|[<-|[]]]; [done|discriminate Hc]. }
  destruct (ScoringFacts.single_best_answer_score "Multiple Choice" false
              (answers_of sample_answers 1) _
              (or_introl eq_refl) Hnd (or_introl eq_refl) eq_refl Honly)
    as [_ Hone].
  split.
  - destruct (Hone "11") as (w & sc & Heq & Hsc & Hw).
    exists w, sc. split; [exact Heq|]. split; [exact Hsc|].
    rewrite Hw, Hsc. reflexivity.
  - destruct (Hone "99") as (w & sc & Heq & Hsc & Hw).
    exists w, sc. split; [exact Heq|]. split; [exact Hsc|].
    rewrite Hw. reflexivity.
Defined.

End SampleFacts.

(** ** The stored procedures *)

Module EstimateFacts.
Import Numeric Estimator.
Local Open Scope R_scope.



(** Outside the range the engine keeps: on a session row whose stored
    ability is -999.00 the loop guard is false on entry and the estimator
    returns -999. *)
Lemma estimate_ability_mle_at_sentinel :
  exists theta : R,
    estimate_ability_mle Examples.at_sentinel 1 = Some theta
    /\ ~ (-4 <= theta <= 4).
Proof.
  exists (-999). split; [|lra].
  unfold estimate_ability_mle.
  change (cat_sessions Examples.at_sentinel !! 1%Z)
    with (Some (Examples.sample_session (-99900) 0 "in_progress")).
  simpl. unfold of_numeric_2.
  replace (IZR (-99900) / 100) with (-999) by lra.
  by rewrite EstimatorFacts.estimate_ability_mle_loop_sentinel.
Qed.

End EstimateFacts.
(** ** The triggers and what they make of the procedures *)

Module TriggerFacts.
Local Open Scope list_scope.

(** [tests] has no column [updated_at]: its trigger raises.  The sessions
    and the status rows have the column. *)
Lemma tests_trigger :
  update_updated_at_column tests_columns = Some "record new has no field updated_at".
Proof. reflexivity. Qed.

Lemma cat_sessions_trigger : update_updated_at_column cat_sessions_columns = None.
Proof. reflexivity. Qed.

Lemma user_question_status_trigger :
  update_updated_at_column user_question_status_columns = None.
Proof. reflexivity. Qed.

(** An [UPDATE] of a row of [tests] raises; without a row it does
    nothing. *)
Lemma update_tests_spec f p_id db :
  update_tests f p_id db
  = match tests db !! p_id with
    | Some _ => inl "record new has no field updated_at"
    | None => inr db
    end.
Proof. unfold update_tests. rewrite tests_trigger. reflexivity. Qed.

Lemma update_cat_sessions_spec f p_id db :
  update_cat_sessions f p_id db
  = inr match cat_sessions db !! p_id with
        | Some s => with_cat_sessions db (<[p_id := f s]> (cat_sessions db))
                      (cat_sessions_id_seq db)
        | None => db
        end.
Proof.
  unfold update_cat_sessions. rewrite cat_sessions_trigger.
  by destruct (cat_sessions db !! p_id).
Qed.

Lemma record_attempt_spec v_user_id q c db :
  exists uqs, record_attempt v_user_id q c db = inr (with_user_question_status db uqs).
Proof.
  unfold record_attempt. rewrite user_question_status_trigger.
  destruct (user_question_status db !! (v_user_id, q)); eauto.
Qed.

(** No unique index of [user_statistics] has the key expressions of the
    conflict target, so both upserts of the trigger raise. *)
Lemma no_arbiter_index :
  infer_arbiter_index user_statistics_unique_indexes statistics_conflict_target = false.
Proof. reflexivity. Qed.

Lemma upsert_statistics_raises u tp st c t db :
  upsert_statistics u tp st c t db
  = inl "there is no unique or exclusion constraint matching the ON CONFLICT specification".
Proof. unfold upsert_statistics. rewrite no_arbiter_index. reflexivity. Qed.

Lemma update_user_statistics_raises NEW db :
  exists m, update_user_statistics NEW db = inl m.
Proof.
  unfold update_user_statistics.
  destruct (questions db !! result_question_id NEW); [|eauto].
  rewrite upsert_statistics_raises. eauto.
Qed.

Lemma update_user_statistics_existing NEW db q :
  questions db !! result_question_id NEW = Some q ->
  update_user_statistics NEW db
  = inl "there is no unique or exclusion constraint matching the ON CONFLICT specification".
Proof.
  intros Hq. unfold update_user_statistics. rewrite Hq.
  by rewrite upsert_statistics_raises.
Qed.

(** A rollback that drew nothing gives the database back. *)
Lemma keep_sequences_same db db' :
  tests_id_seq db' = tests_id_seq db ->
  test_results_id_seq db' = test_results_id_seq db ->
  cat_sessions_id_seq db' = cat_sessions_id_seq db ->
  cat_question_selections_id_seq db' = cat_question_selections_id_seq db ->
  keep_sequences db db' = db.
Proof.
  unfold keep_sequences. intros -> -> -> ->. by destruct db.
Qed.

Lemma same_tables_refl db : same_tables db db.
Proof. by repeat split. Qed.

Lemma same_tables_keep_sequences db db' : same_tables db (keep_sequences db db').
Proof. by repeat split. Qed.

(** An outcome that is not a return leaves the tables as they were. *)
Lemma run_txn_raised {A} (call : database -> outcome A) db m :
  raised (call db) = Some m ->
  same_tables db (fst (run_txn call db)) /\ snd (run_txn call db) = None.
Proof.
  unfold run_txn. destruct (call db); simpl; [done| |]; intros _; split; done.
Qed.

(** [submit_test_answer] never returns: it raises before its insert into
    [test_results], or the insert draws an id and raises, at the latest in
    the trigger [update_user_statistics]. *)
Lemma submit_test_answer_outcome u tid q resp t fl db :
  (exists m, submit_test_answer u tid q resp t fl db = Raise m)
  \/ (exists m db',
        submit_test_answer u tid q resp t fl db = RaiseAfter m db'
        /\ keep_sequences db db'
           = with_test_results db (test_results db) (test_results_id_seq db + 1)).
Proof.
  unfold submit_test_answer.
  destruct u as [v_user_id|]; [|eauto].
  destruct (negb _); [eauto|].
  destruct (questions db !! q) as [qu|]; [|eauto].
  destruct (negb _); [eauto|].
  destruct (Scoring.score_response _ _ _ _) as [[w sc] mx].
  destruct (record_attempt_spec v_user_id q w db) as [uqs ->].
  destruct (existsb _ _); [right; eauto|].
  destruct (existsb _ _); [right; eauto|].
  match goal with
  | |- context [update_user_statistics ?N ?d] =>
      destruct (update_user_statistics_raises N d) as [m ->]
  end.
  right. eauto.
Qed.

Lemma submit_test_answer_never_returns u tid q resp t fl db r db' :
  submit_test_answer u tid q resp t fl db <> Return r db'.
Proof.
  destruct (submit_test_answer_outcome u tid q resp t fl db)
    as [[m ->]|(m & d & -> & _)]; discriminate.
Qed.

(** So does [submit_cat_answer]. *)
Lemma submit_cat_answer_outcome u sid q resp t db :
  (exists m, submit_cat_answer u sid q resp t db = Raise m)
  \/ (exists m db',
        submit_cat_answer u sid q resp t db = RaiseAfter m db'
        /\ keep_sequences db db'
           = with_test_results db (test_results db) (test_results_id_seq db + 1)).
Proof.
  unfold submit_cat_answer.
  destruct (cat_sessions db !! sid) as [s|]; [|eauto].
  destruct (holds _); [eauto|].
  destruct (submit_test_answer_outcome u (session_test_id s) q resp t false db)
    as [[m ->]|(m & d & -> & Hd)]; eauto.
Qed.

Lemma submit_cat_answer_never_returns u sid q resp t db r db' :
  submit_cat_answer u sid q resp t db <> Return r db'.
Proof.
  destruct (submit_cat_answer_outcome u sid q resp t db)
    as [[m ->]|(m & d & -> & _)]; discriminate.
Qed.

(** [create_cat_test] returns only its failure message, having drawn a
    test id and nothing else; it never returns a created test. *)
Lemma create_cat_test_outcome RANDOM u ti tp mn mx ps db :
  (exists m, create_cat_test RANDOM u ti tp mn mx ps db = Raise m)
  \/ (exists m db',
        create_cat_test RANDOM u ti tp mn mx ps db = RaiseAfter m db'
        /\ keep_sequences db db' = with_tests db (tests db) (tests_id_seq db + 1))
  \/ (tests db !! tests_id_seq db = None
      /\ drawn_pool RANDOM db u tp = []
      /\ create_cat_test RANDOM u ti tp mn mx ps db
         = Return (CreateFailed
                     "Could not create test: No questions available matching criteria")
             (with_tests db (tests db) (tests_id_seq db + 1))).
Proof.
  unfold create_cat_test.
  destruct (varchar 255 ti) as [stored_title|]; [|eauto].
  destruct (varchar_array 255 tp) as [stored_topics|]; [|eauto].
  destruct (tests db !! tests_id_seq db) eqn:Hfresh; [right; left; eauto|].
  match goal with
  | |- context [drawn_pool RANDOM ?d u tp] =>
      change (drawn_pool RANDOM d u tp) with (drawn_pool RANDOM db u tp)
  end.
  destruct (Z.eqb_spec (Z.of_nat (length (drawn_pool RANDOM db u tp))) 0) as [Hz|Hz].
  - right; right. split; [done|]. split; [by destruct (drawn_pool RANDOM db u tp)|].
    f_equal. unfold with_tests. simpl. by rewrite delete_insert_id.
  - rewrite update_tests_spec. simpl. rewrite lookup_insert_eq.
    right; left. eauto.
Qed.

Lemma create_cat_test_never_creates RANDOM u ti tp mn mx ps db tid sid n db' :
  create_cat_test RANDOM u ti tp mn mx ps db <> Return (Created tid sid n) db'.
Proof.
  destruct (create_cat_test_outcome RANDOM u ti tp mn mx ps db)
    as [[m ->]|[(m & d & -> & _)|(_ & _ & ->)]]; discriminate.
Qed.

End TriggerFacts.

Module ProcedureFacts.
Import Numeric TriggerFacts.
Local Open Scope list_scope.

(** *** What each procedure leaves alone *)

(** A result already recorded for the test and question makes
    [submit_test_answer], called by the owner of the test for a question of
    the bank whose score fits, raise the violation of the unique
    constraint of [test_results], having drawn an id. *)
Lemma submit_test_answer_duplicate u tid q resp t fl db row te qu :
  tests db !! tid = Some te -> test_user_id te = Some u ->
  questions db !! q = Some qu ->
  Scoring.fits_numeric_5_2 (question_format qu) (use_partial_scoring qu)
    (Scoring.answers_of (answers db) q) resp = true ->
  (forall r, r ∈ test_results db -> result_id r <> test_results_id_seq db) ->
  row ∈ test_results db -> result_test_id row = tid -> result_question_id row = q ->
  exists db',
    submit_test_answer (Some u) tid q resp t fl db
    = RaiseAfter
        "duplicate key value violates unique constraint test_results_test_id_question_id_key"
        db'
    /\ keep_sequences db db'
       = with_test_results db (test_results db) (test_results_id_seq db + 1).
Proof.
  intros Hte Hu Hqu Hfit Hfresh Hin Ht Hq. unfold submit_test_answer.
  rewrite Hte, Hu. simpl. rewrite Z.eqb_refl. simpl. rewrite Hqu, Hfit. simpl.
  destruct (Scoring.score_response _ _ _ _) as [[w sc] mx].
  destruct (record_attempt_spec u q w db) as [uqs ->].
  assert (existsb (fun r => result_id r =? test_results_id_seq (with_user_question_status db uqs))
            (test_results (with_user_question_status db uqs)) = false) as ->.
  { apply not_true_is_false. rewrite existsb_exists. intros (r & Hr & Heq).
    apply list_elem_of_In in Hr. apply Z.eqb_eq in Heq. by apply (Hfresh r). }
  assert (existsb (fun r => (result_test_id r =? tid) && (result_question_id r =? q))
            (test_results (with_user_question_status db uqs)) = true) as ->; [|eauto].
  apply existsb_exists. exists row. split; [by apply list_elem_of_In|].
  rewrite Ht, Hq, !Z.eqb_refl. done.
Qed.

(** [get_next_cat_question] changes no session but the one it is called
    on, and that one only forward: its status is kept, or it was
    ['in_progress'] and becomes ['passed'] or ['failed']. *)
Lemma get_next_cat_question_status RANDOM u sid' db r db' sid s :
  get_next_cat_question RANDOM u sid' db = Return r db' ->
  cat_sessions db !! sid = Some s ->
  exists s', cat_sessions db' !! sid = Some s'
    /\ (status s' = status s
        \/ (status s = "in_progress" /\ (status s' = "passed" \/ status s' = "failed"))).
Proof.
  unfold get_next_cat_question. intros H Hs.
  destruct (cat_sessions db !! sid') as [s0|] eqn:Hs0; [|done].
  destruct (holds _); [done|].
  destruct (String.eqb_spec (status s0) "in_progress") as [Hst|Hst]; simpl in H.
  - destruct (if max_questions s0 <=? questions_answered s0 then _ else _).
    + rewrite update_cat_sessions_spec, Hs0, update_tests_spec in H. simpl in H.
      destruct (tests db !! session_test_id s0); [done|].
      injection H as <- <-. simpl.
      destruct (Z.eq_dec sid' sid) as [->|Hne].
      * rewrite lookup_insert_eq. eexists. split; [done|]. right.
        rewrite Hs in Hs0. injection Hs0 as ->. split; [done|]. simpl.
        destruct (_ <=? _); auto.
      * rewrite lookup_insert_ne by done. eauto.
    + destruct (scan_shortlist _ _) as [m q].
      destruct (cast_numeric_5_2 m); [|done].
      destruct (existsb _ _); [done|].
      rewrite update_cat_sessions_spec in H. simpl in H. rewrite Hs0 in H.
      injection H as <- <-. simpl.
      destruct (Z.eq_dec sid' sid) as [->|Hne].
      * rewrite lookup_insert_eq. eexists. split; [done|]. left.
        rewrite Hs in Hs0. by injection Hs0 as ->.
      * rewrite lookup_insert_ne by done. eauto.
  - injection H as <- <-. eauto.
Qed.

(** [create_cat_test] keeps every session there is. *)
Lemma create_cat_test_frame RANDOM u ti tp mn mx ps db r db' sid s :
  create_cat_test RANDOM u ti tp mn mx ps db = Return r db' ->
  cat_sessions db !! sid = Some s ->
  cat_sessions db' !! sid = Some s.
Proof.
  intros H Hs.
  destruct (create_cat_test_outcome RANDOM u ti tp mn mx ps db)
    as [[m Hm]|[(m & d & Hm & _)|(_ & _ & Hm)]]; rewrite Hm in H; try done.
  by injection H as <- <-.
Qed.

(** C7: called by its owner on a session whose status is not
    ['in_progress'], [get_next_cat_question] returns that status with the
    ability and the number of questions answered, raises nothing and
    leaves the database as it is; and across every call of the interface a
    session's status is kept or goes from ['in_progress'] to ['passed'] or
    ['failed'], never back. *)
Theorem completed_session_is_reported_and_final (RANDOM : forall A : Type, list A -> list A) :
  (forall (auth_uid : uuid) (db : database) (sid : Z) (s : cat_session),
      cat_sessions db !! sid = Some s ->
      session_user_id s = Some auth_uid ->
      status s <> "in_progress" ->
      get_next_cat_question RANDOM (Some auth_uid) sid db
      = Return (Completed (status s)
                  ("Test already completed with status: " ++ status s)%string
                  (current_ability s) (questions_answered s)) db
      /\ database_after RANDOM (CallGetNext (Some auth_uid) sid) db = db)
  /\ (forall (c : api_call) (db : database) (sid : Z) (s : cat_session),
      cat_sessions db !! sid = Some s ->
      exists s', cat_sessions (database_after RANDOM c db) !! sid = Some s'
        /\ (status s' = status s
            \/ (status s = "in_progress"
                /\ (status s' = "passed" \/ status s' = "failed")))).
Proof.
  split.
  - intros u db sid s Hs Hu Hst.
    assert (get_next_cat_question RANDOM (Some u) sid db
            = Return (Completed (status s)
                        ("Test already completed with status: " ++ status s)%string
                        (current_ability s) (questions_answered s)) db) as Hget.
    { unfold get_next_cat_question. rewrite Hs, Hu. simpl. rewrite Z.eqb_refl. simpl.
      apply String.eqb_neq in Hst. by rewrite Hst. }
    split; [exact Hget|]. simpl. unfold run_txn. by rewrite Hget.
  - intros c db sid s Hs. destruct c as [u sid'|u sid' q resp t|u ti tp mn mx ps];
      simpl; unfold run_txn.
    + destruct (get_next_cat_question _ _ _ _) as [r db'|m|m db'] eqn:Hcall; simpl;
        [|eauto|eauto].
      eapply get_next_cat_question_status; eauto.
    + destruct (submit_cat_answer _ _ _ _ _ _) as [r db'|m|m db'] eqn:Hcall; simpl;
        [|eauto|eauto].
      by apply submit_cat_answer_never_returns in Hcall.
    + destruct (create_cat_test _ _ _ _ _ _ _ _) as [r db'|m|m db'] eqn:Hcall; simpl;
        [|eauto|eauto].
      eapply create_cat_test_frame in Hcall; eauto.
Qed.

Lemma completed_session_is_reported_and_final_witness :
  get_next_cat_question Examples.stored_order (Some 7) 1 Examples.finished
  = Return (Completed "passed" "Test already completed with status: passed" 150 2)
      Examples.finished.
Proof.
  refine (proj1 (proj1 (completed_session_is_reported_and_final Examples.stored_order)
                   7 Examples.finished 1 (Examples.sample_session 150 2 "passed")
                   eq_refl eq_refl _)).
  discriminate.
Defined.

End ProcedureFacts.

(** *** Selecting the next question *)

Module SelectorFacts.
Import Numeric.
Local Open Scope list_scope.

(** The selection loop returns no candidate when none has positive
    information, and otherwise the first candidate of maximal
    information. *)
Lemma scan_shortlist_spec (v_ability : R) (l : list (Z * difficulty_parameters)) :
  forall m found, scan_shortlist v_ability l = (m, found) ->
  (found = None /\ m = 0%R
   /\ forall x, x ∈ l -> (candidate_information v_ability x <= 0)%R)
  \/ (exists l1 x l2,
        l = l1 ++ x :: l2 /\ found = Some (fst x)
        /\ m = candidate_information v_ability x /\ (0 < m)%R
        /\ (forall y, y ∈ l1 ->
              (candidate_information v_ability y < candidate_information v_ability x)%R)
        /\ (forall y, y ∈ l2 ->
              (candidate_information v_ability y <= candidate_information v_ability x)%R)).
Proof.
  unfold scan_shortlist. induction l as [|x l IH] using rev_ind; intros m found Hscan.
  - injection Hscan as <- <-. left. repeat split. intros x Hx. by apply elem_of_nil in Hx.
  - rewrite fold_left_app in Hscan. simpl in Hscan.
    destruct (fold_left _ l _) as [m0 found0].
    specialize (IH m0 found0 eq_refl).
    unfold keep_maximum in Hscan. simpl in Hscan.
    destruct (Rgt_dec (candidate_information v_ability x) m0) as [Hgt|Hle];
      injection Hscan as <- <-.
    + right. exists l, x, []. repeat split; try done.
      * destruct IH as [(_ & -> & _) | (l1 & y & l2 & _ & _ & -> & Hpos & _)]; lra.
      * intros y Hy.
        destruct IH as [(_ & -> & Hall) | (l1 & z & l2 & -> & _ & -> & Hpos & Hl1 & Hl2)].
        { specialize (Hall y Hy). lra. }
        apply elem_of_app in Hy as [Hy|Hy].
        { specialize (Hl1 y Hy). lra. }
        apply elem_of_cons in Hy as [->|Hy]; [lra|].
        specialize (Hl2 y Hy). lra.
      * intros y Hy. by apply elem_of_nil in Hy.
    + destruct IH as [(-> & -> & Hall) | (l1 & z & l2 & -> & -> & -> & Hpos & Hl1 & Hl2)].
      * left. repeat split. intros y Hy.
        apply elem_of_app in Hy as [Hy|Hy]; [by apply Hall|].
        apply list_elem_of_singleton in Hy as ->. lra.
      * right. exists l1, z, (l2 ++ [x]). rewrite <- app_assoc. repeat split; try done.
        intros y Hy. apply elem_of_app in Hy as [Hy|Hy]; [by apply Hl2|].
        apply list_elem_of_singleton in Hy as ->. lra.
Qed.

Lemma not_yet_selected_spec db sid q :
  not_yet_selected db sid q = true <->
  forall r, r ∈ cat_question_selections db ->
    cat_session_id r = sid -> selection_question_id r <> Some q.
Proof.
  unfold not_yet_selected. rewrite negb_true_iff. split.
  - intros Hex r Hr Hsid Hq.
    assert (existsb (fun r => (cat_session_id r =? sid)
              && bool_decide (selection_question_id r = Some q))
              (cat_question_selections db) = true) as Habs; [|congruence].
    apply existsb_exists. exists r. split; [by apply list_elem_of_In|].
    rewrite Hsid, Z.eqb_refl. simpl. by apply bool_decide_eq_true.
  - intros Hall. apply not_true_is_false. rewrite existsb_exists.
    intros (r & Hr & Hb). apply andb_prop in Hb as [Hsid Hq].
    apply Z.eqb_eq in Hsid. apply bool_decide_eq_true in Hq.
    apply list_elem_of_In in Hr. by apply (Hall r).
Qed.

(** The rows of the two queries are pool questions of the test that the
    session has not selected; the first query also carries the item
    parameters. *)
Lemma information_candidates_spec db tid sid q p :
  (q, p) ∈ information_candidates db tid sid <->
  unselected_pool_question db tid sid q
  /\ question_difficulty_parameters db !! q = Some p.
Proof.
  unfold information_candidates, unselected_pool_question.
  rewrite list_elem_of_omap. split.
  - intros (tq & Htq & Hf).
    destruct (Z.eqb_spec (tq_test_id tq) tid) as [Ht|Ht]; simpl in Hf; [|done].
    destruct (not_yet_selected db sid (tq_question_id tq)) eqn:Hns; [|done].
    destruct (questions db !! tq_question_id tq) as [qu|] eqn:Hq; [|done].
    destruct (question_difficulty_parameters db !! tq_question_id tq) as [p'|] eqn:Hp;
      [|done].
    simpl in Hf. injection Hf as <- <-.
    repeat split; eauto. by apply not_yet_selected_spec.
  - intros (((tq & Htq & Ht & Hq) & [qu Hqu] & Hns) & Hp).
    exists tq. split; [done|]. subst.
    rewrite Z.eqb_refl. apply not_yet_selected_spec in Hns. rewrite Hns. simpl.
    rewrite Hqu, Hp. done.
Qed.

Lemma fallback_candidates_spec db tid sid q :
  q ∈ fallback_candidates db tid sid <-> unselected_pool_question db tid sid q.
Proof.
  unfold fallback_candidates, unselected_pool_question.
  rewrite list_elem_of_omap. split.
  - intros (tq & Htq & Hf).
    destruct (Z.eqb_spec (tq_test_id tq) tid) as [Ht|Ht]; simpl in Hf; [|done].
    destruct (not_yet_selected db sid (tq_question_id tq)) eqn:Hns; [|done].
    destruct (questions db !! tq_question_id tq) as [qu|] eqn:Hq; [|done].
    simpl in Hf. injection Hf as <-.
    repeat split; eauto. by apply not_yet_selected_spec.
  - intros ((tq & Htq & Ht & Hq) & [qu Hqu] & Hns).
    exists tq. split; [done|]. subst.
    rewrite Z.eqb_refl. apply not_yet_selected_spec in Hns. rewrite Hns. simpl.
    rewrite Hqu. done.
Qed.

(** The test of the stopping rule in the procedure is the rule. *)
Lemma stopping_rule_decide (s : cat_session) :
  (if max_questions s <=? questions_answered s then true
   else if min_questions s <=? questions_answered s
   then 100 <? Z.abs (current_ability s - passing_standard s)
   else false) = true <-> stopping_rule s.
Proof.
  unfold stopping_rule.
  destruct (Z.leb_spec (max_questions s) (questions_answered s));
    destruct (Z.leb_spec (min_questions s) (questions_answered s));
    destruct (Z.ltb_spec 100 (Z.abs (current_ability s - passing_standard s)));
    split; intros; try done; try lia; auto.
Qed.

End SelectorFacts.
Module NextQuestionFacts.
Import Numeric TriggerFacts SelectorFacts.
Local Open Scope list_scope.

Section NextQuestion.

Variable RANDOM : forall A : Type, list A -> list A.
Hypothesis RANDOM_permutation : forall (A : Type) (l : list A), Permutation (RANDOM A l) l.

(** When the rule stops the session, the procedure stores the decision on
    the session and updates the test: with a row of [tests] to update the
    trigger raises, without one the call returns the decision. *)
Lemma get_next_cat_question_stops auth_uid db sid s :
  cat_sessions db !! sid = Some s ->
  holds (sql_ne auth_uid (session_user_id s)) = false ->
  status s = "in_progress" ->
  stopping_rule s ->
  exists decision,
    pass_fail s decision
    /\ get_next_cat_question RANDOM auth_uid sid db
       = let stored :=
           with_cat_sessions db (<[sid := set_session_status s decision]> (cat_sessions db))
             (cat_sessions_id_seq db) in
         match tests db !! session_test_id s with
         | Some _ => RaiseAfter "record new has no field updated_at" stored
         | None =>
             Return (Completed decision ("Test completed with status: " ++ decision)%string
                       (current_ability s) (questions_answered s)) stored
         end.
Proof.
  intros Hs Hu Hst Hstop. apply stopping_rule_decide in Hstop.
  exists (if passing_standard s <=? current_ability s then "passed" else "failed").
  split.
  - unfold pass_fail. destruct (Z.leb_spec (passing_standard s) (current_ability s)); auto.
  - unfold get_next_cat_question. rewrite Hs, Hu, Hst. simpl.
    rewrite Hstop, update_cat_sessions_spec, Hs, update_tests_spec. simpl.
    by destruct (tests db !! session_test_id s).
Qed.

(** When it does not, the procedure records the selection of the candidate
    the loop found, or else of the head of the fallback query, and counts
    it; it raises instead when the information does not fit its column or
    the id drawn is taken. *)
Lemma get_next_cat_question_continues auth_uid db sid s m found :
  cat_sessions db !! sid = Some s ->
  holds (sql_ne auth_uid (session_user_id s)) = false ->
  status s = "in_progress" ->
  ~ stopping_rule s ->
  scan_shortlist (of_numeric_2 (current_ability s))
    (firstn 50 (RANDOM _ (information_candidates db (session_test_id s) sid))) = (m, found) ->
  get_next_cat_question RANDOM auth_uid sid db
  = let chosen :=
      match found with
      | Some q => Some q
      | None => head (RANDOM _ (fallback_candidates db (session_test_id s) sid))
      end in
    match cast_numeric_5_2 m with
    | None => Raise "numeric field overflow"
    | Some stored_information =>
        if existsb (fun r => selection_id r =? cat_question_selections_id_seq db)
             (cat_question_selections db)
        then RaiseAfter
               "duplicate key value violates unique constraint cat_question_selections_pkey"
               (with_cat_question_selections db (cat_question_selections db)
                  (cat_question_selections_id_seq db + 1))
        else
          Return (NextQuestion
                    (q ← chosen;
                     if existsb (fun a => answer_question_id a =? q) (answers db)
                     then Some q else None)
                    (questions_answered s + 1))
            (with_cat_sessions
               (with_cat_question_selections db
                  (cat_question_selections db
                   ++ [ {| selection_id := cat_question_selections_id_seq db;
                           cat_session_id := sid;
                           selection_question_id := chosen;
                           position := questions_answered s + 1;
                           ability_estimate_before := current_ability s;
                           ability_estimate_after := None;
                           information_value := stored_information;
                           was_correct := None |} ])
                  (cat_question_selections_id_seq db + 1))
               (<[sid := set_questions_answered s (questions_answered s + 1)]>
                  (cat_sessions db))
               (cat_sessions_id_seq db))
    end.
Proof.
  intros Hs Hu Hst Hstop Hscan.
  assert ((if max_questions s <=? questions_answered s then true
           else if min_questions s <=? questions_answered s
           then 100 <? Z.abs (current_ability s - passing_standard s)
           else false) = false) as Hgo.
  { apply not_true_is_false. by rewrite stopping_rule_decide. }
  unfold get_next_cat_question. rewrite Hs, Hu, Hst. simpl.
  rewrite Hgo, Hscan. destruct (cast_numeric_5_2 m); [|done].
  destruct (existsb _ _); [done|].
  rewrite update_cat_sessions_spec. simpl. rewrite Hs. reflexivity.
Qed.

Lemma shortlist_members db tid sid q p :
  (q, p) ∈ firstn 50 (RANDOM _ (information_candidates db tid sid)) ->
  unselected_pool_question db tid sid q
  /\ question_difficulty_parameters db !! q = Some p.
Proof.
  intros Hin. apply subseteq_take in Hin.
  rewrite (RANDOM_permutation _ _) in Hin. by apply information_candidates_spec.
Qed.

Lemma fallback_head db tid sid :
  (forall q, head (RANDOM _ (fallback_candidates db tid sid)) = Some q ->
     unselected_pool_question db tid sid q)
  /\ ((exists q, unselected_pool_question db tid sid q) ->
      is_Some (head (RANDOM _ (fallback_candidates db tid sid)))).
Proof.
  split.
  - intros q Hq. apply head_Some_elem_of in Hq.
    rewrite (RANDOM_permutation _ _) in Hq. by apply fallback_candidates_spec.
  - intros [q Hq]. apply fallback_candidates_spec in Hq.
    rewrite <- (RANDOM_permutation _ _) in Hq.
    apply head_is_Some. intros Hnil. rewrite Hnil in Hq. by apply elem_of_nil in Hq.
Qed.

(** The session keeps its status across a call in which the rule does not
    stop it. *)
Lemma get_next_cat_question_goes_on auth_uid db sid s :
  cat_sessions db !! sid = Some s ->
  holds (sql_ne auth_uid (session_user_id s)) = false ->
  status s = "in_progress" ->
  ~ stopping_rule s ->
  status <$> cat_sessions (database_after RANDOM (CallGetNext auth_uid sid) db) !! sid
  = Some "in_progress".
Proof.
  intros Hs Hu Hst Hrule. simpl. unfold run_txn.
  destruct (scan_shortlist (of_numeric_2 (current_ability s))
              (firstn 50 (RANDOM _ (information_candidates db (session_test_id s) sid))))
    as [m found] eqn:Hscan.
  rewrite (get_next_cat_question_continues auth_uid db sid s m found Hs Hu Hst Hrule Hscan).
  cbv zeta. destruct (cast_numeric_5_2 m); [|by simpl; rewrite Hs; simpl; rewrite Hst].
  destruct (existsb _ _); simpl.
  - by rewrite Hs; simpl; rewrite Hst.
  - rewrite lookup_insert_eq. simpl. by rewrite Hst.
Qed.

(** C5, on the code: for an in-progress session whose test has its row in
    [tests], called by a caller the authorization check lets through,
    [get_next_cat_question] does not end the session.  When the number of
    questions answered has reached the maximum, or has reached the minimum
    with the ability more than 1.00 away from the passing standard, the
    procedure computes the decision (['passed'] if the ability is at least
    the passing standard, ['failed'] otherwise) and stores it on the
    session, but the update of [tests] that follows raises in the trigger
    of that table; the call is rolled back and leaves the database as it
    was, with the session in progress.  In every other case the session
    stays in progress as well. *)
Theorem stopping_rule_termination_raises
    (auth_uid : option uuid) (db : database) (sid : Z) (s : cat_session) (t : test) :
  cat_sessions db !! sid = Some s ->
  holds (sql_ne auth_uid (session_user_id s)) = false ->
  status s = "in_progress" ->
  tests db !! session_test_id s = Some t ->
  (stopping_rule s ->
     exists decision,
       pass_fail s decision
       /\ get_next_cat_question RANDOM auth_uid sid db
          = RaiseAfter "record new has no field updated_at"
              (with_cat_sessions db
                 (<[sid := set_session_status s decision]> (cat_sessions db))
                 (cat_sessions_id_seq db))
       /\ database_after RANDOM (CallGetNext auth_uid sid) db = db)
  /\ (~ stopping_rule s ->
      status <$> cat_sessions (database_after RANDOM (CallGetNext auth_uid sid) db) !! sid
      = Some "in_progress").
Proof.
  intros Hs Hu Hst Ht. split; intros Hrule.
  - destruct (get_next_cat_question_stops auth_uid db sid s Hs Hu Hst Hrule)
      as (decision & Hpf & Hcall).
    rewrite Ht in Hcall. cbv zeta in Hcall.
    exists decision. split; [exact Hpf|]. split; [exact Hcall|].
    simpl. unfold run_txn. rewrite Hcall. simpl. by apply keep_sequences_same.
  - by apply (get_next_cat_question_goes_on auth_uid db sid s).
Qed.

(** Any unselected pool question comes first in some ordering: the
    ordering that rotates the rows up to it. *)
Lemma any_candidate_can_come_first (l : list Z) (q : Z) :
  q ∈ l ->
  exists ORDER : forall A : Type, list A -> list A,
    (forall (A : Type) (rows : list A), Permutation (ORDER A rows) rows)
    /\ head (ORDER Z l) = Some q.
Proof.
  intros Hq. apply list_elem_of_lookup in Hq as [i Hi].
  exists (fun A rows => drop i rows ++ take i rows). split.
  - intros A rows. rewrite Permutation_app_comm. by rewrite take_drop.
  - rewrite head_lookup, lookup_app_l
      by (rewrite length_drop; apply lookup_lt_Some in Hi; lia).
    rewrite lookup_drop. by rewrite Nat.add_0_r.
Qed.

(** C6 as the code has it: when the session goes on, the loop runs over the
    first 50 rows, in a random order, of the pool questions of the test that
    the session has not selected and that have item parameters, and
    computes [calculate_information] at the current ability for each.  If
    some candidate has positive information, the choice is the first
    candidate of maximal information: every candidate before it has strictly
    less, none after it has more.  If none has (the shortlist is empty or no
    information is above zero), the choice is the first row of a random
    order of the unselected pool questions, any of which comes first in
    some order, or [NULL] when there is none.  When the maximal information
    (0 in the second case), rounded to two decimals, has at most three
    integer digits and the id drawn is not taken, the call returns and has
    recorded the choice with position [questions_answered + 1], the current
    ability as the estimate before, the rounded information, and neither an
    estimate after nor a correctness; the session's count has gone up by
    one.  When the rounded information has more digits, the call raises
    [numeric field overflow] and the tables are left as they were. *)
Theorem item_selector_records_first_maximum
    (auth_uid : option uuid) (db : database) (sid : Z) (s : cat_session) :
  cat_sessions db !! sid = Some s ->
  holds (sql_ne auth_uid (session_user_id s)) = false ->
  status s = "in_progress" ->
  ~ stopping_rule s ->
  (forall r, r ∈ cat_question_selections db ->
     selection_id r <> cat_question_selections_id_seq db) ->
  let theta := of_numeric_2 (current_ability s) in
  let candidates := information_candidates db (session_test_id s) sid in
  let shortlist := firstn 50 (RANDOM _ candidates) in
  let unselected := fallback_candidates db (session_test_id s) sid in
  (forall q p, (q, p) ∈ candidates <->
     unselected_pool_question db (session_test_id s) sid q
     /\ question_difficulty_parameters db !! q = Some p)
  /\ Permutation (RANDOM _ candidates) candidates
  /\ length shortlist = Nat.min 50 (length candidates)
  /\ (forall x, candidate_information theta x
                = IRT.calculate_information theta
                    (of_numeric_2 (discrimination (snd x)))
                    (of_numeric_2 (difficulty (snd x)))
                    (of_numeric_2 (guessing (snd x))))
  /\ (forall q, q ∈ unselected <-> unselected_pool_question db (session_test_id s) sid q)
  /\ (forall q, q ∈ unselected ->
        exists ORDER : forall A : Type, list A -> list A,
          (forall (A : Type) (rows : list A), Permutation (ORDER A rows) rows)
          /\ head (ORDER _ unselected) = Some q)
  /\ exists chosen v_max_info,
       ((exists l1 x l2,
           shortlist = l1 ++ x :: l2
           /\ chosen = Some (fst x)
           /\ v_max_info = candidate_information theta x
           /\ (0 < candidate_information theta x)%R
           /\ (forall y, y ∈ l1 ->
                 (candidate_information theta y < candidate_information theta x)%R)
           /\ (forall y, y ∈ l2 ->
                 (candidate_information theta y <= candidate_information theta x)%R))
        \/ ((forall x, x ∈ shortlist -> (candidate_information theta x <= 0)%R)
            /\ (forall x, x ∈ shortlist -> 0 <= guessing (snd x) < 100 ->
                  candidate_information theta x = 0%R)
            /\ v_max_info = 0%R
            /\ chosen = head (RANDOM _ unselected)))
       /\ ((Z.abs (to_numeric_5_2 v_max_info) < 100000 ->
            exists returned db',
              get_next_cat_question RANDOM auth_uid sid db
              = Return (NextQuestion returned (questions_answered s + 1)) db'
              /\ cat_question_selections db'
                 = cat_question_selections db
                   ++ [ {| selection_id := cat_question_selections_id_seq db;
                           cat_session_id := sid;
                           selection_question_id := chosen;
                           position := questions_answered s + 1;
                           ability_estimate_before := current_ability s;
                           ability_estimate_after := None;
                           information_value := to_numeric_5_2 v_max_info;
                           was_correct := None |} ]
              /\ cat_sessions db' !! sid
                 = Some (set_questions_answered s (questions_answered s + 1)))
           /\ (100000 <= Z.abs (to_numeric_5_2 v_max_info) ->
               raised (get_next_cat_question RANDOM auth_uid sid db)
               = Some "numeric field overflow"
               /\ same_tables db
                    (database_after RANDOM (CallGetNext auth_uid sid) db))).
Proof.
  intros Hs Hu Hst Hrule Hfresh theta candidates shortlist unselected.
  split; [intros q p; apply information_candidates_spec|].
  split; [apply RANDOM_permutation|].
  split.
  { unfold shortlist. rewrite length_take.
    by rewrite (Permutation_length (RANDOM_permutation _ candidates)). }
  split; [done|].
  split; [intros q; apply fallback_candidates_spec|].
  split; [intros q; apply any_candidate_can_come_first|].
  destruct (scan_shortlist theta shortlist) as [m found] eqn:Hscan.
  pose proof (get_next_cat_question_continues auth_uid db sid s m found Hs Hu Hst Hrule Hscan)
    as Hcall. cbv zeta in Hcall.
  assert (existsb (fun r => selection_id r =? cat_question_selections_id_seq db)
            (cat_question_selections db) = false) as Hnew.
  { apply not_true_is_false. rewrite existsb_exists. intros (r & Hr & Heq).
    apply list_elem_of_In in Hr. apply Z.eqb_eq in Heq. by apply (Hfresh r). }
  rewrite Hnew in Hcall.
  exists (match found with
          | Some q => Some q
          | None => head (RANDOM _ unselected)
          end), m.
  split.
  - apply scan_shortlist_spec in Hscan
      as [(-> & -> & Hall) | (l1 & x & l2 & Hsplit & -> & Hm & Hpos & Hl1 & Hl2)].
    + right. split; [exact Hall|]. split; [|done].
      intros x Hx Hg. apply Rle_antisym; [by apply Hall|].
      apply IRTFacts.calculate_information_nonneg. unfold of_numeric_2.
      destruct Hg as [Hg0 Hg1]. apply IZR_le in Hg0. apply IZR_lt in Hg1. lra.
    + left. exists l1, x, l2.
      split; [exact Hsplit|]. split; [done|]. split; [exact Hm|].
      split; [by rewrite <- Hm|]. split; [exact Hl1 | exact Hl2].
  - split.
    + intros Hfit.
      assert (cast_numeric_5_2 m = Some (to_numeric_5_2 m)) as Hcast
        by (by apply NumericFacts.cast_numeric_5_2_Some).
      rewrite Hcast in Hcall. eexists _, _. split; [exact Hcall|].
      split; [reflexivity|]. simpl. by rewrite lookup_insert_eq.
    + intros Hover. apply NumericFacts.cast_numeric_5_2_None in Hover.
      rewrite Hover in Hcall. split; [by rewrite Hcall|].
      simpl. unfold run_txn. rewrite Hcall. apply same_tables_refl.
Qed.

End NextQuestion.

Lemma stored_order_permutation (A : Type) (l : list A) :
  Permutation (Examples.stored_order A l) l.
Proof. reflexivity. Qed.

Lemma fresh_session_goes_on : ~ stopping_rule (Examples.sample_session 0 0 "in_progress").
Proof. unfold stopping_rule. simpl. lia. Qed.

Lemma session_at_maximum_stops : stopping_rule (Examples.sample_session 150 2 "in_progress").
Proof. unfold stopping_rule. simpl. lia. Qed.

(** At the failing input of C5 (session 1 has counted its maximum of two
    questions, with the ability 1.50 above the passing standard 0.00) the
    call of user 7 raises in the trigger of [tests] and the database is
    left as it was, the session in progress. *)
Lemma stopping_rule_termination_raises_witness :
  get_next_cat_question Examples.stored_order (Some 7) 1 Examples.at_maximum
  = RaiseAfter "record new has no field updated_at"
      (with_cat_sessions Examples.at_maximum
         {[ 1 := Examples.sample_session 150 2 "passed" ]} 2)
  /\ database_after Examples.stored_order (CallGetNext (Some 7) 1) Examples.at_maximum
     = Examples.at_maximum.
Proof.
  destruct (stopping_rule_termination_raises Examples.stored_order
              (Some 7) Examples.at_maximum 1
              (Examples.sample_session 150 2 "in_progress") Examples.sample_test
              eq_refl eq_refl eq_refl eq_refl)
    as [Hstop _].
  destruct (Hstop session_at_maximum_stops) as (decision & Hpf & Hcall & Hdb).
  split; [|exact Hdb].
  rewrite Hcall. f_equal.
  destruct Hpf as [[_ ->]|[Hlt _]]; [|simpl in Hlt; lia].
  reflexivity.
Defined.

(** The information of the sample questions 1 and 2 (discrimination 1.00,
    difficulty 0.00, guessing 0.20) at the ability 0.00 is 25/24. *)
Lemma sample_information (q : Z) :
  candidate_information (of_numeric_2 0)
    (q, {| discrimination := 100; difficulty := 0; guessing := 20 |})
  = (25 / 24)%R.
Proof.
  unfold candidate_information, IRT.calculate_information, IRT.calculate_probability,
    of_numeric_2. simpl.
  replace (100 / 100 * (0 / 100 - 0 / 100))%R with 0%R by lra.
  destruct (Rgt_dec 0 35) as [?|_]; [lra|].
  destruct (Rlt_dec 0 (-35)) as [?|_]; [lra|].
  rewrite Ropp_0, exp_0.
  replace (20 / 100 + (1 - 20 / 100) / (1 + 1))%R with (6 / 10)%R by lra.
  destruct (Rgt_dec (20 / 100) 0) as [_|?]; [|lra].
  destruct (Rlt_dec (20 / 100) 1) as [_|?]; [|lra].
  destruct (Rgt_dec (6 / 10) (20 / 100)) as [_|?]; [|lra].
  destruct (Rlt_dec (6 / 10) 1) as [_|?]; [|lra].
  lra.
Qed.

Lemma sample_information_rounded : to_numeric_5_2 (25 / 24) = 104.
Proof.
  unfold to_numeric_5_2. apply NumericFacts.round_half_away_nearest; lra.
Qed.

(** The loop over the two sample candidates keeps the first. *)
Lemma sample_scan :
  scan_shortlist (of_numeric_2 0)
    (firstn 50 (Examples.stored_order _
                  (information_candidates Examples.fresh 1 1)))
  = ((25 / 24)%R, Some 1).
Proof.
  assert (information_candidates Examples.fresh 1 1
          = [ (1, {| discrimination := 100; difficulty := 0; guessing := 20 |});
              (2, {| discrimination := 100; difficulty := 0; guessing := 20 |}) ]) as ->
    by (vm_compute; reflexivity).
  unfold Examples.stored_order, scan_shortlist. simpl.
  unfold keep_maximum at 2. rewrite sample_information. simpl.
  destruct (Rgt_dec (25 / 24) 0) as [_|?]; [|lra].
  unfold keep_maximum. rewrite sample_information. simpl.
  destruct (Rgt_dec (25 / 24) (25 / 24)) as [?|_]; [lra|]. reflexivity.
Qed.

(** C6, as stated, fails: on the fresh sample session the winning
    information is 25/24, and the selection is recorded with the
    information value 1.04. *)
Lemma information_value_is_rounded :
  exists db',
    get_next_cat_question Examples.stored_order (Some 7) 1 Examples.fresh
    = Return (NextQuestion (Some 1) 1) db'
    /\ cat_question_selections db'
       = [ {| selection_id := 1; cat_session_id := 1;
              selection_question_id := Some 1; position := 1;
              ability_estimate_before := 0; ability_estimate_after := None;
              information_value := 104; was_correct := None |} ]
    /\ scan_shortlist (of_numeric_2 0)
         (firstn 50 (Examples.stored_order _
                       (information_candidates Examples.fresh 1 1)))
       = ((25 / 24)%R, Some 1)
    /\ of_numeric_2 104 <> (25 / 24)%R.
Proof.
  pose proof (get_next_cat_question_continues Examples.stored_order (Some 7)
                Examples.fresh 1 (Examples.sample_session 0 0 "in_progress")
                _ _ eq_refl eq_refl eq_refl fresh_session_goes_on sample_scan) as Hcall.
  cbv zeta in Hcall.
  assert (cast_numeric_5_2 (25 / 24) = Some 104) as Hcast.
  { apply NumericFacts.cast_numeric_5_2_Some. rewrite sample_information_rounded.
    split; [done|lia]. }
  rewrite Hcast in Hcall. eexists. split; [exact Hcall|].
  split; [reflexivity|]. split; [exact sample_scan|].
  unfold of_numeric_2. lra.
Qed.

(** Squaring a lower bound of the exponential. *)
Lemma exp_double_lower (x q : R) : (0 <= q)%R -> (q <= exp x)%R -> (q * q <= exp (x + x))%R.
Proof.
  intros Hq He. rewrite exp_plus. by apply Rmult_le_compat.
Qed.

(** [exp 6.3] is above 534, by ten squarings from [1 + x <= exp x]. *)
Lemma exp_steep_logit : (534 <= exp (63 / 10))%R.
Proof.
  assert (10303 / 10240 <= exp (63 / 10240))%R as H0
    by (left; replace (10303 / 10240)%R with (1 + 63 / 10240)%R by lra;
        apply exp_ineq1; lra).
  assert (forall x q q' : R, (0 <= q)%R -> (q <= exp x)%R -> (q' <= q * q)%R ->
            (q' <= exp (x + x))%R) as Hstep.
  { intros x q q' Hq He Hq'. eapply Rle_trans; [exact Hq'|]. by apply exp_double_lower. }
  assert (506171269 / 500000000 <= exp (63 / 5120))%R as H1.
  { replace (63 / 5120)%R with (63 / 10240 + 63 / 10240)%R by lra.
    refine (Hstep _ _ _ _ H0 _); lra. }
  assert (512418707 / 500000000 <= exp (63 / 2560))%R as H2.
  { replace (63 / 2560)%R with (63 / 5120 + 63 / 5120)%R by lra.
    refine (Hstep _ _ _ _ H1 _); lra. }
  assert (42011669 / 40000000 <= exp (63 / 1280))%R as H3.
  { replace (63 / 1280)%R with (63 / 2560 + 63 / 2560)%R by lra.
    refine (Hstep _ _ _ _ H2 _); lra. }
  assert (1103112707 / 1000000000 <= exp (63 / 640))%R as H4.
  { replace (63 / 640)%R with (63 / 1280 + 63 / 1280)%R by lra.
    refine (Hstep _ _ _ _ H3 _); lra. }
  assert (304214411 / 250000000 <= exp (63 / 320))%R as H5.
  { replace (63 / 320)%R with (63 / 640 + 63 / 640)%R by lra.
    refine (Hstep _ _ _ _ H4 _); lra. }
  assert (59229701 / 40000000 <= exp (63 / 160))%R as H6.
  { replace (63 / 160)%R with (63 / 320 + 63 / 320)%R by lra.
    refine (Hstep _ _ _ _ H5 _); lra. }
  assert (87703937 / 40000000 <= exp (63 / 80))%R as H7.
  { replace (63 / 80)%R with (63 / 160 + 63 / 160)%R by lra.
    refine (Hstep _ _ _ _ H6 _); lra. }
  assert (4807487853 / 1000000000 <= exp (63 / 40))%R as H8.
  { replace (63 / 40)%R with (63 / 80 + 63 / 80)%R by lra.
    refine (Hstep _ _ _ _ H7 _); lra. }
  assert (180562027 / 7812500 <= exp (63 / 20))%R as H9.
  { replace (63 / 20)%R with (63 / 40 + 63 / 40)%R by lra.
    refine (Hstep _ _ _ _ H8 _); lra. }
  replace (63 / 10)%R with (63 / 20 + 63 / 20)%R by lra.
  refine (Hstep _ _ _ _ H9 _); lra.
Qed.

(** The information of a question of discrimination 1.20, difficulty -1.25
    and guessing 0.25 at the ability 4.00 is above 1000. *)
Lemma steep_information (q : Z) :
  (1000 <= candidate_information (of_numeric_2 400)
             (q, {| discrimination := 120; difficulty := -125; guessing := 25 |}))%R.
Proof.
  unfold candidate_information, IRT.calculate_information, IRT.calculate_probability,
    of_numeric_2. simpl.
  replace (120 / 100 * (400 / 100 - -125 / 100))%R with (63 / 10)%R by lra.
  destruct (Rgt_dec (63 / 10) 35) as [?|_]; [lra|].
  destruct (Rlt_dec (63 / 10) (-35)) as [?|_]; [lra|].
  pose proof exp_steep_logit as Hbig.
  pose proof (exp_pos (- (63 / 10))) as Hpos.
  assert (exp (- (63 / 10)) <= 1 / 534)%R as Hsmall.
  { rewrite exp_Ropp. unfold Rdiv. rewrite Rmult_1_l.
    apply Rinv_le_contravar; lra. }
  set (E := exp (- (63 / 10))) in *.
  assert (25 / 100 + (1 - 25 / 100) / (1 + E) = (1 + E / 4) / (1 + E))%R as HP
    by (field; lra).
  rewrite HP.
  assert (0 < / (1 + E))%R as Hinv by (apply Rinv_0_lt_compat; lra).
  assert (25 / 100 < (1 + E / 4) / (1 + E))%R as Hlo.
  { apply (Rmult_lt_reg_r (1 + E)); [lra|].
    replace ((1 + E / 4) / (1 + E) * (1 + E))%R with (1 + E / 4)%R by (field; lra). lra. }
  assert ((1 + E / 4) / (1 + E) < 1)%R as Hhi.
  { apply (Rmult_lt_reg_r (1 + E)); [lra|].
    replace ((1 + E / 4) / (1 + E) * (1 + E))%R with (1 + E / 4)%R by (field; lra). lra. }
  destruct (Rgt_dec (25 / 100) 0) as [_|?]; [|lra].
  destruct (Rlt_dec (25 / 100) 1) as [_|?]; [|lra].
  destruct (Rgt_dec _ (25 / 100)) as [_|?]; [|lra].
  destruct (Rlt_dec _ 1) as [_|?]; [|lra].
  replace (120 / 100 * (120 / 100)
           * ((1 + E / 4) / (1 + E) - 25 / 100) * ((1 + E / 4) / (1 + E) - 25 / 100)
           / ((1 - 25 / 100) * (1 - 25 / 100) * ((1 + E / 4) / (1 + E))
              * (1 - (1 + E / 4) / (1 + E))))%R
    with (144 / 100 / (3 / 4 * E * (1 + E / 4)))%R by (field; lra).
  assert (0 < 3 / 4 * E * (1 + E / 4))%R as Hden by nra.
  apply (Rmult_le_reg_r (3 / 4 * E * (1 + E / 4))); [exact Hden|].
  replace (144 / 100 / (3 / 4 * E * (1 + E / 4)) * (3 / 4 * E * (1 + E / 4)))%R
    with (144 / 100)%R by (field; lra).
  nra.
Qed.

(** At the ceiling of the ability scale the information of that question
    does not fit [NUMERIC(5,2)]: the call of user 7 raises
    [numeric field overflow] and no selection is recorded. *)
Lemma steep_item_overflows :
  get_next_cat_question Examples.stored_order (Some 7) 1 Examples.at_ceiling
  = Raise "numeric field overflow".
Proof.
  set (x := (1, {| discrimination := 120; difficulty := -125; guessing := 25 |})
            : Z * difficulty_parameters).
  pose proof (steep_information 1) as Hbig. fold x in Hbig.
  assert (scan_shortlist (of_numeric_2 400)
            (firstn 50 (Examples.stored_order _
                          (information_candidates Examples.at_ceiling 1 1)))
          = (candidate_information (of_numeric_2 400) x, Some 1)) as Hscan.
  { assert (information_candidates Examples.at_ceiling 1 1 = [x]) as ->
      by (vm_compute; reflexivity).
    unfold Examples.stored_order, scan_shortlist. simpl. unfold keep_maximum. simpl.
    destruct (Rgt_dec _ 0) as [_|?]; [reflexivity|lra]. }
  assert (~ stopping_rule (Examples.sample_session 400 0 "in_progress")) as Hon
    by (unfold stopping_rule; simpl; lia).
  pose proof (get_next_cat_question_continues Examples.stored_order (Some 7)
                Examples.at_ceiling 1 (Examples.sample_session 400 0 "in_progress")
                _ _ eq_refl eq_refl eq_refl Hon Hscan) as Hcall.
  cbv zeta in Hcall.
  assert (cast_numeric_5_2 (candidate_information (of_numeric_2 400) x) = None) as Hcast.
  { apply NumericFacts.cast_numeric_5_2_None. unfold to_numeric_5_2, round_half_away.
    destruct (Rle_dec 0 _) as [_|?]; [|lra].
    assert (100000 <= Int_part (candidate_information (of_numeric_2 400) x * 100 + / 2))%Z
      by (apply NumericFacts.Int_part_ge; lra).
    lia. }
  by rewrite Hcast in Hcall.
Qed.

Lemma item_selector_records_first_maximum_witness :
  exists chosen v_max_info,
    (Z.abs (to_numeric_5_2 v_max_info) < 100000 ->
     exists returned db',
       get_next_cat_question Examples.stored_order (Some 7) 1 Examples.fresh
       = Return (NextQuestion returned 1) db'
       /\ cat_question_selections db'
          = [ {| selection_id := 1; cat_session_id := 1;
                 selection_question_id := chosen; position := 1;
                 ability_estimate_before := 0; ability_estimate_after := None;
                 information_value := to_numeric_5_2 v_max_info;
                 was_correct := None |} ]).
Proof.
  assert (forall r, r ∈ cat_question_selections Examples.fresh ->
            selection_id r <> cat_question_selections_id_seq Examples.fresh) as Hfresh.
  { intros r Hr. by apply elem_of_nil in Hr. }
  destruct (item_selector_records_first_maximum Examples.stored_order
              stored_order_permutation (Some 7) Examples.fresh 1
              (Examples.sample_session 0 0 "in_progress") eq_refl eq_refl eq_refl
              fresh_session_goes_on Hfresh)
    as (_ & _ & _ & _ & _ & _ & chosen & m & _ & Hfit & _).
  exists chosen, m. intros Hm.
  destruct (Hfit Hm) as (returned & db' & Hcall & Hsel & _).
  exists returned, db'. split; [exact Hcall | exact Hsel].
Defined.

End NextQuestionFacts.

(** *** Submitting an answer *)

Module SubmitFacts.
Import Numeric TriggerFacts.
Local Open Scope list_scope.

(** A call of [submit_test_answer] by the owner of the test, for a question
    of the bank whose score fits and that has no result in the test yet,
    scores the response, records the attempt and inserts the result; then
    the trigger of [test_results] raises. *)
Lemma submit_test_answer_reaches_trigger u tid q resp t fl db te qu :
  tests db !! tid = Some te -> test_user_id te = Some u ->
  questions db !! q = Some qu ->
  Scoring.fits_numeric_5_2 (question_format qu) (use_partial_scoring qu)
    (Scoring.answers_of (answers db) q) resp = true ->
  (forall r, r ∈ test_results db ->
     result_id r <> test_results_id_seq db
     /\ ~ (result_test_id r = tid /\ result_question_id r = q)) ->
  exists uqs row,
    submit_test_answer (Some u) tid q resp t fl db
    = RaiseAfter
        "there is no unique or exclusion constraint matching the ON CONFLICT specification"
        (with_test_results (with_user_question_status db uqs)
           (test_results db ++ [row]) (test_results_id_seq db + 1))
    /\ result_id row = test_results_id_seq db
    /\ result_test_id row = tid /\ result_question_id row = q
    /\ user_response row = resp
    /\ (result_is_correct row, score row, max_score row)
       = Scoring.score_response (question_format qu) (use_partial_scoring qu)
           (Scoring.answers_of (answers db) q) resp.
Proof.
  intros Hte Hu Hqu Hfit Hnew. unfold submit_test_answer.
  rewrite Hte, Hu. simpl. rewrite Z.eqb_refl. simpl. rewrite Hqu, Hfit. simpl.
  destruct (Scoring.score_response _ _ _ _) as [[w sc] mx].
  destruct (record_attempt_spec u q w db) as [uqs ->].
  assert (existsb (fun r => result_id r =? test_results_id_seq (with_user_question_status db uqs))
            (test_results (with_user_question_status db uqs)) = false) as ->.
  { apply not_true_is_false. rewrite existsb_exists. intros (r & Hr & Heq).
    simpl in Hr, Heq. apply list_elem_of_In in Hr. apply Z.eqb_eq in Heq.
    by destruct (Hnew r Hr). }
  assert (existsb (fun r => (result_test_id r =? tid) && (result_question_id r =? q))
            (test_results (with_user_question_status db uqs)) = false) as ->.
  { apply not_true_is_false. rewrite existsb_exists. intros (r & Hr & Heq).
    simpl in Hr. apply list_elem_of_In in Hr. apply andb_prop in Heq as [H1 H2].
    apply Z.eqb_eq in H1, H2. by destruct (Hnew r Hr) as [_ []]. }
  match goal with
  | |- context [update_user_statistics ?N ?d] =>
      assert (update_user_statistics N d
              = inl "there is no unique or exclusion constraint matching the ON CONFLICT specification")
        as ->
  end.
  { by apply (update_user_statistics_existing _ _ qu). }
  eexists uqs, _. split; [reflexivity|]. by repeat split.
Qed.

(** C1, on the code: [submit_cat_answer] accepts no answer.  Every call
    raises and leaves the tables as they were.  A call that passes the
    checks of the procedure (the session exists, the caller owns its test,
    the question is in the bank, the score fits, and the test has no result
    for the question yet) has its response scored and its result inserted,
    and then raises in the trigger of [test_results], before the selection
    or the session is touched; the rollback leaves one id of
    [test_results] drawn. *)
Theorem submit_cat_answer_never_succeeds
    (RANDOM : forall A : Type, list A -> list A)
    (auth_uid : option uuid) (sid q : Z) (resp : text_array) (t : Z) (db : database) :
  (exists m, raised (submit_cat_answer auth_uid sid q resp t db) = Some m)
  /\ same_tables db (database_after RANDOM (CallSubmit auth_uid sid q resp t) db)
  /\ (forall s u te qu,
        cat_sessions db !! sid = Some s ->
        auth_uid = Some u ->
        holds (sql_ne auth_uid (session_user_id s)) = false ->
        tests db !! session_test_id s = Some te -> test_user_id te = Some u ->
        questions db !! q = Some qu ->
        Scoring.fits_numeric_5_2 (question_format qu) (use_partial_scoring qu)
          (Scoring.answers_of (answers db) q) resp = true ->
        (forall r, r ∈ test_results db ->
           result_id r <> test_results_id_seq db
           /\ ~ (result_test_id r = session_test_id s /\ result_question_id r = q)) ->
        exists db' row,
          submit_cat_answer auth_uid sid q resp t db
          = RaiseAfter
              "there is no unique or exclusion constraint matching the ON CONFLICT specification"
              db'
          /\ test_results db' = test_results db ++ [row]
          /\ result_test_id row = session_test_id s /\ result_question_id row = q
          /\ (result_is_correct row, score row, max_score row)
             = Scoring.score_response (question_format qu) (use_partial_scoring qu)
                 (Scoring.answers_of (answers db) q) resp
          /\ cat_question_selections db' = cat_question_selections db
          /\ cat_sessions db' = cat_sessions db
          /\ test_results_id_seq (database_after RANDOM (CallSubmit auth_uid sid q resp t) db)
             = test_results_id_seq db + 1).
Proof.
  split; [|split].
  - destruct (submit_cat_answer_outcome auth_uid sid q resp t db)
      as [[m ->]|(m & d & -> & _)]; simpl; eauto.
  - simpl. unfold run_txn.
    destruct (submit_cat_answer_outcome auth_uid sid q resp t db)
      as [[m ->]|(m & d & -> & _)]; simpl.
    + apply same_tables_refl.
    + apply same_tables_keep_sequences.
  - intros s u te qu Hs -> Hu Hte Hown Hqu Hfit Hnew.
    destruct (submit_test_answer_reaches_trigger u (session_test_id s) q resp t false db
                te qu Hte Hown Hqu Hfit Hnew)
      as (uqs & row & Hcall & _ & Htid & Hq & _ & Hscore).
    assert (submit_cat_answer (Some u) sid q resp t db
            = RaiseAfter
                "there is no unique or exclusion constraint matching the ON CONFLICT specification"
                (with_test_results (with_user_question_status db uqs)
                   (test_results db ++ [row]) (test_results_id_seq db + 1))) as Hcat.
    { unfold submit_cat_answer. rewrite Hs, Hu, Hcall. reflexivity. }
    eexists _, row. split; [exact Hcat|]. repeat split; try done.
    simpl. unfold run_txn. rewrite Hcat. reflexivity.
Qed.

(** At the failing input of C1, the answer of user 7 to the question in
    flight of the sample session, the result is inserted with the score 1
    and the call raises in the trigger. *)
Lemma in_flight_answer_raises :
  exists db',
    submit_cat_answer (Some 7) 1 1 (Some [Some "11"]) 30 Examples.in_flight
    = RaiseAfter
        "there is no unique or exclusion constraint matching the ON CONFLICT specification"
        db'
    /\ test_results db'
       = [ {| result_id := 1; result_test_id := 1; result_user_id := 7;
              result_question_id := 1; user_response := Some [Some "11"];
              result_is_correct := Some true; score := 100; max_score := 100;
              time_spent_seconds := 30; is_flagged := false |} ]
    /\ question_in_flight Examples.in_flight 1 = Some 1.
Proof.
  eexists. split; [vm_compute; reflexivity|]. split; reflexivity.
Qed.

End SubmitFacts.

(** *** Answers out of sequence *)

Module AnswerFacts.
Import Numeric TriggerFacts ProcedureFacts.
Local Open Scope list_scope.

(** C2 as the code has it: [submit_cat_answer] has no check of the question
    in flight.  A call of the owner for a question that already has a
    result in the session's test, such as a second answer to an answered
    position, is rejected by the unique constraint of [test_results] on the
    test and the question, whichever question is in flight.  A rejected
    call, this one or any other, leaves the tables as they were, so the
    session keeps its ability. *)
Theorem answered_question_is_rejected
    (RANDOM : forall A : Type, list A -> list A)
    (u : uuid) (db : database) (sid q : Z) (resp : text_array) (t : Z)
    (s : cat_session) (te : test) (qu : question) (row : test_result) :
  cat_sessions db !! sid = Some s ->
  holds (sql_ne (Some u) (session_user_id s)) = false ->
  tests db !! session_test_id s = Some te -> test_user_id te = Some u ->
  questions db !! q = Some qu ->
  Scoring.fits_numeric_5_2 (question_format qu) (use_partial_scoring qu)
    (Scoring.answers_of (answers db) q) resp = true ->
  (forall r, r ∈ test_results db -> result_id r <> test_results_id_seq db) ->
  row ∈ test_results db ->
  result_test_id row = session_test_id s -> result_question_id row = q ->
  (exists db',
     submit_cat_answer (Some u) sid q resp t db
     = RaiseAfter
         "duplicate key value violates unique constraint test_results_test_id_question_id_key"
         db')
  /\ same_tables db (database_after RANDOM (CallSubmit (Some u) sid q resp t) db)
  /\ cat_sessions (database_after RANDOM (CallSubmit (Some u) sid q resp t) db) !! sid
     = Some s
  /\ (forall auth_uid sid' q' resp' t' m,
        raised (submit_cat_answer auth_uid sid' q' resp' t' db) = Some m ->
        same_tables db (database_after RANDOM (CallSubmit auth_uid sid' q' resp' t') db)).
Proof.
  intros Hs Hu Hte Hown Hqu Hfit Hfresh Hrow Htid Hq.
  destruct (submit_test_answer_duplicate u (session_test_id s) q resp t false db row te qu
              Hte Hown Hqu Hfit Hfresh Hrow Htid Hq) as (db' & Hcall & Hkeep).
  assert (submit_cat_answer (Some u) sid q resp t db
          = RaiseAfter
              "duplicate key value violates unique constraint test_results_test_id_question_id_key"
              db') as Hcat.
  { unfold submit_cat_answer. rewrite Hs, Hu, Hcall. reflexivity. }
  split; [by exists db'|].
  assert (forall auth_uid sid' q' resp' t' m,
            raised (submit_cat_answer auth_uid sid' q' resp' t' db) = Some m ->
            same_tables db
              (database_after RANDOM (CallSubmit auth_uid sid' q' resp' t') db)) as Hall.
  { intros a sid' q' resp' t' m Hm.
    exact (proj1 (run_txn_raised (submit_cat_answer a sid' q' resp' t') db m Hm)). }
  split; [apply (Hall _ _ _ _ _ _ (f_equal raised Hcat))|]. split; [|exact Hall].
  simpl. unfold run_txn. rewrite Hcat. simpl. exact Hs.
Qed.

(** C2, as stated, fails: with question 1 in flight in the sample session,
    the answer of user 7 to question 2, which has not been served, goes
    through the scoring and the insert of its result like the answer to
    question 1 does, and fails with the same exception, in the trigger of
    [test_results]: nothing rejects it for being out of sequence. *)
Lemma out_of_sequence_answer_is_not_singled_out :
  question_in_flight Examples.in_flight 1 = Some 1
  /\ (exists db',
        submit_cat_answer (Some 7) 1 2 (Some [Some "21"]) 30 Examples.in_flight
        = RaiseAfter
            "there is no unique or exclusion constraint matching the ON CONFLICT specification"
            db'
        /\ test_results db'
           = [ {| result_id := 1; result_test_id := 1; result_user_id := 7;
                  result_question_id := 2; user_response := Some [Some "21"];
                  result_is_correct := Some true; score := 100; max_score := 100;
                  time_spent_seconds := 30; is_flagged := false |} ])
  /\ raised (submit_cat_answer (Some 7) 1 2 (Some [Some "21"]) 30 Examples.in_flight)
     = raised (submit_cat_answer (Some 7) 1 1 (Some [Some "11"]) 30 Examples.in_flight).
Proof.
  split; [reflexivity|]. split.
  - eexists. split; [vm_compute; reflexivity|reflexivity].
  - vm_compute. reflexivity.
Qed.

Lemma answered_question_is_rejected_witness :
  (exists db',
     submit_cat_answer (Some 7) 1 1 (Some [Some "12"]) 45 one_answer_recorded
     = RaiseAfter
         "duplicate key value violates unique constraint test_results_test_id_question_id_key"
         db')
  /\ cat_sessions
       (database_after Examples.stored_order
          (CallSubmit (Some 7) 1 1 (Some [Some "12"]) 45) one_answer_recorded) !! 1
     = Some (Examples.sample_session 0 1 "in_progress").
Proof.
  assert (forall r, r ∈ test_results one_answer_recorded ->
            result_id r <> test_results_id_seq one_answer_recorded) as Hfresh.
  { intros r Hr. apply list_elem_of_singleton in Hr as ->. discriminate. }
  destruct (answered_question_is_rejected Examples.stored_order 7 one_answer_recorded
              1 1 (Some [Some "12"]) 45 (Examples.sample_session 0 1 "in_progress")
              Examples.sample_test
              {| topic := "Pharmacology"; sub_topic := "Dosage";
                 question_format := "Multiple Choice"; use_partial_scoring := false |}
              _ eq_refl eq_refl eq_refl eq_refl eq_refl eq_refl Hfresh
              (list_elem_of_here _ _) eq_refl eq_refl)
    as (Hraise & _ & Hkept & _).
  exact (conj Hraise Hkept).
Defined.

End AnswerFacts.
(** *** Creating a session *)

Module CreateFacts.
Import Numeric TriggerFacts.
Local Open Scope list_scope.

Lemma length_number_rows tid k ids : length (number_rows tid k ids) = length ids.
Proof.
  revert k. induction ids as [|q ids IH]; intros k; [reflexivity|].
  simpl. by rewrite IH.
Qed.

Section Create.

Variable RANDOM : forall A : Type, list A -> list A.

(** With a title and topics that fit, a fresh test id and a non-empty pool,
    the procedure inserts the test and its pool and then raises in the
    trigger of [tests]. *)
Lemma create_cat_test_raises auth_uid p_title p_topics p_min p_max p_pass db
    stored_title stored_topics :
  varchar 255 p_title = Some stored_title ->
  varchar_array 255 p_topics = Some stored_topics ->
  tests db !! tests_id_seq db = None ->
  drawn_pool RANDOM db auth_uid p_topics <> [] ->
  create_cat_test RANDOM auth_uid p_title p_topics p_min p_max p_pass db
  = RaiseAfter "record new has no field updated_at"
      (with_test_questions
         (with_tests db
            (<[tests_id_seq db :=
                 {| test_user_id := auth_uid; title := stored_title; mode := "CAT";
                    topics := stored_topics; question_count := None;
                    test_status := "in_progress" |}]> (tests db))
            (tests_id_seq db + 1))
         (test_questions db
          ++ number_rows (tests_id_seq db) 1 (drawn_pool RANDOM db auth_uid p_topics))).
Proof.
  intros Hti Htp Ht Hpool. unfold create_cat_test. rewrite Hti, Htp, Ht.
  match goal with
  | |- context [drawn_pool RANDOM ?d auth_uid p_topics] =>
      change (drawn_pool RANDOM d auth_uid p_topics)
        with (drawn_pool RANDOM db auth_uid p_topics)
  end.
  destruct (Z.eqb_spec (Z.of_nat (length (drawn_pool RANDOM db auth_uid p_topics))) 0)
    as [H0|H0].
  - destruct (drawn_pool RANDOM db auth_uid p_topics); [done|simpl in H0; lia].
  - rewrite update_tests_spec. simpl. rewrite lookup_insert_eq. reflexivity.
Qed.

(** C10, on the code: [create_cat_test] creates no session.  Whatever its
    arguments, it does not return a created test and leaves the sessions as
    they were.  When the title and the topics fit their columns, the test id
    drawn is fresh and the pool query finds questions, the procedure inserts
    the test and the pool, and the update of the test's [question_count]
    raises in the trigger of [tests], before the insert of the session; the
    rollback leaves the id of the test drawn.  The row that insert would
    store has as [max_questions] the smaller of the requested maximum and
    the number of pool questions. *)
Theorem create_cat_test_creates_no_session
    (auth_uid : option uuid) (p_title : string) (p_topics : text_array)
    (p_min_questions p_max_questions : Z) (p_passing_standard : R) (db : database) :
  let call := CallCreate auth_uid p_title p_topics p_min_questions p_max_questions
                p_passing_standard in
  (forall tid sid n db',
      create_cat_test RANDOM auth_uid p_title p_topics p_min_questions p_max_questions
        p_passing_standard db <> Return (Created tid sid n) db')
  /\ same_tables db (database_after RANDOM call db)
  /\ (is_Some (varchar 255 p_title) -> is_Some (varchar_array 255 p_topics) ->
      tests db !! tests_id_seq db = None ->
      drawn_pool RANDOM db auth_uid p_topics <> [] ->
      exists db2 t,
        create_cat_test RANDOM auth_uid p_title p_topics p_min_questions p_max_questions
          p_passing_standard db
        = RaiseAfter "record new has no field updated_at" db2
        /\ tests db2 !! tests_id_seq db = Some t
        /\ test_user_id t = auth_uid /\ mode t = "CAT" /\ question_count t = None
        /\ test_questions db2
           = test_questions db
             ++ number_rows (tests_id_seq db) 1 (drawn_pool RANDOM db auth_uid p_topics)
        /\ cat_sessions db2 = cat_sessions db
        /\ tests_id_seq (database_after RANDOM call db) = tests_id_seq db + 1)
  /\ (forall v_test_id v_initial_ability stored_standard v_question_count,
        max_questions (new_cat_session v_test_id auth_uid v_initial_ability stored_standard
                         p_min_questions p_max_questions v_question_count)
        = Z.min p_max_questions v_question_count).
Proof.
  intros call. split; [|split; [|split]].
  - intros tid sid n db'. apply create_cat_test_never_creates.
  - unfold call. simpl. unfold run_txn.
    destruct (create_cat_test_outcome RANDOM auth_uid p_title p_topics p_min_questions
                p_max_questions p_passing_standard db)
      as [[m ->]|[(m & d & -> & _)|(_ & _ & ->)]]; simpl; by repeat split.
  - intros [stored_title Hti] [stored_topics Htp] Ht Hpool.
    pose proof (create_cat_test_raises auth_uid p_title p_topics p_min_questions
                  p_max_questions p_passing_standard db _ _ Hti Htp Ht Hpool) as Hcall.
    eexists _, _. split; [exact Hcall|]. simpl. rewrite lookup_insert_eq.
    split; [reflexivity|]. simpl. repeat split.
    unfold call. simpl. unfold run_txn. rewrite Hcall. reflexivity.
  - reflexivity.
Qed.

End Create.

(** At the failing input of C10, the call of user 7 with the default
    arguments on the sample bank, the pool holds the questions 2 and 1 and
    the call raises in the trigger of [tests]; no session is left. *)
Lemma default_call_raises :
  exists db2,
    create_cat_test Examples.stored_order (Some 7) "NCLEX CAT Simulation" None 75 145 0%R
      Examples.bank
    = RaiseAfter "record new has no field updated_at" db2
    /\ map tq_question_id (test_questions db2) = [2; 1]
    /\ cat_sessions
         (database_after Examples.stored_order
            (CallCreate (Some 7) "NCLEX CAT Simulation" None 75 145 0%R) Examples.bank)
       = ∅.
Proof.
  assert (drawn_pool Examples.stored_order Examples.bank (Some 7) None <> []) as Hpool
    by (vm_compute; discriminate).
  pose proof (create_cat_test_raises Examples.stored_order (Some 7) "NCLEX CAT Simulation"
                None 75 145 0%R Examples.bank _ _ eq_refl eq_refl eq_refl Hpool) as Hcall.
  eexists. split; [exact Hcall|]. split; [vm_compute; reflexivity|].
  simpl. unfold run_txn. rewrite Hcall. reflexivity.
Qed.

End CreateFacts.

(** *** The abilities the engine stores *)

Module AbilityInvariant.
Import Numeric TriggerFacts ProcedureFacts.
Local Open Scope list_scope.






End AbilityInvariant.

(** * Further properties *)

(** ** IRT math core *)

Module IRTExtras.
Import IRT IRTFacts.
Local Open Scope R_scope.

Lemma logistic_zero : logistic 0 = / 2.
Proof. unfold logistic. rewrite Ropp_0, exp_0. lra. Qed.

(** At an ability equal to the difficulty the probability is halfway
    between the guessing parameter and 1. *)
Lemma calculate_probability_midpoint (a b c : R) :
  calculate_probability b a b c = (1 + c) / 2.
Proof.
  rewrite calculate_probability_logistic.
  replace (a * (b - b)) with 0 by lra.
  rewrite clamp_logit_inside by lra. rewrite logistic_zero. lra.
Qed.

(** X1: with a guessing parameter in [0, 1) the probability is strictly
    between the guessing parameter and 1; at an ability equal to the
    difficulty it is halfway between them; and once the logit reaches 35 (or
    -35) it no longer changes with the ability. *)
Theorem calculate_probability_midpoint_and_saturation (a b c : R) :
  0 <= c < 1 ->
  (forall theta, c < calculate_probability theta a b c < 1)
  /\ calculate_probability b a b c = (1 + c) / 2
  /\ (forall theta1 theta2, 35 <= a * (theta1 - b) -> 35 <= a * (theta2 - b) ->
        calculate_probability theta1 a b c = calculate_probability theta2 a b c)
  /\ (forall theta1 theta2, a * (theta1 - b) <= -35 -> a * (theta2 - b) <= -35 ->
        calculate_probability theta1 a b c = calculate_probability theta2 a b c).
Proof.
  intros Hc. split; [intros theta; by apply calculate_probability_range|].
  split.
  - apply calculate_probability_midpoint.
  - split; intros theta1 theta2 H1 H2; rewrite !calculate_probability_logistic;
      (assert (clamp_logit (a * (theta1 - b)) = clamp_logit (a * (theta2 - b))) as ->;
       [unfold clamp_logit, Rmin; case_Rdec; unfold Rmax; case_Rdec; lra | reflexivity]).
Qed.

Lemma calculate_probability_midpoint_and_saturation_witness :
  calculate_probability 0 1 0 (/ 4) = (1 + / 4) / 2.
Proof.
  assert (0 <= / 4 < 1) as Hc by lra.
  exact (proj1 (proj2 (calculate_probability_midpoint_and_saturation 1 0 (/ 4) Hc))).
Defined.

(** X2: with a guessing parameter in [0, 1) the information is never
    negative, and it is zero exactly when the discrimination is zero. *)
Theorem calculate_information_zero_iff (theta a b c : R) :
  0 <= c < 1 ->
  0 <= calculate_information theta a b c
  /\ (calculate_information theta a b c = 0 <-> a = 0).
Proof.
  intros Hc. split; [by apply calculate_information_nonneg|].
  unfold calculate_information.
  pose proof (calculate_probability_range theta a b c Hc) as Hp.
  set (p := calculate_probability theta a b c) in *.
  assert (0 < p * (1 - p)) as Hpp by (apply Rmult_lt_0_compat; lra).
  split.
  - intros H0. destruct (Req_dec a 0) as [|Ha]; [done|exfalso].
    assert (0 < a * a) as Haa by nra.
    assert (0 < a * a * p * (1 - p)) as Hsimple by nra.
    revert H0. case_Rdec; try lra.
    intros H0. apply Rmult_integral in H0 as [H0|H0].
    + assert (0 < (p - c) * (p - c)) by nra. nra.
    + revert H0. apply Rinv_neq_0_compat.
      assert (0 < (1 - c) * (1 - c)) by nra. nra.
  - intros ->. case_Rdec; unfold Rdiv; lra.
Qed.

Lemma calculate_information_zero_iff_witness :
  0 <= calculate_information 0 1 0 (/ 4).
Proof.
  assert (0 <= / 4 < 1) as Hc by lra.
  exact (proj1 (calculate_information_zero_iff 0 1 0 (/ 4) Hc)).
Defined.

(** X3: with guessing parameter 0 the information is at most a quarter of
    the squared discrimination, and it has that value when the ability
    equals the difficulty. *)
Theorem calculate_information_peak_without_guessing (theta a b : R) :
  calculate_information theta a b 0 <= a * a / 4
  /\ calculate_information b a b 0 = a * a / 4.
Proof.
  assert (forall t, calculate_information t a b 0
                    = a * a * calculate_probability t a b 0
                      * (1 - calculate_probability t a b 0)) as Hform.
  { intros t. unfold calculate_information. case_Rdec; try lra; reflexivity. }
  split.
  - rewrite Hform. set (p := calculate_probability theta a b 0).
    assert (0 <= a * a) by nra.
    pose proof (Rle_0_sqr (p - / 2)) as Hsq. unfold Rsqr in Hsq.
    assert (p * (1 - p) <= / 4) as Hq by lra.
    apply (Rmult_le_compat_l (a * a)) in Hq; [|done]. lra.
  - rewrite Hform, calculate_probability_midpoint. lra.
Qed.

End IRTExtras.

(** ** Ability estimator *)

Module EstimatorExtras.
Import IRT Numeric Estimator EstimatorTerms EstimatorFacts.
Local Open Scope R_scope.

Lemma limited_probability_range v row : 0.001 <= limited_probability v row <= 0.999.
Proof.
  unfold limited_probability.
  destruct (Rlt_dec _ 0.001); case_Rdec; lra.
Qed.

Lemma mle_accumulate_terms v d1 d2 row :
  mle_accumulate v (d1, d2) row
  = (d1 + derivative_term v row, d2 + second_derivative_term v row).
Proof.
  unfold mle_accumulate, derivative_term, second_derivative_term, limited_probability.
  destruct (row_was_correct row) as [[|]|]; f_equal; lra.
Qed.

Lemma fold_accumulate v rows : forall d1 d2,
  fold_left (mle_accumulate v) rows (d1, d2)
  = (d1 + Rsum (map (derivative_term v) rows),
     d2 + Rsum (map (second_derivative_term v) rows)).
Proof.
  induction rows as [|row rows IH]; intros d1 d2.
  - simpl. f_equal; lra.
  - change (fold_left (mle_accumulate v) (row :: rows) (d1, d2))
      with (fold_left (mle_accumulate v) rows (mle_accumulate v (d1, d2) row)).
    rewrite mle_accumulate_terms, IH. unfold Rsum. simpl. f_equal; lra.
Qed.

Lemma Rsum_permutation l l' : Permutation l l' -> Rsum l = Rsum l'.
Proof.
  induction 1; simpl; lra.
Qed.

Lemma mle_update_sums rows v :
  mle_update rows v
  = bound_ability
      (if Req_dec_T (Rsum (map (second_derivative_term v) rows)) 0
       then v + v_step * SIGN (Rsum (map (derivative_term v) rows))
       else v - Rsum (map (derivative_term v) rows)
                / Rsum (map (second_derivative_term v) rows)).
Proof.
  unfold mle_update. rewrite fold_accumulate. rewrite !Rplus_0_l. reflexivity.
Qed.

Lemma mle_update_permutation rows rows' v :
  Permutation rows rows' -> mle_update rows v = mle_update rows' v.
Proof.
  intros HP. rewrite !mle_update_sums.
  rewrite (Rsum_permutation (map (derivative_term v) rows) (map (derivative_term v) rows'))
    by (by apply Permutation_map).
  rewrite (Rsum_permutation (map (second_derivative_term v) rows)
             (map (second_derivative_term v) rows')) by (by apply Permutation_map).
  reflexivity.
Qed.

(** X4: the estimate does not depend on the order in which the loop query
    returns the rows: on two permutations of the same rows the procedure
    makes the same number of passes and returns the same ability. *)
Theorem estimate_independent_of_row_order (rows rows' : list mle_row) (start : R) :
  Permutation rows rows' ->
  estimate_ability_mle_loop rows start = estimate_ability_mle_loop rows' start.
Proof.
  intros HP. unfold estimate_ability_mle_loop.
  assert (forall k v prev i,
            mle_while k rows v prev i = mle_while k rows' v prev i) as Hloop.
  { induction k as [|k IH]; intros v prev i; simpl; [reflexivity|].
    destruct (Rgt_dec _ _); [|reflexivity].
    rewrite (mle_update_permutation rows rows' v HP). apply IH. }
  apply Hloop.
Qed.

Lemma estimate_independent_of_row_order_witness :
  estimate_ability_mle_loop
    [ {| row_was_correct := Some true; row_discrimination := 100;
         row_difficulty := 0; row_guessing := 20 |};
      {| row_was_correct := Some false; row_discrimination := 90;
         row_difficulty := 50; row_guessing := 25 |} ] 0
  = estimate_ability_mle_loop
      [ {| row_was_correct := Some false; row_discrimination := 90;
           row_difficulty := 50; row_guessing := 25 |};
        {| row_was_correct := Some true; row_discrimination := 100;
           row_difficulty := 0; row_guessing := 20 |} ] 0.
Proof.
  apply estimate_independent_of_row_order. apply perm_swap.
Defined.

Lemma SIGN_zero : SIGN 0 = 0.
Proof. unfold SIGN. case_Rdec; lra. Qed.

Lemma bound_ability_inside x : -4 <= x <= 4 -> bound_ability x = x.
Proof. intros H. unfold bound_ability. destruct (Rlt_dec x (-4)); case_Rdec; lra. Qed.

Lemma bound_ability_mono x y : x <= y -> bound_ability x <= bound_ability y.
Proof.
  intros H. unfold bound_ability.
  destruct (Rlt_dec x (-4)); destruct (Rlt_dec y (-4)); case_Rdec; lra.
Qed.

Lemma bound_ability_strict x y : x < y -> x < 4 -> -4 <= x -> x < bound_ability y.
Proof.
  intros H H4 Hm. unfold bound_ability.
  destruct (Rlt_dec y (-4)); case_Rdec; lra.
Qed.

(** X5: with no answered row to iterate over, a stored ability in
    [-4.00, 4.00] is returned as it is after a single pass, and storing it
    again leaves the column unchanged. *)
Theorem estimate_without_rows_keeps_ability (db : database) (sid : Z) (s : cat_session) :
  cat_sessions db !! sid = Some s ->
  mle_rows db sid = [] ->
  (-400 <= current_ability s <= 400)%Z ->
  estimate_ability_mle_loop [] (of_numeric_2 (current_ability s))
    = (of_numeric_2 (current_ability s), 1%nat)
  /\ estimate_ability_mle db sid = Some (of_numeric_2 (current_ability s))
  /\ to_numeric_5_2 (of_numeric_2 (current_ability s)) = current_ability s.
Proof.
  intros Hs Hrows Hb.
  set (start := of_numeric_2 (current_ability s)).
  assert (-4 <= start <= 4) as Hstart.
  { unfold start, of_numeric_2. destruct Hb as [H1 H2].
    apply IZR_le in H1, H2. lra. }
  assert (estimate_ability_mle_loop [] start = (start, 1%nat)) as Hloop.
  { unfold estimate_ability_mle_loop, v_max_iter. simpl.
    destruct (Rgt_dec (Rabs (start - -999)) 0.001) as [_|Hn].
    - rewrite mle_update_sums. simpl.
      destruct (Req_dec_T 0 0) as [_|Hne]; [|done].
      rewrite SIGN_zero, Rmult_0_r, Rplus_0_r, bound_ability_inside by done.
      destruct (Rgt_dec _ _) as [Hgt|_]; [|reflexivity].
      replace (start - start) with 0 in Hgt by lra. rewrite Rabs_R0 in Hgt. lra.
    - exfalso. apply Hn. rewrite Rabs_right; lra. }
  split; [exact Hloop|]. split.
  - unfold estimate_ability_mle. rewrite Hs. simpl. rewrite Hrows.
    fold start. by rewrite Hloop.
  - apply NumericFacts.to_numeric_5_2_of_numeric_2.
Qed.

Lemma estimate_without_rows_keeps_ability_witness :
  estimate_ability_mle Examples.fresh 1 = Some (of_numeric_2 0).
Proof.
  assert (-400 <= 0 <= 400)%Z as Hb by lia.
  exact (proj1 (proj2 (estimate_without_rows_keeps_ability Examples.fresh 1
                         (Examples.sample_session 0 0 "in_progress")
                         eq_refl eq_refl Hb))).
Defined.

End EstimatorExtras.

Module EstimatorDirection.
Import IRT Numeric Estimator EstimatorTerms EstimatorFacts EstimatorExtras.
Local Open Scope R_scope.

Lemma second_derivative_term_nonpos v row : second_derivative_term v row <= 0.
Proof.
  unfold second_derivative_term.
  pose proof (limited_probability_range v row) as Hp.
  set (a := of_numeric_2 (row_discrimination row)).
  set (p := limited_probability v row) in *.
  assert (0 <= a * a) by nra.
  assert (0 <= p * (1 - p)) by (apply Rmult_le_pos; lra).
  assert (0 <= a * a * (p * (1 - p))) by (by apply Rmult_le_pos). lra.
Qed.

Lemma second_derivative_term_neg v row :
  (0 < row_discrimination row)%Z -> second_derivative_term v row < 0.
Proof.
  intros Ha. unfold second_derivative_term.
  pose proof (limited_probability_range v row) as Hp.
  assert (0 < of_numeric_2 (row_discrimination row)) as Hpos.
  { unfold of_numeric_2. apply IZR_lt in Ha. lra. }
  set (a := of_numeric_2 (row_discrimination row)) in *.
  set (p := limited_probability v row) in *.
  assert (0 < a * a) by nra.
  assert (0 < p * (1 - p)) by (apply Rmult_lt_0_compat; lra).
  assert (0 < a * a * (p * (1 - p))) by (by apply Rmult_lt_0_compat). lra.
Qed.

Lemma ratio_pos (a x y : R) : 0 <= a -> 0 < x -> 0 < y -> 0 <= a * x / y.
Proof.
  intros Ha Hx Hy. unfold Rdiv. apply Rmult_le_pos; [nra|].
  left. by apply Rinv_0_lt_compat.
Qed.

Lemma ratio_strict (a x y : R) : 0 < a -> 0 < x -> 0 < y -> 0 < a * x / y.
Proof.
  intros Ha Hx Hy. unfold Rdiv. apply Rmult_lt_0_compat; [nra|].
  by apply Rinv_0_lt_compat.
Qed.

Lemma discrimination_nonneg row :
  (0 <= row_discrimination row)%Z -> 0 <= of_numeric_2 (row_discrimination row).
Proof. intros H. unfold of_numeric_2. apply IZR_le in H. lra. Qed.

Lemma discrimination_pos row :
  (0 < row_discrimination row)%Z -> 0 < of_numeric_2 (row_discrimination row).
Proof. intros H. unfold of_numeric_2. apply IZR_lt in H. lra. Qed.

Lemma derivative_term_correct v row :
  row_was_correct row = Some true ->
  ((0 <= row_discrimination row)%Z -> 0 <= derivative_term v row)
  /\ ((0 < row_discrimination row)%Z -> 0 < derivative_term v row).
Proof.
  intros Hc. unfold derivative_term. rewrite Hc.
  pose proof (limited_probability_range v row) as Hp.
  split; intros Ha.
  - apply ratio_pos; [by apply discrimination_nonneg | lra | lra].
  - apply ratio_strict; [by apply discrimination_pos | lra | lra].
Qed.

Lemma derivative_term_incorrect v row :
  row_was_correct row <> Some true ->
  ((0 <= row_discrimination row)%Z -> derivative_term v row <= 0)
  /\ ((0 < row_discrimination row)%Z -> derivative_term v row < 0).
Proof.
  intros Hc. unfold derivative_term.
  pose proof (limited_probability_range v row) as Hp.
  assert (match row_was_correct row with
          | Some true =>
              of_numeric_2 (row_discrimination row) * (1 - limited_probability v row)
              / limited_probability v row
          | _ => - (of_numeric_2 (row_discrimination row) * limited_probability v row
                    / (1 - limited_probability v row))
          end
          = - (of_numeric_2 (row_discrimination row) * limited_probability v row
               / (1 - limited_probability v row))) as ->
    by (destruct (row_was_correct row) as [[|]|]; done).
  split; intros Ha.
  - pose proof (ratio_pos _ (limited_probability v row) (1 - limited_probability v row)
                  (discrimination_nonneg row Ha)). lra.
  - pose proof (ratio_strict _ (limited_probability v row) (1 - limited_probability v row)
                  (discrimination_pos row Ha)). lra.
Qed.

Lemma Rsum_nonneg l : (forall x, In x l -> 0 <= x) -> 0 <= Rsum l.
Proof.
  induction l as [|x l IH]; intros H; simpl; [lra|].
  pose proof (H x (or_introl eq_refl)).
  pose proof (IH (fun y Hy => H y (or_intror Hy))). unfold Rsum in *. lra.
Qed.

Lemma Rsum_pos l : l <> [] -> (forall x, In x l -> 0 < x) -> 0 < Rsum l.
Proof.
  destruct l as [|x l]; [done|]. intros _ H. simpl.
  pose proof (H x (or_introl eq_refl)).
  assert (0 <= Rsum l)
    by (apply Rsum_nonneg; intros y Hy; left; apply H; by right).
  unfold Rsum in *. lra.
Qed.

Lemma Rsum_opp l : Rsum (map Ropp l) = - Rsum l.
Proof. induction l as [|x l IH]; simpl; [lra|]. unfold Rsum in *. rewrite IH. lra. Qed.

(** Signs of the two accumulated derivatives. *)
Lemma second_derivative_sum_nonpos v rows :
  Rsum (map (second_derivative_term v) rows) <= 0.
Proof.
  induction rows as [|row rows IH]; simpl; [lra|].
  pose proof (second_derivative_term_nonpos v row). unfold Rsum in *. lra.
Qed.

Lemma second_derivative_sum_neg v rows :
  rows <> [] -> (forall row, In row rows -> (0 < row_discrimination row)%Z) ->
  Rsum (map (second_derivative_term v) rows) < 0.
Proof.
  destruct rows as [|row rows]; [done|]. intros _ H. simpl.
  pose proof (second_derivative_term_neg v row (H row (or_introl eq_refl))).
  pose proof (second_derivative_sum_nonpos v rows). unfold Rsum in *. lra.
Qed.

Lemma derivative_sum_sign v rows :
  ((forall row, In row rows -> row_was_correct row = Some true) ->
   ((forall row, In row rows -> (0 <= row_discrimination row)%Z) ->
      0 <= Rsum (map (derivative_term v) rows))
   /\ (rows <> [] -> (forall row, In row rows -> (0 < row_discrimination row)%Z) ->
      0 < Rsum (map (derivative_term v) rows)))
  /\ ((forall row, In row rows -> row_was_correct row <> Some true) ->
   ((forall row, In row rows -> (0 <= row_discrimination row)%Z) ->
      Rsum (map (derivative_term v) rows) <= 0)
   /\ (rows <> [] -> (forall row, In row rows -> (0 < row_discrimination row)%Z) ->
      Rsum (map (derivative_term v) rows) < 0)).
Proof.
  split; intros Hc; split.
  - intros Ha. apply Rsum_nonneg. intros x Hx. apply in_map_iff in Hx as (row & <- & Hr).
    by apply (derivative_term_correct v row (Hc row Hr)), Ha.
  - intros Hne Ha. apply Rsum_pos; [by destruct rows|].
    intros x Hx. apply in_map_iff in Hx as (row & <- & Hr).
    by apply (derivative_term_correct v row (Hc row Hr)), Ha.
  - intros Ha.
    assert (0 <= Rsum (map Ropp (map (derivative_term v) rows))) as H.
    { apply Rsum_nonneg. intros x Hx. apply in_map_iff in Hx as (y & <- & Hy).
      apply in_map_iff in Hy as (row & <- & Hr).
      pose proof (proj1 (derivative_term_incorrect v row (Hc row Hr)) (Ha row Hr)). lra. }
    rewrite Rsum_opp in H. lra.
  - intros Hne Ha.
    assert (0 < Rsum (map Ropp (map (derivative_term v) rows))) as H.
    { apply Rsum_pos; [by destruct rows|]. intros x Hx.
      apply in_map_iff in Hx as (y & <- & Hy).
      apply in_map_iff in Hy as (row & <- & Hr).
      pose proof (proj2 (derivative_term_incorrect v row (Hc row Hr)) (Ha row Hr)). lra. }
    rewrite Rsum_opp in H. lra.
Qed.

Lemma SIGN_nonneg x : 0 <= x -> 0 <= SIGN x.
Proof. intros H. unfold SIGN. case_Rdec; lra. Qed.

Lemma SIGN_nonpos x : x <= 0 -> SIGN x <= 0.
Proof. intros H. unfold SIGN. case_Rdec; lra. Qed.

(** One pass of the loop moves the ability in the direction of the first
    derivative's sign. *)
Lemma mle_update_direction rows v (D1 := Rsum (map (derivative_term v) rows))
    (D2 := Rsum (map (second_derivative_term v) rows)) :
  -4 <= v <= 4 ->
  (0 <= D1 -> v <= mle_update rows v)
  /\ (D1 <= 0 -> mle_update rows v <= v)
  /\ (0 < D1 -> D2 < 0 -> v < 4 -> v < mle_update rows v)
  /\ (D1 < 0 -> D2 < 0 -> -4 < v -> mle_update rows v < v).
Proof.
  intros Hv. pose proof (second_derivative_sum_nonpos v rows) as H2. fold D2 in H2.
  rewrite mle_update_sums. fold D1 D2.
  assert (forall d, d < 0 -> / d < 0) as Hinv by (intros d Hd; by apply Rinv_lt_0_compat).
  split; [|split; [|split]].
  - intros H1. apply Rle_trans with (bound_ability v);
      [rewrite bound_ability_inside by done; lra | apply bound_ability_mono].
    destruct (Req_dec_T D2 0) as [_|Hne].
    + pose proof (SIGN_nonneg D1 H1). unfold v_step. lra.
    + assert (D2 < 0) as Hneg by lra. specialize (Hinv D2 Hneg).
      unfold Rdiv. assert (D1 * / D2 <= 0) by nra. lra.
  - intros H1. apply Rle_trans with (bound_ability v);
      [apply bound_ability_mono | rewrite bound_ability_inside by done; lra].
    destruct (Req_dec_T D2 0) as [_|Hne].
    + pose proof (SIGN_nonpos D1 H1). unfold v_step. lra.
    + assert (D2 < 0) as Hneg by lra. specialize (Hinv D2 Hneg).
      unfold Rdiv. assert (0 <= D1 * / D2) by nra. lra.
  - intros H1 Hneg H4. destruct (Req_dec_T D2 0) as [Heq|_]; [lra|].
    specialize (Hinv D2 Hneg). apply bound_ability_strict; [|lra|lra].
    unfold Rdiv. assert (D1 * / D2 < 0) by nra. lra.
  - intros H1 Hneg H4. destruct (Req_dec_T D2 0) as [Heq|_]; [lra|].
    specialize (Hinv D2 Hneg).
    assert (0 < D1 * / D2) as Hq by nra.
    unfold Rdiv, bound_ability.
    destruct (Rlt_dec (v - D1 * / D2) (-4)); case_Rdec; lra.
Qed.

Lemma mle_iterate_in_range rows start k :
  -4 <= start <= 4 -> -4 <= mle_iterate rows start k <= 4.
Proof. intros H. destruct k; [done|]. apply mle_update_range. Qed.

(** X6: starting from an ability in [-4, 4] and with discriminations that
    are not negative, a log in which every row is marked correct never
    lowers the ability, and a log in which no row is marked correct (unset
    marks included) never raises it; with at least one row and positive
    discriminations the ability moves strictly, unless it already sits on
    the bound. *)
Theorem estimate_moves_with_the_answers
    (rows : list mle_row) (start theta : R) (n : nat) :
  -4 <= start <= 4 ->
  estimate_ability_mle_loop rows start = (theta, n) ->
  ((forall row, In row rows -> row_was_correct row = Some true) ->
     ((forall row, In row rows -> (0 <= row_discrimination row)%Z) -> start <= theta)
     /\ (rows <> [] -> (forall row, In row rows -> (0 < row_discrimination row)%Z) ->
         start < 4 -> start < theta))
  /\ ((forall row, In row rows -> row_was_correct row <> Some true) ->
     ((forall row, In row rows -> (0 <= row_discrimination row)%Z) -> theta <= start)
     /\ (rows <> [] -> (forall row, In row rows -> (0 < row_discrimination row)%Z) ->
         -4 < start -> theta < start)).
Proof.
  intros Hstart Hloop.
  destruct (estimate_ability_mle_loop_trace rows start)
    as (n' & _ & Heq & _ & _ & Hentered).
  rewrite Hloop in Heq. injection Heq as -> ->.
  assert (Rabs (start - -999) > 0.001) as Hgo by (rewrite Rabs_right; lra).
  destruct (Hentered Hgo) as [Hn _]. clear Hentered Hgo Hloop.
  assert (forall row, (0 < row_discrimination row)%Z -> (0 <= row_discrimination row)%Z)
    as Hweak by (intros; lia).
  split; intros Hmarks; split.
  - intros Ha. clear Hn. induction n' as [|k IH]; simpl; [lra|].
    pose proof (mle_iterate_in_range rows start k Hstart) as Hk.
    destruct (mle_update_direction rows (mle_iterate rows start k) Hk) as (Hup & _).
    pose proof (proj1 (proj1 (derivative_sum_sign (mle_iterate rows start k) rows) Hmarks) Ha).
    specialize (Hup ltac:(done)). lra.
  - intros Hne Ha H4. destruct n' as [|k]; [lia|]. clear Hn.
    induction k as [|k IH].
    + simpl. destruct (mle_update_direction rows start Hstart) as (_ & _ & Hup & _).
      apply Hup; [|by apply second_derivative_sum_neg|done].
      by apply (proj1 (derivative_sum_sign start rows) Hmarks).
    + pose proof (mle_iterate_in_range rows start (S k) Hstart) as Hk.
      destruct (mle_update_direction rows (mle_iterate rows start (S k)) Hk) as (Hup & _).
      assert (0 <= Rsum (map (derivative_term (mle_iterate rows start (S k))) rows)) as Hd
        by (apply (proj1 (derivative_sum_sign _ rows) Hmarks); intros; by apply Hweak, Ha).
      specialize (Hup Hd). change (mle_iterate rows start (S (S k)))
        with (mle_update rows (mle_iterate rows start (S k))). lra.
  - intros Ha. clear Hn. induction n' as [|k IH]; simpl; [lra|].
    pose proof (mle_iterate_in_range rows start k Hstart) as Hk.
    destruct (mle_update_direction rows (mle_iterate rows start k) Hk) as (_ & Hdown & _).
    pose proof (proj1 (proj2 (derivative_sum_sign (mle_iterate rows start k) rows) Hmarks) Ha).
    specialize (Hdown ltac:(done)). lra.
  - intros Hne Ha H4. destruct n' as [|k]; [lia|]. clear Hn.
    induction k as [|k IH].
    + simpl. destruct (mle_update_direction rows start Hstart) as (_ & _ & _ & Hdown).
      apply Hdown; [|by apply second_derivative_sum_neg|done].
      by apply (proj2 (derivative_sum_sign start rows) Hmarks).
    + pose proof (mle_iterate_in_range rows start (S k) Hstart) as Hk.
      destruct (mle_update_direction rows (mle_iterate rows start (S k)) Hk)
        as (_ & Hdown & _).
      assert (Rsum (map (derivative_term (mle_iterate rows start (S k))) rows) <= 0) as Hd
        by (apply (proj2 (derivative_sum_sign _ rows) Hmarks); intros; by apply Hweak, Ha).
      specialize (Hdown Hd). change (mle_iterate rows start (S (S k)))
        with (mle_update rows (mle_iterate rows start (S k))). lra.
Qed.

Lemma estimate_moves_with_the_answers_witness :
  0 < fst (estimate_ability_mle_loop
             [ {| row_was_correct := Some true; row_discrimination := 100;
                  row_difficulty := 0; row_guessing := 20 |} ] 0).
Proof.
  assert (-4 <= 0 <= 4) as Hstart by lra.
  destruct (estimate_ability_mle_loop
              [ {| row_was_correct := Some true; row_discrimination := 100;
                   row_difficulty := 0; row_guessing := 20 |} ] 0) as [theta n] eqn:Hloop.
  destruct (estimate_moves_with_the_answers _ 0 theta n Hstart Hloop) as [Hup _].
  simpl. apply Hup.
  - intros row [<-|[]]. reflexivity.
  - discriminate.
  - intros row [<-|[]]. simpl. lia.
  - lra.
Defined.

End EstimatorDirection.
(** ** Scoring engine *)

Module ScoringExtras.
Import Numeric Scoring ScoringFacts.

(** X7: in every format that is neither 'Multiple Choice' nor 'Select All
    That Apply' with partial scoring, the answer is marked either correct
    with score 1 or incorrect with score 0, out of 1.  For a response
    without [NULL]s it is correct exactly when the response contains the id
    of every correct option and of no incorrect one.  A [NULL] response is
    always correct, and a response with a [NULL] element is correct exactly
    when it contains the id of no incorrect option. *)
Theorem exact_set_scoring
    (v_question_format : string) (v_use_partial_scoring : bool)
    (opts : list answer) (resp : text_array) :
  v_question_format <> "Multiple Choice" ->
  ~ (v_question_format = "Select All That Apply" /\ v_use_partial_scoring = true) ->
  exists v_is_correct : bool,
    score_response v_question_format v_use_partial_scoring opts resp
    = (Some v_is_correct,
       (if v_is_correct then numeric_of_int 1 else numeric_of_int 0),
       numeric_of_int 1)
    /\ (forall l, resp = Some l -> ~ In None l ->
          (v_is_correct = true
           <-> forall a, In a opts ->
                 (In (Some (id_text (answer_id a))) l <-> is_correct a = true)))
    /\ (resp = None -> v_is_correct = true)
    /\ (forall l, resp = Some l -> In None l ->
          (v_is_correct = true
           <-> forall a, In a opts -> is_correct a = false ->
                 ~ In (Some (id_text (answer_id a))) l)).
Proof.
  intros HMC HSATA. unfold score_response.
  apply String.eqb_neq in HMC. rewrite HMC.
  assert (String.eqb v_question_format "Select All That Apply" && v_use_partial_scoring
          = false) as ->.
  { apply not_true_is_false. intros H. apply andb_prop in H as [H1 H2].
    apply String.eqb_eq in H1. by apply HSATA. }
  set (missing := existsb (fun a => is_correct a
                                    && holds (ne_all (id_text (answer_id a)) resp)) opts).
  set (wrong := existsb (fun a => negb (is_correct a)
                                  && holds (eq_any (id_text (answer_id a)) resp)) opts).
  assert (missing = true
          <-> exists a, In a opts /\ is_correct a = true
                        /\ holds (ne_all (id_text (answer_id a)) resp) = true) as Hmissing.
  { unfold missing. rewrite existsb_exists. split.
    - intros (a & Ha & Hb). apply andb_prop in Hb as [H1 H2]. eauto.
    - intros (a & Ha & H1 & H2). exists a. by rewrite H1, H2. }
  assert (wrong = true
          <-> exists a, In a opts /\ is_correct a = false
                        /\ holds (eq_any (id_text (answer_id a)) resp) = true) as Hwrong.
  { unfold wrong. rewrite existsb_exists. split.
    - intros (a & Ha & Hb). apply andb_prop in Hb as [H1 H2].
      apply negb_true_iff in H1. eauto.
    - intros (a & Ha & H1 & H2). exists a. by rewrite H1, H2. }
  exists (negb missing && negb wrong). split; [by destruct missing, wrong|].
  assert (negb missing && negb wrong = true
          <-> ~ (exists a, In a opts /\ is_correct a = true
                           /\ holds (ne_all (id_text (answer_id a)) resp) = true)
              /\ ~ (exists a, In a opts /\ is_correct a = false
                              /\ holds (eq_any (id_text (answer_id a)) resp) = true))
    as Hv.
  { rewrite andb_true_iff, !negb_true_iff, <- !not_true_iff_false.
    by rewrite Hmissing, Hwrong. }
  clearbody missing wrong. clear Hmissing Hwrong.
  split; [|split].
  - (* no NULL in the response *)
    intros l -> Hnn. rewrite Hv. split.
    + intros [H1 H2] a Ha. split.
      * intros Hin. destruct (is_correct a) eqn:Hc; [done|]. exfalso. apply H2.
        exists a. split; [done|]. split; [done|]. apply holds_eq_any. eauto.
      * intros Hc. destruct (decide (Some (id_text (answer_id a)) ∈ l)) as [Hin|Hout];
          [by apply list_elem_of_In|rewrite list_elem_of_In in Hout].
        exfalso. apply H1.
        exists a. split; [done|]. split; [done|]. apply holds_ne_all. eauto.
    + intros Hall. split.
      * intros (a & Ha & Hc & Hne). apply holds_ne_all in Hne as (l' & [= <-] & Hout & _).
        apply Hout. by apply (Hall a Ha).
      * intros (a & Ha & Hc & Heq). apply holds_eq_any in Heq as (l' & [= <-] & Hin).
        apply (Hall a Ha) in Hin. congruence.
  - (* the NULL response *)
    intros ->. apply Hv. split.
    + by intros (a & _ & _ & H).
    + by intros (a & _ & _ & H).
  - (* a NULL element *)
    intros l -> Hnull. rewrite Hv. split.
    + intros [_ H2] a Ha Hc Hin. apply H2.
      exists a. split; [done|]. split; [done|]. apply holds_eq_any. eauto.
    + intros Hall. split.
      * intros (a & Ha & Hc & Hne). by apply holds_ne_all in Hne as (l' & [= <-] & _ & Hnn).
      * intros (a & Ha & Hc & Heq). apply holds_eq_any in Heq as (l' & [= <-] & Hin).
        by apply (Hall a Ha Hc).
Qed.

Lemma exact_set_scoring_witness :
  score_response "Select All That Apply" false (answers_of Examples.sample_answers 3)
    (Some [Some "31"; Some "32"]) = (Some true, numeric_of_int 1, numeric_of_int 1)
  /\ score_response "Select All That Apply" false (answers_of Examples.sample_answers 3)
       (Some [None]) = (Some true, numeric_of_int 1, numeric_of_int 1).
Proof.
  assert ("Select All That Apply" <> "Multiple Choice") as H1 by discriminate.
  assert (~ ("Select All That Apply" = "Select All That Apply" /\ false = true)) as H2
    by (by intros [_ H]).
  split.
  - destruct (exact_set_scoring "Select All That Apply" false
                (answers_of Examples.sample_answers 3) (Some [Some "31"; Some "32"]) H1 H2)
      as (v & Hscore & Hfree & _).
    assert (v = true) as ->; [|exact Hscore].
    apply (Hfree _ eq_refl).
    + intros [H|[H|[]]]; discriminate H.
    + intros a Ha. vm_compute in Ha.
      destruct Ha as [<-|[<-|[<-|[]]]]; simpl; split; auto; try discriminate.
      intros [H|[H|[]]]; discriminate H.
  - destruct (exact_set_scoring "Select All That Apply" false
                (answers_of Examples.sample_answers 3) (Some [None]) H1 H2)
      as (v & Hscore & _ & _ & Hnull).
    assert (v = true) as ->; [|exact Hscore].
    apply (Hnull _ eq_refl); [by left|].
    intros a _ _ [H|[]]. discriminate H.
Defined.

(** X8: a 'Multiple Choice' answer is scored on the first element of the
    response alone.  When the response has no first element (it is [NULL]
    or empty, or the element is [NULL]) or its first element is the id of
    none of the question's options, the score is 0 out of 1 and the
    correctness is left unset (NULL); when it is the id of an option, the
    correctness is that option's flag, whatever else the response holds. *)
Theorem multiple_choice_looks_at_first_element
    (v_use_partial_scoring : bool) (opts : list answer) :
  score_response "Multiple Choice" v_use_partial_scoring opts (Some [])
    = (None, numeric_of_int 0, numeric_of_int 1)
  /\ (forall resp,
        first_element resp = None ->
        score_response "Multiple Choice" v_use_partial_scoring opts resp
        = (None, numeric_of_int 0, numeric_of_int 1))
  /\ (forall r rest,
        (forall a, In a opts -> id_text (answer_id a) <> r) ->
        score_response "Multiple Choice" v_use_partial_scoring opts (Some (Some r :: rest))
        = (None, numeric_of_int 0, numeric_of_int 1))
  /\ (forall a rest,
        NoDup (map answer_id opts) -> In a opts ->
        score_response "Multiple Choice" v_use_partial_scoring opts
          (Some (Some (id_text (answer_id a)) :: rest))
        = (Some (is_correct a),
           (if is_correct a then numeric_of_int 1 else numeric_of_int 0),
           numeric_of_int 1)).
Proof.
  split; [reflexivity|]. split; [|split].
  - intros resp Hnone. unfold score_response.
    change (String.eqb "Multiple Choice" "Multiple Choice") with true. cbv iota.
    by rewrite Hnone.
  - intros r rest Hnone. unfold score_response.
    change (String.eqb "Multiple Choice" "Multiple Choice") with true. cbv iota.
    change (first_element (Some (Some r :: rest))) with (Some r). cbv beta iota.
    destruct (List.find _ opts) as [a|] eqn:Hf; [|reflexivity].
    apply find_some in Hf as [Ha Heq]. apply String.eqb_eq in Heq. by destruct (Hnone a Ha).
  - intros a rest Hnd Ha. unfold score_response.
    change (String.eqb "Multiple Choice" "Multiple Choice") with true. cbv iota.
    change (first_element (Some (Some (id_text (answer_id a)) :: rest)))
      with (Some (id_text (answer_id a))).
    cbv beta iota. rewrite (find_option_by_text opts a Hnd Ha). simpl.
    by destruct (is_correct a).
Qed.

Lemma multiple_choice_looks_at_first_element_witness :
  score_response "Multiple Choice" false (answers_of Examples.sample_answers 1)
    (Some [Some "99"])
  = (None, numeric_of_int 0, numeric_of_int 1).
Proof.
  refine (proj1 (proj2 (proj2 (multiple_choice_looks_at_first_element false
                                 (answers_of Examples.sample_answers 1)))) "99" [] _).
  intros a Ha. vm_compute in Ha. destruct Ha as [<-|[<-|[]]]; vm_compute; discriminate.
Defined.

Lemma partial_term_bounds resp a :
  0 <= partial_credit a -> 0 <= penalty_value a ->
  partial_term resp a <= (if is_correct a then partial_credit a else 0).
Proof.
  intros Hc Hp. unfold partial_term, ne_all.
  destruct (eq_any _ resp) as [[|]|]; destruct (is_correct a); simpl; lia.
Qed.

(** X9: with partial scoring, when no credit and no penalty is negative, no
    response to a 'Select All That Apply' question scores below 0 or above
    the summed credit of the correct options, the score of the exact
    selection; the maximum is the number of correct options and the answer
    is correct exactly when the score equals it. *)
Theorem sata_partial_score_bounds (opts : list answer) (resp : text_array) :
  (forall a, In a opts -> 0 <= partial_credit a /\ 0 <= penalty_value a) ->
  exists v_score,
    score_response "Select All That Apply" true opts resp
    = (Some (v_score =? correct_count opts), v_score, correct_count opts)
    /\ 0 <= v_score <= correct_credit opts.
Proof.
  intros Hnn. exists (Z.max (partial_sum resp opts) 0). split; [reflexivity|].
  assert (partial_sum resp opts <= correct_credit opts /\ 0 <= correct_credit opts) as [H1 H2];
    [|lia].
  unfold partial_sum, correct_credit.
  induction opts as [|a opts IH]; simpl; [lia|].
  destruct (Hnn a (or_introl eq_refl)) as [Hc Hp].
  destruct (IH (fun b Hb => Hnn b (or_intror Hb))) as [IH1 IH2].
  pose proof (partial_term_bounds resp a Hc Hp).
  destruct (is_correct a); simpl; lia.
Qed.

Lemma sata_partial_score_bounds_witness :
  exists v_score,
    score_response "Select All That Apply" true (answers_of Examples.sample_answers 3)
      (Some [Some "31"; Some "33"])
    = (Some (v_score =? correct_count (answers_of Examples.sample_answers 3)), v_score,
       correct_count (answers_of Examples.sample_answers 3))
    /\ 0 <= v_score <= correct_credit (answers_of Examples.sample_answers 3).
Proof.
  apply sata_partial_score_bounds.
  intros a Ha. vm_compute in Ha.
  destruct Ha as [<-|[<-|[<-|[]]]]; vm_compute; split; discriminate.
Defined.

End ScoringExtras.

(** ** [submit_test_answer] *)

Module TestAnswerExtras.
Import Numeric TriggerFacts ProcedureFacts SubmitFacts.
Local Open Scope list_scope.

(** X10: [submit_test_answer] accepts no answer: every call raises and
    leaves the tables as they were.  The exception is that of the first
    check exactly when the caller is not signed in or does not own a test
    of that id. *)
Theorem submit_test_answer_always_raises
    (auth_uid : option uuid) (tid q : Z) (resp : text_array) (t : Z) (fl : bool)
    (db : database) :
  exists m,
    raised (submit_test_answer auth_uid tid q resp t fl db) = Some m
    /\ same_tables db (fst (run_txn (submit_test_answer auth_uid tid q resp t fl) db))
    /\ snd (run_txn (submit_test_answer auth_uid tid q resp t fl) db) = None
    /\ (m = "Test not found or does not belong to the current user"
        <-> ~ exists u te, auth_uid = Some u /\ tests db !! tid = Some te
                          /\ test_user_id te = Some u).
Proof.
  assert (exists m,
            raised (submit_test_answer auth_uid tid q resp t fl db) = Some m
            /\ (m = "Test not found or does not belong to the current user"
                <-> ~ exists u te, auth_uid = Some u /\ tests db !! tid = Some te
                                  /\ test_user_id te = Some u)) as (m & Hm & Hiff).
  { unfold submit_test_answer.
    destruct auth_uid as [u|]; [|eexists; split; [reflexivity|]; split; [|done];
                                 by intros _ (u & te & H & _)].
    destruct (tests db !! tid) as [te|] eqn:Hte;
      [|eexists; split; [reflexivity|]; split; [|done]; by intros _ (u' & te & _ & H & _)].
    destruct (test_user_id te) as [v|] eqn:Hv;
      [|eexists; split; [reflexivity|]; split; [|done];
        intros _ (u' & te' & _ & [= <-] & H); congruence].
    simpl. destruct (Z.eqb_spec v u) as [->|Hne]; simpl;
      [|eexists; split; [reflexivity|]; split; [|done];
        intros _ (u' & te' & [= <-] & [= <-] & H); congruence].
    assert (exists u0 te0, Some u = Some u0 /\ Some te = Some te0
                           /\ test_user_id te0 = Some u0) as Hown by eauto.
    destruct (questions db !! q) as [qu|] eqn:Hqu;
      [|eexists; split; [reflexivity|]; split; [discriminate|done]].
    destruct (negb _);
      [eexists; split; [reflexivity|]; split; [discriminate|done]|].
    destruct (Scoring.score_response _ _ _ _) as [[w sc] mx].
    destruct (record_attempt_spec u q w db) as [uqs ->].
    destruct (existsb _ _);
      [eexists; split; [reflexivity|]; split; [discriminate|done]|].
    destruct (existsb _ _);
      [eexists; split; [reflexivity|]; split; [discriminate|done]|].
    match goal with
    | |- context [update_user_statistics ?N ?d] =>
        rewrite (update_user_statistics_existing N d qu) by exact Hqu
    end.
    eexists; split; [reflexivity|]; split; [discriminate|done]. }
  exists m. split; [exact Hm|].
  destruct (run_txn_raised (submit_test_answer auth_uid tid q resp t fl) db m Hm)
    as [Hsame Hnone].
  split; [exact Hsame|]. split; [exact Hnone | exact Hiff].
Qed.

(** X11: a call of [submit_test_answer] by the owner of the test, for a
    question of the bank whose score fits, gets as far as the insert into
    [test_results]: the insert draws an id, and the id stays drawn although
    the call is rolled back.  A call that fails the first check draws
    none. *)
Theorem submit_test_answer_draws_an_id
    (u : uuid) (tid q : Z) (resp : text_array) (t : Z) (fl : bool)
    (db : database) (te : test) (qu : question) :
  tests db !! tid = Some te -> test_user_id te = Some u ->
  questions db !! q = Some qu ->
  Scoring.fits_numeric_5_2 (question_format qu) (use_partial_scoring qu)
    (Scoring.answers_of (answers db) q) resp = true ->
  (test_results_id_seq (fst (run_txn (submit_test_answer (Some u) tid q resp t fl) db))
   = test_results_id_seq db + 1
   /\ same_tables db (fst (run_txn (submit_test_answer (Some u) tid q resp t fl) db)))
  /\ (forall v, v <> u ->
        fst (run_txn (submit_test_answer (Some v) tid q resp t fl) db) = db)
  /\ fst (run_txn (submit_test_answer None tid q resp t fl) db) = db.
Proof.
  intros Hte Hu Hqu Hfit. split; [|split].
  - unfold run_txn.
    destruct (submit_test_answer_outcome (Some u) tid q resp t fl db)
      as [[m Hm]|(m & d & -> & Hd)];
      [|split; [exact (f_equal test_results_id_seq Hd) | apply same_tables_keep_sequences]].
    exfalso. revert Hm. unfold submit_test_answer.
    rewrite Hte, Hu. simpl. rewrite Z.eqb_refl. simpl. rewrite Hqu, Hfit. simpl.
    destruct (Scoring.score_response _ _ _ _) as [[w sc] mx].
    destruct (record_attempt_spec u q w db) as [uqs ->].
    destruct (existsb _ _); [done|]. destruct (existsb _ _); [done|].
    match goal with
    | |- context [update_user_statistics ?N ?d] =>
        rewrite (update_user_statistics_existing N d qu) by exact Hqu
    end.
    done.
  - intros v Hv. unfold run_txn, submit_test_answer. rewrite Hte, Hu. simpl.
    apply Z.eqb_neq in Hv. rewrite Z.eqb_sym, Hv. reflexivity.
  - reflexivity.
Qed.

Lemma submit_test_answer_draws_an_id_witness :
  test_results_id_seq
    (fst (run_txn (submit_test_answer (Some 7) 1 1 (Some [Some "11"]) 30 false)
            Examples.in_flight)) = 2
  /\ test_results
       (fst (run_txn (submit_test_answer (Some 7) 1 1 (Some [Some "11"]) 30 false)
               Examples.in_flight)) = [].
Proof.
  destruct (proj1 (submit_test_answer_draws_an_id 7 1 1 (Some [Some "11"]) 30 false
                       Examples.in_flight Examples.sample_test
                       {| topic := "Pharmacology"; sub_topic := "Dosage";
                          question_format := "Multiple Choice";
                          use_partial_scoring := false |}
                       eq_refl eq_refl eq_refl eq_refl)) as [Hdrawn Hsame].
  split; [exact Hdrawn|].
  destruct Hsame as (_ & _ & _ & _ & _ & _ & Hresults & _). exact Hresults.
Defined.

(** X12: [get_next_cat_question] and [submit_cat_answer] raise for a
    signed-in caller who is not the user of the session, and the database
    stays as it was; a caller who is not signed in passes the check, and
    [get_next_cat_question] serves that caller like the user of the
    session.  For a session id without a row [submit_cat_answer] raises
    and writes nothing, and [get_next_cat_question] raises at its insert,
    with one id of [cat_question_selections] drawn. *)
Theorem cat_procedures_reject_other_callers
    (RANDOM : forall A : Type, list A -> list A)
    (sid qid : Z) (resp : text_array) (t : Z) (db : database) :
  (forall u v s,
      cat_sessions db !! sid = Some s -> session_user_id s = Some v -> u <> v ->
      get_next_cat_question RANDOM (Some u) sid db
      = Raise "Not authorized to access this CAT session"
      /\ submit_cat_answer (Some u) sid qid resp t db
         = Raise "Not authorized to submit answers for this CAT session"
      /\ database_after RANDOM (CallGetNext (Some u) sid) db = db
      /\ database_after RANDOM (CallSubmit (Some u) sid qid resp t) db = db)
  /\ (forall s,
        cat_sessions db !! sid = Some s ->
        get_next_cat_question RANDOM None sid db
        = get_next_cat_question RANDOM (session_user_id s) sid db
        /\ submit_cat_answer None sid qid resp t db
           = Raise "Test not found or does not belong to the current user")
  /\ (cat_sessions db !! sid = None ->
      forall auth_uid,
        get_next_cat_question RANDOM auth_uid sid db
        = RaiseAfter "null value in column position violates not-null constraint"
            (with_cat_question_selections db (cat_question_selections db)
               (cat_question_selections_id_seq db + 1))
        /\ database_after RANDOM (CallGetNext auth_uid sid) db
           = with_cat_question_selections db (cat_question_selections db)
               (cat_question_selections_id_seq db + 1)
        /\ submit_cat_answer auth_uid sid qid resp t db
           = Raise "Test not found or does not belong to the current user"
        /\ database_after RANDOM (CallSubmit auth_uid sid qid resp t) db = db).
Proof.
  split; [|split].
  - intros u v s Hs Hv Hne.
    assert (holds (sql_ne (Some u) (session_user_id s)) = true) as Hfire.
    { rewrite Hv. simpl. apply Z.eqb_neq in Hne. by rewrite Hne. }
    assert (get_next_cat_question RANDOM (Some u) sid db
            = Raise "Not authorized to access this CAT session") as H1
      by (unfold get_next_cat_question; by rewrite Hs, Hfire).
    assert (submit_cat_answer (Some u) sid qid resp t db
            = Raise "Not authorized to submit answers for this CAT session") as H2
      by (unfold submit_cat_answer; by rewrite Hs, Hfire).
    split; [exact H1|]. split; [exact H2|]. simpl. unfold run_txn. by rewrite H1, H2.
  - intros s Hs. split.
    + unfold get_next_cat_question. rewrite Hs.
      assert (holds (sql_ne (session_user_id s) (session_user_id s)) = false) as ->.
      { destruct (session_user_id s) as [v|]; [|done]. simpl. by rewrite Z.eqb_refl. }
      reflexivity.
    + unfold submit_cat_answer. rewrite Hs. reflexivity.
  - intros Hs auth_uid.
    assert (get_next_cat_question RANDOM auth_uid sid db
            = RaiseAfter "null value in column position violates not-null constraint"
                (with_cat_question_selections db (cat_question_selections db)
                   (cat_question_selections_id_seq db + 1))) as H1
      by (unfold get_next_cat_question; by rewrite Hs).
    assert (submit_cat_answer auth_uid sid qid resp t db
            = Raise "Test not found or does not belong to the current user") as H2
      by (unfold submit_cat_answer; by rewrite Hs).
    split; [exact H1|]. simpl. unfold run_txn. rewrite H1, H2. by repeat split.
Qed.

End TestAnswerExtras.

(** ** Invariants of the engine across calls *)

Module EngineEffects.
Import Numeric TriggerFacts ProcedureFacts SelectorFacts.
Local Open Scope list_scope.

(** *** What each procedure does to the sessions, the log and the pools *)

Lemma get_next_cat_question_effect RANDOM u sid db r db' :
  get_next_cat_question RANDOM u sid db = Return r db' ->
  exists s,
    cat_sessions db !! sid = Some s
    /\ test_questions db' = test_questions db
    /\ questions db' = questions db
    /\ ((exists d,
           cat_sessions db' = <[sid := set_session_status s d]> (cat_sessions db)
           /\ cat_question_selections db' = cat_question_selections db
           /\ cat_question_selections_id_seq db' = cat_question_selections_id_seq db)
        \/ (exists m,
              questions_answered s < max_questions s
              /\ cat_sessions db'
                 = <[sid := set_questions_answered s (questions_answered s + 1)]>
                     (cat_sessions db)
              /\ cat_question_selections db'
                 = cat_question_selections db
                   ++ [recorded db sid s (chosen_question RANDOM db sid s) m]
              /\ cat_question_selections_id_seq db'
                 = cat_question_selections_id_seq db + 1)).
Proof.
  unfold get_next_cat_question. intros H.
  destruct (cat_sessions db !! sid) as [s|] eqn:Hs; [|done].
  destruct (holds _); [done|].
  exists s. split; [done|].
  destruct (negb _).
  { injection H as <- <-. repeat split. left. exists (status s).
    rewrite insert_id; [done|]. rewrite Hs. by destruct s. }
  destruct (Z.leb_spec (max_questions s) (questions_answered s)) as [Hmax|Hmax].
  { rewrite update_cat_sessions_spec, Hs, update_tests_spec in H. simpl in H.
    destruct (tests db !! session_test_id s); [done|].
    injection H as <- <-. repeat split. left. eauto. }
  destruct (if min_questions s <=? questions_answered s then _ else _).
  { rewrite update_cat_sessions_spec, Hs, update_tests_spec in H. simpl in H.
    destruct (tests db !! session_test_id s); [done|].
    injection H as <- <-. repeat split. left. eauto. }
  destruct (scan_shortlist _ _) as [m found] eqn:Hscan.
  destruct (cast_numeric_5_2 m) as [iv|] eqn:Hcast; [|done].
  destruct (existsb _ _); [done|].
  rewrite update_cat_sessions_spec in H. simpl in H. rewrite Hs in H.
  injection H as <- <-. repeat split. right. exists m.
  apply NumericFacts.cast_numeric_5_2_Some in Hcast as [-> _].
  unfold chosen_question, recorded. rewrite Hscan. simpl. done.
Qed.

(** A call that raises after a draw has only advanced sequences. *)
Lemma get_next_cat_question_draws RANDOM u sid db m db' :
  get_next_cat_question RANDOM u sid db = RaiseAfter m db' ->
  cat_question_selections_id_seq db <= cat_question_selections_id_seq db'.
Proof.
  unfold get_next_cat_question. intros H.
  destruct (cat_sessions db !! sid) as [s|] eqn:Hs;
    [|injection H as _ <-; simpl; lia].
  destruct (holds _); [done|].
  destruct (negb _); [done|].
  destruct (if max_questions s <=? questions_answered s then _ else _).
  { rewrite update_cat_sessions_spec, Hs, update_tests_spec in H. simpl in H.
    destruct (tests db !! session_test_id s); [|done].
    injection H as _ <-. simpl. lia. }
  destruct (scan_shortlist _ _) as [mi found].
  destruct (cast_numeric_5_2 mi); [|done].
  destruct (existsb _ _); [injection H as _ <-; simpl; lia|].
  rewrite update_cat_sessions_spec in H. done.
Qed.

Lemma submit_cat_answer_draws u sid q resp t db m db' :
  submit_cat_answer u sid q resp t db = RaiseAfter m db' ->
  cat_question_selections_id_seq db' = cat_question_selections_id_seq db.
Proof.
  intros H. destruct (submit_cat_answer_outcome u sid q resp t db)
    as [[m' Hm]|(m' & d & Hm & Hd)]; rewrite Hm in H; [done|].
  injection H as _ <-. exact (f_equal cat_question_selections_id_seq Hd).
Qed.

Lemma create_cat_test_draws RANDOM u ti tp mn mx ps db m db' :
  create_cat_test RANDOM u ti tp mn mx ps db = RaiseAfter m db' ->
  cat_question_selections_id_seq db' = cat_question_selections_id_seq db.
Proof.
  intros H. destruct (create_cat_test_outcome RANDOM u ti tp mn mx ps db)
    as [[m' Hm]|[(m' & d & Hm & Hd)|(_ & _ & Hm)]]; rewrite Hm in H; try done.
  injection H as _ <-. exact (f_equal cat_question_selections_id_seq Hd).
Qed.

(** A call of [create_cat_test] that returns has changed no table. *)
Lemma create_cat_test_effect RANDOM u ti tp mn mx ps db r db' :
  create_cat_test RANDOM u ti tp mn mx ps db = Return r db' ->
  cat_question_selections db' = cat_question_selections db
  /\ cat_question_selections_id_seq db' = cat_question_selections_id_seq db
  /\ questions db' = questions db
  /\ cat_sessions db' = cat_sessions db
  /\ test_questions db' = test_questions db.
Proof.
  intros H. destruct (create_cat_test_outcome RANDOM u ti tp mn mx ps db)
    as [[m' Hm]|[(m' & d & Hm & Hd)|(_ & _ & Hm)]]; rewrite Hm in H; try done.
  by injection H as _ <-.
Qed.

(** *** Lists *)

Lemma filter_map_commute {A} (p : A -> bool) (f : A -> A) (l : list A) :
  (forall x, p (f x) = p x) ->
  List.filter p (map f l) = map f (List.filter p l).
Proof.
  intros Hp. induction l as [|x l IH]; [done|]. simpl.
  rewrite Hp. destruct (p x); simpl; by rewrite IH.
Qed.

Lemma session_selections_snoc db db' sid r :
  cat_question_selections db' = cat_question_selections db ++ [r] ->
  session_selections db' sid
  = session_selections db sid ++ (if cat_session_id r =? sid then [r] else []).
Proof.
  intros H. unfold session_selections. rewrite H, List.filter_app. simpl.
  by destruct (_ =? _).
Qed.

Lemma session_selections_map db db' sid f :
  cat_question_selections db' = map f (cat_question_selections db) ->
  (forall x, cat_session_id (f x) = cat_session_id x) ->
  session_selections db' sid = map f (session_selections db sid).
Proof.
  intros H Hf. unfold session_selections. rewrite H.
  apply filter_map_commute. intros x. by rewrite Hf.
Qed.

Lemma session_selections_elem db sid r :
  r ∈ session_selections db sid <-> r ∈ cat_question_selections db /\ cat_session_id r = sid.
Proof.
  unfold session_selections. rewrite !list_elem_of_In, filter_In, Z.eqb_eq. done.
Qed.

Lemma session_selections_none db sid :
  (forall r, r ∈ cat_question_selections db -> cat_session_id r <> sid) ->
  session_selections db sid = [].
Proof.
  intros H. destruct (session_selections db sid) as [|r l] eqn:He; [done|].
  assert (r ∈ session_selections db sid) as Hr by (rewrite He; left).
  apply session_selections_elem in Hr as [Hr Hs]. by destruct (H r Hr).
Qed.

End EngineEffects.

Module EngineInvariants.
Import Numeric TriggerFacts ProcedureFacts SelectorFacts EngineEffects.
Local Open Scope list_scope.

Lemma session_selections_same db db' sid :
  cat_question_selections db' = cat_question_selections db ->
  session_selections db' sid = session_selections db sid.
Proof. intros H. unfold session_selections. by rewrite H. Qed.

Lemma seqZ_snoc (n : Z) : 0 <= n -> seqZ 1 (n + 1) = seqZ 1 n ++ [n + 1].
Proof.
  intros Hn. rewrite seqZ_app by lia. f_equal.
  replace (1 + n) with (n + 1) by lia. reflexivity.
Qed.

Lemma map_projection {A B} (g : A -> B) (f : A -> A) (l : list A) :
  (forall x, g (f x) = g x) -> map g (map f l) = map g l.
Proof. intros H. rewrite List.map_map. apply map_ext. exact H. Qed.

(** Drawing ids keeps the log consistent. *)
Lemma selection_log_consistent_keep (db db' : database) :
  selection_log_consistent db ->
  cat_question_selections_id_seq db <= cat_question_selections_id_seq db' ->
  selection_log_consistent (keep_sequences db db').
Proof.
  intros (Hids & Hnd & Hpos) Hle. split; [|split; [exact Hnd | exact Hpos]].
  intros r Hr. destruct (Hids r Hr) as [Hlt Hfk]. split; [simpl; lia | exact Hfk].
Qed.

(** The log stays consistent with the sessions across a call. *)
Lemma selection_log_consistent_step RANDOM (c : api_call) (db : database) :
  selection_log_consistent db -> selection_log_consistent (database_after RANDOM c db).
Proof.
  intros Hinv. pose proof Hinv as (Hids & Hnd & Hpos).
  destruct c as [u sid|u sid q resp t|u ti tp mn mx ps]; simpl; unfold run_txn.
  - destruct (get_next_cat_question _ _ _ _) as [r db'|m|m db'] eqn:Hcall; simpl;
      [|done|apply selection_log_consistent_keep;
             [done|by apply get_next_cat_question_draws in Hcall]].
    apply get_next_cat_question_effect in Hcall
      as (s & Hs & _ & _ & [(d & Hses & Hsel & Hseq)|(m & _ & Hses & Hsel & Hseq)]).
    + unfold selection_log_consistent. rewrite Hses, Hsel, Hseq.
      split; [|split; [done|]].
      * intros x Hx. destruct (Hids x Hx) as [Hlt Hfk]. split; [done|].
        apply lookup_insert_is_Some'. by right.
      * intros sid0 s0 Hs0. rewrite (session_selections_same db db' sid0 Hsel).
        apply lookup_insert_Some in Hs0 as [[<- <-]|[_ Hs0]]; [|by apply Hpos].
        simpl. by apply Hpos.
    + unfold selection_log_consistent. rewrite Hses, Hsel, Hseq.
      split; [|split].
      * intros x Hx. apply elem_of_app in Hx as [Hx|Hx].
        { destruct (Hids x Hx) as [Hlt Hfk]. split; [lia|].
          apply lookup_insert_is_Some'. by right. }
        apply list_elem_of_singleton in Hx as ->. simpl. split; [lia|].
        apply lookup_insert_is_Some'. by left.
      * rewrite List.map_app. simpl. apply NoDup_app. split; [done|]. split.
        { intros x Hx Hx'. apply list_elem_of_singleton in Hx' as ->.
          apply list_elem_of_In, in_map_iff in Hx as (y & He & Hy).
          apply list_elem_of_In in Hy. destruct (Hids y Hy) as [Hlt _]. lia. }
        apply NoDup_singleton.
      * intros sid0 s0 Hs0.
        rewrite (session_selections_snoc db db' sid0 _ Hsel). simpl.
        apply lookup_insert_Some in Hs0 as [[<- <-]|[Hne Hs0]].
        { destruct (Hpos sid s Hs) as [H0 Hp]. simpl. split; [lia|].
          rewrite Z.eqb_refl, List.map_app, Hp, seqZ_snoc by done. reflexivity. }
        apply Z.eqb_neq in Hne. rewrite Hne, app_nil_r. by apply Hpos.
  - destruct (submit_cat_answer _ _ _ _ _ _) as [r db'|m|m db'] eqn:Hcall; simpl;
      [|done|apply selection_log_consistent_keep;
             [done|apply submit_cat_answer_draws in Hcall; lia]].
    by apply submit_cat_answer_never_returns in Hcall.
  - destruct (create_cat_test _ _ _ _ _ _ _ _) as [r db'|m|m db'] eqn:Hcall; simpl;
      [|done|apply selection_log_consistent_keep;
             [done|apply create_cat_test_draws in Hcall; lia]].
    apply create_cat_test_effect in Hcall as (Hsel & Hseq & _ & Hses & _).
    unfold selection_log_consistent. rewrite Hses, Hsel, Hseq.
    split; [done|]. split; [done|]. intros sid0 s0 Hs0.
    rewrite (session_selections_same db db' sid0 Hsel). by apply Hpos.
Qed.

Lemma selection_log_consistent_calls RANDOM (calls : list api_call) (db : database) :
  selection_log_consistent db ->
  selection_log_consistent (database_after_calls RANDOM calls db).
Proof.
  unfold database_after_calls. revert db.
  induction calls as [|c calls IH]; intros db H; [done|].
  simpl. apply IH. by apply selection_log_consistent_step.
Qed.

Lemma selection_log_consistent_initially (db : database) :
  cat_sessions db = ∅ -> cat_question_selections db = [] ->
  selection_log_consistent db.
Proof.
  intros Hses Hsel. unfold selection_log_consistent, session_selections.
  rewrite Hses, Hsel. split; [|split].
  - intros r Hr. by apply elem_of_nil in Hr.
  - apply NoDup_nil_2.
  - intros sid s Hs. by rewrite lookup_empty in Hs.
Qed.

(** No session counts past its maximum across a call. *)
Lemma within_maximum_step RANDOM (c : api_call) (db : database) :
  within_maximum db -> within_maximum (database_after RANDOM c db).
Proof.
  intros Hmax. unfold within_maximum in Hmax.
  destruct c as [u sid|u sid q resp t|u ti tp mn mx ps]; simpl; unfold run_txn.
  - destruct (get_next_cat_question _ _ _ _) as [r db'|m|m db'] eqn:Hcall; simpl;
      [|done|done].
    apply get_next_cat_question_effect in Hcall
      as (s & Hs & _ & _ & [(d & Hses & _)|(m & Hlt & Hses & _)]);
      unfold within_maximum; rewrite Hses; intros sid0 s0 Hs0;
      (apply lookup_insert_Some in Hs0 as [[<- <-]|[_ Hs0]]; [|by eapply Hmax]); simpl.
    + by apply (Hmax sid s).
    + lia.
  - destruct (submit_cat_answer _ _ _ _ _ _) as [r db'|m|m db'] eqn:Hcall; simpl;
      [|done|done].
    by apply submit_cat_answer_never_returns in Hcall.
  - destruct (create_cat_test _ _ _ _ _ _ _ _) as [r db'|m|m db'] eqn:Hcall; simpl;
      [|done|done].
    apply create_cat_test_effect in Hcall as (_ & _ & _ & Hses & _).
    unfold within_maximum. by rewrite Hses.
Qed.

Lemma within_maximum_calls RANDOM (calls : list api_call) (db : database) :
  within_maximum db -> within_maximum (database_after_calls RANDOM calls db).
Proof.
  unfold database_after_calls. revert db.
  induction calls as [|c calls IH]; intros db H; [done|].
  simpl. apply IH. by apply within_maximum_step.
Qed.

(** X13: the agreement of the selection log with the sessions is kept by
    every sequence of calls of [get_next_cat_question], [submit_cat_answer]
    and [create_cat_test], by any users and with any arguments: the
    selection ids stay distinct, every selection belongs to a session, and
    the selections of each session carry the positions 1, 2, ... up to the
    session's [questions_answered], in the order they were served, so that
    [questions_answered] is the number of questions served. *)
Theorem selection_log_matches_sessions
    (RANDOM : forall A : Type, list A -> list A) (calls : list api_call) (db : database) :
  selection_log_consistent db ->
  let db' := database_after_calls RANDOM calls db in
  NoDup (map selection_id (cat_question_selections db'))
  /\ (forall r, r ∈ cat_question_selections db' ->
        is_Some (cat_sessions db' !! cat_session_id r))
  /\ (forall sid s, cat_sessions db' !! sid = Some s ->
        map position (session_selections db' sid) = seqZ 1 (questions_answered s)
        /\ Z.of_nat (length (session_selections db' sid)) = questions_answered s).
Proof.
  intros Hinv db'. subst db'.
  destruct (selection_log_consistent_calls RANDOM calls db Hinv) as (Hids & Hnd & Hpos).
  split; [done|]. split; [intros r Hr; by apply Hids|].
  intros sid s Hs. destruct (Hpos sid s Hs) as [H0 Hp]. split; [done|].
  rewrite <- (length_map position (session_selections _ sid)), Hp, length_seqZ. lia.
Qed.

Lemma fresh_log_consistent : selection_log_consistent Examples.fresh.
Proof.
  split; [|split].
  - intros r Hr. by apply elem_of_nil in Hr.
  - apply NoDup_nil_2.
  - intros sid s Hs.
    change (({[ 1 := Examples.sample_session 0 0 "in_progress" ]} : gmap Z cat_session) !! sid
            = Some s) in Hs.
    apply lookup_singleton_Some in Hs as [<- <-]. by split.
Qed.

Lemma selection_log_matches_sessions_witness :
  let db' :=
    database_after_calls Examples.stored_order
      [CallGetNext (Some 7) 1; CallSubmit (Some 7) 1 1 (Some [Some "11"]) 30;
       CallGetNext (Some 7) 1] Examples.fresh in
  NoDup (map selection_id (cat_question_selections db'))
  /\ (forall r, r ∈ cat_question_selections db' ->
        is_Some (cat_sessions db' !! cat_session_id r))
  /\ (forall sid s, cat_sessions db' !! sid = Some s ->
        map position (session_selections db' sid) = seqZ 1 (questions_answered s)
        /\ Z.of_nat (length (session_selections db' sid)) = questions_answered s).
Proof.
  apply selection_log_matches_sessions. exact fresh_log_consistent.
Defined.

(** X14: a session is never served more questions than its maximum:
    across every sequence of calls of the interface [questions_answered]
    stays at most [max_questions], or at 0 when the maximum is not
    positive. *)
Theorem sessions_stay_within_maximum
    (RANDOM : forall A : Type, list A -> list A) (calls : list api_call) (db : database) :
  within_maximum db -> within_maximum (database_after_calls RANDOM calls db).
Proof. apply within_maximum_calls. Qed.

Lemma sessions_stay_within_maximum_witness :
  within_maximum
    (database_after_calls Examples.stored_order
       [CallGetNext (Some 7) 1; CallGetNext (Some 7) 1; CallGetNext (Some 7) 1]
       Examples.fresh).
Proof.
  apply sessions_stay_within_maximum.
  intros sid s Hs.
  change (({[ 1 := Examples.sample_session 0 0 "in_progress" ]} : gmap Z cat_session) !! sid
            = Some s) in Hs.
  apply lookup_singleton_Some in Hs as [<- <-]. simpl. lia.
Defined.

End EngineInvariants.

(** ** The pool of a new test *)

Module PoolFacts.
Import Numeric.
Local Open Scope list_scope.

Lemma omap_sublist {A B} (f : A -> option B) (g : A -> B) (l : list A) :
  (forall x y, f x = Some y -> y = g x) -> omap f l `sublist_of` (g <$> l).
Proof.
  intros H. induction l as [|x l IH]; simpl; [constructor|].
  destruct (f x) as [y|] eqn:Hf.
  - rewrite (H x y Hf). by constructor.
  - by constructor.
Qed.

(** The candidates are the questions of the bank that have item parameters
    and pass the topic filter. *)
Lemma pool_candidates_spec db u tp q :
  q ∈ pool_candidates db u tp <->
  exists qu,
    questions db !! q = Some qu
    /\ is_Some (question_difficulty_parameters db !! q)
    /\ match tp with
       | Some (_ :: _) =>
           holds (Scoring.eq_any (topic qu) tp) = true
           /\ (forall st, joined_status db u q = Some st -> uqs_status st <> "correct")
       | _ => True
       end.
Proof.
  unfold pool_candidates. rewrite list_elem_of_omap. split.
  - intros ([k qu] & Hin & Hf). apply elem_of_map_to_list in Hin.
    cbn [fst snd] in Hf.
    destruct (question_difficulty_parameters db !! k) as [p|] eqn:Hp; [|done].
    cbn [mbind option_bind] in Hf. destruct tp as [[|t ts]|].
    + injection Hf as <-. eauto.
    + destruct (holds (Scoring.eq_any (topic qu) (Some (t :: ts)))) eqn:Htopic; [|done].
      rewrite andb_true_l in Hf.
      destruct (joined_status db u k) as [st|] eqn:Hst.
      * destruct (String.eqb_spec (uqs_status st) "correct") as [Hc|Hc]; [done|].
        injection Hf as <-. exists qu. repeat split; eauto.
        intros st' Hst'. rewrite Hst in Hst'. by injection Hst' as <-.
      * injection Hf as <-. exists qu. repeat split; eauto. intros st'. by rewrite Hst.
    + injection Hf as <-. eauto.
  - intros (qu & Hq & [p Hp] & Hcond). exists (q, qu).
    split; [by apply elem_of_map_to_list|]. cbn [fst snd]. rewrite Hp.
    cbn [mbind option_bind].
    destruct tp as [[|t ts]|]; [done| |done].
    destruct Hcond as [Ht Hst]. rewrite Ht. rewrite andb_true_l.
    destruct (joined_status db u q) as [st|]; [|done].
    destruct (String.eqb_spec (uqs_status st) "correct") as [Hc|Hc]; [|done].
    by destruct (Hst st eq_refl).
Qed.

Lemma pool_candidates_NoDup db u tp : NoDup (pool_candidates db u tp).
Proof.
  apply (sublist_NoDup _ (fst <$> map_to_list (questions db))).
  - apply NoDup_fst_map_to_list.
  - apply omap_sublist. intros [k qu] y. simpl.
    destruct (question_difficulty_parameters db !! k); [|done]. simpl.
    destruct tp as [[|t ts]|]; try (by intros [= <-]).
    destruct (_ && _); [by intros [= <-]|done].
Qed.

Lemma pool_tier_cases db u q :
  pool_tier db u q = 1 \/ pool_tier db u q = 2 \/ pool_tier db u q = 3.
Proof.
  unfold pool_tier. destruct (joined_status db u q) as [st|]; [|auto].
  destruct (String.eqb _ _); auto.
Qed.

Lemma order_by_tier_permutation db u l : order_by_tier db u l ≡ₚ l.
Proof.
  unfold order_by_tier. induction l as [|q l IH]; [done|]. simpl.
  destruct (pool_tier_cases db u q) as [H|[H|H]]; rewrite H; simpl.
  - by constructor.
  - rewrite <- Permutation_middle. by constructor.
  - rewrite app_assoc, <- Permutation_middle, <- app_assoc. by constructor.
Qed.

(** A list is in ascending tier order when nothing behind a cut has a
    better tier than something before it. *)
Lemma filter_tier_ascending db u l (n : nat) a b :
  a ∈ take n (order_by_tier db u l) -> b ∈ drop n (order_by_tier db u l) ->
  pool_tier db u a <= pool_tier db u b.
Proof.
  assert (forall k x, x ∈ List.filter (fun q => pool_tier db u q =? k) l ->
            pool_tier db u x = k) as Htier.
  { intros k x Hx. apply list_elem_of_In, filter_In in Hx as [_ Hx]. by apply Z.eqb_eq. }
  assert (forall (A B : list Z) m x, x ∈ take m (A ++ B) ->
            x ∈ A \/ (x ∈ take (m - length A) B /\ (length A < m)%nat)) as Htake.
  { intros A B m x Hx. rewrite take_app in Hx. apply elem_of_app in Hx as [Hx|Hx].
    - left. by apply (subseteq_take m).
    - right. split; [done|].
      destruct (m - length A)%nat eqn:He; [by apply elem_of_nil in Hx|lia]. }
  assert (forall (A B : list Z) m x, x ∈ drop m (A ++ B) ->
            (x ∈ A /\ (m < length A)%nat) \/ x ∈ drop (m - length A) B) as Hdrop.
  { intros A B m x Hx. rewrite drop_app in Hx. apply elem_of_app in Hx as [Hx|Hx].
    - left. split; [by apply (subseteq_drop m)|].
      destruct (decide (m < length A)%nat); [done|].
      rewrite drop_ge in Hx by lia. by apply elem_of_nil in Hx.
    - by right. }
  unfold order_by_tier. intros Ha Hb.
  apply Htake in Ha as [Ha|[Ha Hn1]].
  - apply Htier in Ha. destruct (pool_tier_cases db u b) as [H|[H|H]]; lia.
  - apply Hdrop in Hb as [[Hb Hn2]|Hb]; [lia|].
    apply Htake in Ha as [Ha|[Ha Hn3]].
    + apply Htier in Ha. apply Hdrop in Hb as [[Hb Hn4]|Hb].
      * apply Htier in Hb. lia.
      * apply subseteq_drop, Htier in Hb. lia.
    + apply subseteq_take, Htier in Ha. apply Hdrop in Hb as [[Hb Hn4]|Hb]; [lia|].
      apply subseteq_drop, Htier in Hb. lia.
Qed.

Lemma number_rows_elem tid k ids tq :
  tq ∈ number_rows tid k ids ->
  tq_test_id tq = tid /\ tq_question_id tq ∈ ids
  /\ k <= question_order tq < k + Z.of_nat (length ids).
Proof.
  revert k. induction ids as [|q ids IH]; intros k Hin; simpl in Hin.
  - by apply elem_of_nil in Hin.
  - apply elem_of_cons in Hin as [->|Hin]; simpl.
    + split; [done|]. split; [left|lia].
    + destruct (IH _ Hin) as (H1 & H2 & H3). split; [done|]. split; [by right|lia].
Qed.

Lemma number_rows_covers tid k ids q :
  q ∈ ids -> exists tq, tq ∈ number_rows tid k ids /\ tq_test_id tq = tid
                        /\ tq_question_id tq = q.
Proof.
  revert k. induction ids as [|q0 ids IH]; intros k Hin.
  - by apply elem_of_nil in Hin.
  - simpl. apply elem_of_cons in Hin as [->|Hin].
    + eexists. split; [left|]. done.
    + destruct (IH (k + 1) Hin) as (tq & H1 & H2 & H3). exists tq.
      split; [by right|done].
Qed.

Lemma number_rows_order tid ids :
  map question_order (number_rows tid 1 ids) = seqZ 1 (Z.of_nat (length ids))
  /\ map tq_question_id (number_rows tid 1 ids) = ids.
Proof.
  generalize 1 at 1 2 3. induction ids as [|q ids IH]; intros k; [done|].
  simpl length. rewrite Nat2Z.inj_succ, seqZ_cons by lia. simpl.
  destruct (IH (k + 1)) as [-> ->]. split; [|done]. do 2 f_equal; lia.
Qed.

Section Pool.

Variable RANDOM : forall A : Type, list A -> list A.
Hypothesis RANDOM_permutation : forall (A : Type) (l : list A), Permutation (RANDOM A l) l.

Lemma ordered_candidates_permutation db u tp :
  order_by_tier db u (RANDOM _ (pool_candidates db u tp)) ≡ₚ pool_candidates db u tp.
Proof. by rewrite order_by_tier_permutation, RANDOM_permutation. Qed.

Lemma drawn_pool_NoDup db u tp : NoDup (drawn_pool RANDOM db u tp).
Proof.
  unfold drawn_pool. eapply sublist_NoDup; [|apply sublist_take].
  rewrite ordered_candidates_permutation. apply pool_candidates_NoDup.
Qed.

Lemma drawn_pool_candidates db u tp q :
  q ∈ drawn_pool RANDOM db u tp -> q ∈ pool_candidates db u tp.
Proof.
  unfold drawn_pool. intros Hq. apply subseteq_take in Hq.
  by rewrite ordered_candidates_permutation in Hq.
Qed.

Lemma drawn_pool_length db u tp :
  length (drawn_pool RANDOM db u tp) = Nat.min 300 (length (pool_candidates db u tp)).
Proof.
  unfold drawn_pool. rewrite length_take.
  by rewrite (Permutation_length (ordered_candidates_permutation db u tp)).
Qed.

Lemma drawn_pool_prefers_lower_tiers db u tp q q' :
  q ∈ drawn_pool RANDOM db u tp -> q' ∈ pool_candidates db u tp ->
  q' ∉ drawn_pool RANDOM db u tp ->
  pool_tier db u q <= pool_tier db u q'.
Proof.
  unfold drawn_pool. intros Hq Hq' Hout.
  apply (filter_tier_ascending db u (RANDOM _ (pool_candidates db u tp)) 300); [done|].
  rewrite <- ordered_candidates_permutation in Hq'.
  rewrite <- (take_drop 300 (order_by_tier _ _ _)) in Hq'.
  apply elem_of_app in Hq' as [Hq'|Hq']; [by destruct Hout|done].
Qed.

End Pool.

End PoolFacts.

(** ** Invariants that rest on the random order being a permutation *)

Module SelectionInvariants.
Import Numeric TriggerFacts ProcedureFacts SelectorFacts EngineEffects EngineInvariants PoolFacts.
Local Open Scope list_scope.

(** More different elements than a list is long leave one outside it. *)
Lemma one_is_left (pool taken : list Z) :
  NoDup pool -> (length taken < length pool)%nat ->
  exists q, q ∈ pool /\ q ∉ taken.
Proof.
  intros Hnd Hlen.
  destruct (Forall_Exists_dec (fun q => q ∈ taken) (fun q => q ∉ taken)
              (fun q => decide (q ∈ taken)) pool) as [Hall|Hex].
  - rewrite Forall_forall in Hall.
    pose proof (submseteq_length _ _ (NoDup_submseteq _ _ Hnd Hall)). lia.
  - apply Exists_exists in Hex. exact Hex.
Qed.

Lemma selected_questions_elem db sid q :
  q ∈ selected_questions db sid <->
  exists r, r ∈ cat_question_selections db /\ cat_session_id r = sid
            /\ selection_question_id r = Some q.
Proof.
  unfold selected_questions. rewrite list_elem_of_omap. split.
  - intros (r & Hr & Hq). apply session_selections_elem in Hr as [Hr Hs]. eauto.
  - intros (r & Hr & Hs & Hq). exists r. split; [|done].
    by apply session_selections_elem.
Qed.

Lemma length_omap_le {A B} (f : A -> option B) (l : list A) :
  (length (omap f l) <= length l)%nat.
Proof.
  induction l as [|x l IH]; simpl; [lia|].
  destruct (f x); simpl; unfold omap in IH; lia.
Qed.

Lemma omap_projection {A B} (g : A -> option B) (f : A -> A) (l : list A) :
  (forall x, g (f x) = g x) -> omap g (map f l) = omap g l.
Proof.
  intros H. induction l as [|x l IH]; [done|]. simpl. rewrite H.
  unfold omap in IH. by rewrite IH.
Qed.

Section Selection.

Variable RANDOM : forall A : Type, list A -> list A.
Hypothesis RANDOM_permutation : forall (A : Type) (l : list A), Permutation (RANDOM A l) l.

(** The question selected is a pool question the session has not selected,
    and one is selected whenever one is left. *)
Lemma chosen_question_spec db sid s :
  (forall q, chosen_question RANDOM db sid s = Some q ->
     unselected_pool_question db (session_test_id s) sid q)
  /\ ((exists q, unselected_pool_question db (session_test_id s) sid q) ->
      is_Some (chosen_question RANDOM db sid s)).
Proof.
  unfold chosen_question.
  destruct (scan_shortlist _ _) as [m found] eqn:Hscan. simpl.
  destruct (scan_shortlist_spec _ _ _ _ Hscan)
    as [(-> & _) | (l1 & [q0 p0] & l2 & Hl & -> & _)].
  - apply (NextQuestionFacts.fallback_head RANDOM RANDOM_permutation).
  - split; [|by eauto]. intros q [= <-].
    apply (NextQuestionFacts.shortlist_members RANDOM RANDOM_permutation
             db (session_test_id s) sid q0 p0).
    rewrite Hl. apply elem_of_app. right. left.
Qed.

(** No session selects a question twice across a call. *)
Lemma questions_selected_once_step (c : api_call) (db : database) :
  questions_selected_once db -> questions_selected_once (database_after RANDOM c db).
Proof.
  intros Hinv. unfold questions_selected_once in Hinv.
  destruct c as [u sid|u sid q resp t|u ti tp mn mx ps]; simpl; unfold run_txn.
  - destruct (get_next_cat_question _ _ _ _) as [r db'|m0|m0 db'] eqn:Hcall; simpl;
      [|done|done].
    apply get_next_cat_question_effect in Hcall
      as (s & Hs & _ & _ & [(d & _ & Hsel & _)|(m & _ & _ & Hsel & _)]);
      intros sid0; unfold selected_questions.
    + rewrite (session_selections_same db db' sid0 Hsel). apply Hinv.
    + rewrite (session_selections_snoc db db' sid0 _ Hsel), omap_app. simpl.
      destruct (Z.eqb_spec sid sid0) as [<-|Hne]; [|rewrite app_nil_r; apply Hinv].
      simpl. destruct (chosen_question RANDOM db sid s) as [q|] eqn:Hq;
        [|rewrite app_nil_r; apply Hinv].
      apply NoDup_app. split; [apply Hinv|]. split; [|apply NoDup_singleton].
      intros x Hx Hx'. apply list_elem_of_singleton in Hx' as ->.
      apply (selected_questions_elem db sid q) in Hx as (r0 & Hr0 & Hsid & Hsome).
      destruct (proj1 (chosen_question_spec db sid s) q Hq) as (_ & _ & Hnot).
      by apply (Hnot r0 Hr0 Hsid).
  - destruct (submit_cat_answer _ _ _ _ _ _) as [r db'|m0|m0 db'] eqn:Hcall; simpl;
      [|done|done].
    by apply submit_cat_answer_never_returns in Hcall.
  - destruct (create_cat_test _ _ _ _ _ _ _ _) as [r db'|m0|m0 db'] eqn:Hcall; simpl;
      [|done|done].
    apply create_cat_test_effect in Hcall as (Hsel & _).
    intros sid0. unfold selected_questions.
    rewrite (session_selections_same db db' sid0 Hsel). apply Hinv.
Qed.

(** The pools stay large enough across a call. *)
Lemma pool_suffices_step (c : api_call) (db : database) :
  pool_suffices db -> pool_suffices (database_after RANDOM c db).
Proof.
  intros Hinv. unfold pool_suffices in Hinv.
  destruct c as [u sid|u sid q resp t|u ti tp mn mx ps]; simpl; unfold run_txn.
  - destruct (get_next_cat_question _ _ _ _) as [r db'|m0|m0 db'] eqn:Hcall; simpl;
      [|done|done].
    apply get_next_cat_question_effect in Hcall
      as (s & Hs & Htq & Hqu & [(d & Hses & _)|(m & _ & Hses & _)]);
      unfold pool_suffices; rewrite Hses, Htq, Hqu; intros sid0 s0 Hs0;
      (apply lookup_insert_Some in Hs0 as [[<- <-]|[_ Hs0]]; [|by eapply Hinv]);
      simpl; by eapply Hinv.
  - destruct (submit_cat_answer _ _ _ _ _ _) as [r db'|m0|m0 db'] eqn:Hcall; simpl;
      [|done|done].
    by apply submit_cat_answer_never_returns in Hcall.
  - destruct (create_cat_test _ _ _ _ _ _ _ _) as [r db'|m0|m0 db'] eqn:Hcall; simpl;
      [|done|done].
    apply create_cat_test_effect in Hcall as (_ & _ & Hqu & Hses & Htq).
    unfold pool_suffices. by rewrite Hses, Htq, Hqu.
Qed.

(** While the log is consistent and the pools are large enough, every
    selection names a pool question across a call. *)
Lemma selections_from_pool_step (c : api_call) (db : database) :
  selection_log_consistent db -> pool_suffices db -> selections_from_pool db ->
  selections_from_pool (database_after RANDOM c db).
Proof.
  intros (Hids & _ & Hpos) Hpools Hinv. unfold selections_from_pool in Hinv.
  destruct c as [u sid|u sid q resp t|u ti tp mn mx ps]; simpl; unfold run_txn.
  - destruct (get_next_cat_question _ _ _ _) as [r db'|m0|m0 db'] eqn:Hcall; simpl;
      [|done|done].
    apply get_next_cat_question_effect in Hcall
      as (s & Hs & Htq & _ & [(d & Hses & Hsel & _)|(m & Hlt & Hses & Hsel & _)]);
      unfold selections_from_pool; rewrite Hses, Hsel, Htq; intros x s0 Hx Hs0.
    + apply lookup_insert_Some in Hs0 as [[Heq <-]|[_ Hs0]]; [|by eapply Hinv].
      simpl. apply (Hinv x s Hx). by rewrite <- Heq.
    + apply elem_of_app in Hx as [Hx|Hx].
      { apply lookup_insert_Some in Hs0 as [[Heq <-]|[_ Hs0]]; [|by eapply Hinv].
        simpl. apply (Hinv x s Hx). by rewrite <- Heq. }
      apply list_elem_of_singleton in Hx as ->. simpl in Hs0 |- *.
      rewrite lookup_insert_eq in Hs0. injection Hs0 as <-. simpl.
      destruct (chosen_question_spec db sid s) as [Hsome Hleft].
      destruct Hleft as [q Hq].
      { destruct (Hpools sid s Hs) as (pool & Hnd & Hlen & Hpool).
        destruct (Hpos sid s Hs) as [H0 Hp].
        destruct (one_is_left pool (selected_questions db sid) Hnd) as (q & Hq & Hout).
        { pose proof (length_omap_le selection_question_id (session_selections db sid)).
          assert (Z.of_nat (length (session_selections db sid)) = questions_answered s).
          { rewrite <- (length_map position (session_selections db sid)), Hp, length_seqZ.
            lia. }
          unfold selected_questions. lia. }
        exists q. destruct (Hpool q Hq) as [Htqs Hbank].
        split; [done|]. split; [done|].
        intros r0 Hr0 Hsid Hnamed. apply Hout, selected_questions_elem. eauto. }
      destruct (Hsome q Hq) as ((tq & H1 & H2 & H3) & _). eauto 10.
  - destruct (submit_cat_answer _ _ _ _ _ _) as [r db'|m0|m0 db'] eqn:Hcall; simpl;
      [|done|done].
    by apply submit_cat_answer_never_returns in Hcall.
  - destruct (create_cat_test _ _ _ _ _ _ _ _) as [r db'|m0|m0 db'] eqn:Hcall; simpl;
      [|done|done].
    apply create_cat_test_effect in Hcall as (Hsel & _ & _ & Hses & Htq).
    unfold selections_from_pool. by rewrite Hses, Hsel, Htq.
Qed.

Lemma questions_selected_once_calls (calls : list api_call) (db : database) :
  questions_selected_once db ->
  questions_selected_once (database_after_calls RANDOM calls db).
Proof.
  unfold database_after_calls. revert db.
  induction calls as [|c calls IH]; intros db H; [done|].
  simpl. apply IH. by apply questions_selected_once_step.
Qed.

Lemma selections_from_pool_calls (calls : list api_call) (db : database) :
  selection_log_consistent db -> pool_suffices db -> selections_from_pool db ->
  selection_log_consistent (database_after_calls RANDOM calls db)
  /\ pool_suffices (database_after_calls RANDOM calls db)
  /\ selections_from_pool (database_after_calls RANDOM calls db).
Proof.
  unfold database_after_calls. revert db.
  induction calls as [|c calls IH]; intros db H1 H2 H3; [done|].
  simpl. apply IH.
  - by apply selection_log_consistent_step.
  - by apply pool_suffices_step.
  - by apply selections_from_pool_step.
Qed.

End Selection.

End SelectionInvariants.

(** ** What the engine guarantees to a candidate *)

Module EngineGuarantees.
Import Numeric TriggerFacts ProcedureFacts SelectorFacts EngineEffects EngineInvariants
  PoolFacts SelectionInvariants.
Local Open Scope list_scope.

Lemma fresh_sessions (P : Z -> cat_session -> Prop) :
  P 1 (Examples.sample_session 0 0 "in_progress") ->
  forall sid s, cat_sessions Examples.fresh !! sid = Some s -> P sid s.
Proof.
  intros HP sid s Hs.
  change (({[ 1 := Examples.sample_session 0 0 "in_progress" ]} : gmap Z cat_session) !! sid
          = Some s) in Hs.
  by apply lookup_singleton_Some in Hs as [<- <-].
Qed.

(** The pool of the sample test holds the questions 1 and 2, as many as
    the maximum of the sample session. *)
Lemma fresh_pool_suffices : pool_suffices Examples.fresh.
Proof.
  unfold pool_suffices. apply fresh_sessions.
  exists [1; 2]. split.
  - apply NoDup_cons. split; [|apply NoDup_singleton].
    intros H. apply list_elem_of_singleton in H. discriminate H.
  - split; [simpl; lia|]. intros q Hq.
    apply elem_of_cons in Hq as [->|Hq].
    + split; [|by eexists].
      exists {| tq_test_id := 1; tq_question_id := 1; question_order := 1 |}.
      split; [left|done].
    + apply list_elem_of_singleton in Hq as ->. split; [|by eexists].
      exists {| tq_test_id := 1; tq_question_id := 2; question_order := 2 |}.
      split; [right; left|done].
Qed.

(** X15: whatever the random order, no session is served a question twice:
    across every sequence of calls of the interface the selections of a
    session name different questions. *)
Theorem no_question_is_served_twice
    (RANDOM : forall A : Type, list A -> list A) (calls : list api_call) (db : database) :
  (forall (A : Type) (l : list A), Permutation (RANDOM A l) l) ->
  questions_selected_once db ->
  questions_selected_once (database_after_calls RANDOM calls db).
Proof. intros Hperm. by apply questions_selected_once_calls. Qed.

Lemma no_question_is_served_twice_witness :
  questions_selected_once
    (database_after_calls Examples.stored_order
       [CallGetNext (Some 7) 1; CallSubmit (Some 7) 1 1 (Some [Some "11"]) 30;
        CallGetNext (Some 7) 1] Examples.fresh).
Proof.
  apply no_question_is_served_twice.
  - apply NextQuestionFacts.stored_order_permutation.
  - intros sid. apply NoDup_nil_2.
Defined.

(** X16: a session whose test has a pool of at least [max_questions]
    different questions of the bank, as [create_cat_test] leaves it, never
    runs out of questions: across every sequence of calls of the interface,
    whatever the random order, each selection recorded names a question,
    and that question is in the pool of the session's test. *)
Theorem served_questions_come_from_the_pool
    (RANDOM : forall A : Type, list A -> list A) (calls : list api_call) (db : database) :
  (forall (A : Type) (l : list A), Permutation (RANDOM A l) l) ->
  selection_log_consistent db -> pool_suffices db -> selections_from_pool db ->
  let db' := database_after_calls RANDOM calls db in
  pool_suffices db'
  /\ forall r, r ∈ cat_question_selections db' ->
       exists s q tq,
         cat_sessions db' !! cat_session_id r = Some s
         /\ selection_question_id r = Some q
         /\ tq ∈ test_questions db' /\ tq_test_id tq = session_test_id s
         /\ tq_question_id tq = q.
Proof.
  intros Hperm H1 H2 H3 db'. subst db'.
  destruct (selections_from_pool_calls RANDOM Hperm calls db H1 H2 H3)
    as ((Hids & _) & Hpools & Hnames).
  split; [done|]. intros r Hr. destruct (Hids r Hr) as [_ [s Hs]].
  destruct (Hnames r s Hr Hs) as (q & tq & Hq). eauto 10.
Qed.

Lemma served_questions_come_from_the_pool_witness :
  let db' :=
    database_after_calls Examples.stored_order
      [CallGetNext (Some 7) 1; CallSubmit (Some 7) 1 1 (Some [Some "11"]) 30;
       CallGetNext (Some 7) 1] Examples.fresh in
  pool_suffices db'
  /\ forall r, r ∈ cat_question_selections db' ->
       exists s q tq,
         cat_sessions db' !! cat_session_id r = Some s
         /\ selection_question_id r = Some q
         /\ tq ∈ test_questions db' /\ tq_test_id tq = session_test_id s
         /\ tq_question_id tq = q.
Proof.
  apply served_questions_come_from_the_pool.
  - apply NextQuestionFacts.stored_order_permutation.
  - apply fresh_log_consistent.
  - apply fresh_pool_suffices.
  - intros r s Hr. by apply elem_of_nil in Hr.
Defined.

(** X17: the pool [create_cat_test] draws for a new test, whatever the
    random order: the rows it inserts into [test_questions] are numbered
    1, 2, ... in order and name different questions; each is a question of
    the bank that has item parameters and, when topics are given, has one
    of the topics and was not last answered correctly by the caller; their
    number is the number of such questions, cut at 300; and a question left
    out by the cut is never preferred (unseen, then last answered
    incorrectly, then the rest) to one taken in.  These rows are in the
    state in which the update of [tests] raises. *)
Theorem new_test_pool
    (RANDOM : forall A : Type, list A -> list A)
    (auth_uid : option uuid) (p_title : string) (p_topics : text_array)
    (p_min_questions p_max_questions : Z) (p_passing_standard : R) (db : database) :
  (forall (A : Type) (l : list A), Permutation (RANDOM A l) l) ->
  let pool := drawn_pool RANDOM db auth_uid p_topics in
  let rows := number_rows (tests_id_seq db) 1 pool in
  map tq_test_id rows = map (fun _ => tests_id_seq db) rows
  /\ map question_order rows = seqZ 1 (Z.of_nat (length pool))
  /\ map tq_question_id rows = pool
  /\ NoDup pool
  /\ length pool = Nat.min 300 (length (pool_candidates db auth_uid p_topics))
  /\ (forall q, q ∈ pool_candidates db auth_uid p_topics <->
        exists qu,
          questions db !! q = Some qu
          /\ is_Some (question_difficulty_parameters db !! q)
          /\ match p_topics with
             | Some (_ :: _) =>
                 holds (Scoring.eq_any (topic qu) p_topics) = true
                 /\ (forall st, joined_status db auth_uid q = Some st ->
                       uqs_status st <> "correct")
             | _ => True
             end)
  /\ (forall q, q ∈ pool -> q ∈ pool_candidates db auth_uid p_topics)
  /\ (forall q q',
        q ∈ pool ->
        q' ∈ pool_candidates db auth_uid p_topics ->
        q' ∉ pool ->
        pool_tier db auth_uid q <= pool_tier db auth_uid q')
  /\ (is_Some (varchar 255 p_title) -> is_Some (varchar_array 255 p_topics) ->
      tests db !! tests_id_seq db = None -> pool <> [] ->
      exists db2,
        create_cat_test RANDOM auth_uid p_title p_topics p_min_questions p_max_questions
          p_passing_standard db = RaiseAfter "record new has no field updated_at" db2
        /\ test_questions db2 = test_questions db ++ rows).
Proof.
  intros Hperm pool rows.
  destruct (number_rows_order (tests_id_seq db) pool) as [Hord Hqs].
  split.
  { apply map_ext_in. intros tq Htq'. apply list_elem_of_In in Htq'.
    by apply number_rows_elem in Htq' as [-> _]. }
  split; [done|]. split; [done|]. split; [by apply drawn_pool_NoDup|]. split.
  { unfold pool. by rewrite (drawn_pool_length RANDOM Hperm). }
  split; [intros q; apply pool_candidates_spec|].
  split; [intros q; by apply (drawn_pool_candidates RANDOM Hperm)|].
  split; [intros q q'; by apply drawn_pool_prefers_lower_tiers|].
  intros [stored_title Hti] [stored_topics Htp] Hfresh Hpool.
  eexists. split.
  - by apply (CreateFacts.create_cat_test_raises RANDOM auth_uid p_title p_topics
                p_min_questions p_max_questions p_passing_standard db
                stored_title stored_topics).
  - reflexivity.
Qed.

Lemma new_test_pool_witness :
  let pool := drawn_pool Examples.stored_order Examples.bank (Some 7) None in
  pool = [2; 1]
  /\ map question_order (number_rows 1 1 pool) = [1; 2]
  /\ NoDup pool.
Proof.
  destruct (new_test_pool Examples.stored_order (Some 7) "NCLEX CAT Simulation" None
              75 145 0%R Examples.bank NextQuestionFacts.stored_order_permutation)
    as (_ & H2 & _ & H4 & _).
  split; [vm_compute; reflexivity|]. split; [exact H2 | exact H4].
Defined.

(** X18: when the title and the topics fit their columns and no question
    of the bank is a candidate, [create_cat_test] returns its failure
    message and leaves the database as it was but for the test id it drew
    from the sequence, the test row it had inserted being deleted again;
    it returns that message in no other case; and when the title or a
    topic does not fit, it raises [value too long] and leaves the tables
    as they were. *)
Theorem create_cat_test_without_candidates
    (RANDOM : forall A : Type, list A -> list A)
    (auth_uid : option uuid) (p_title : string) (p_topics : text_array)
    (p_min_questions p_max_questions : Z) (p_passing_standard : R) (db : database) :
  (forall (A : Type) (l : list A), Permutation (RANDOM A l) l) ->
  tests db !! tests_id_seq db = None ->
  (is_Some (varchar 255 p_title) -> is_Some (varchar_array 255 p_topics) ->
   pool_candidates db auth_uid p_topics = [] ->
   create_cat_test RANDOM auth_uid p_title p_topics p_min_questions p_max_questions
     p_passing_standard db
   = Return (CreateFailed "Could not create test: No questions available matching criteria")
       (with_tests db (tests db) (tests_id_seq db + 1)))
  /\ (forall m db',
        create_cat_test RANDOM auth_uid p_title p_topics p_min_questions p_max_questions
          p_passing_standard db = Return (CreateFailed m) db' ->
        pool_candidates db auth_uid p_topics = []
        /\ is_Some (varchar 255 p_title) /\ is_Some (varchar_array 255 p_topics))
  /\ (varchar 255 p_title = None \/ varchar_array 255 p_topics = None ->
      raised (create_cat_test RANDOM auth_uid p_title p_topics p_min_questions
                p_max_questions p_passing_standard db)
      = Some "value too long for type character varying(255)"
      /\ same_tables db
           (database_after RANDOM
              (CallCreate auth_uid p_title p_topics p_min_questions p_max_questions
                 p_passing_standard) db)).
Proof.
  intros Hperm Hfresh.
  pose proof (drawn_pool_length RANDOM Hperm db auth_uid p_topics) as Hlen.
  split; [|split].
  - intros [stored_title Hti] [stored_topics Htp] Hnone.
    assert (drawn_pool RANDOM db auth_uid p_topics = []) as Hempty.
    { rewrite Hnone in Hlen. simpl in Hlen.
      by destruct (drawn_pool RANDOM db auth_uid p_topics). }
    unfold create_cat_test. rewrite Hti, Htp, Hfresh.
    match goal with
    | |- context [drawn_pool RANDOM ?d auth_uid p_topics] =>
        change (drawn_pool RANDOM d auth_uid p_topics)
          with (drawn_pool RANDOM db auth_uid p_topics)
    end.
    rewrite Hempty. simpl. unfold with_tests. simpl. by rewrite delete_insert_id.
  - intros m db' H.
    destruct (create_cat_test_outcome RANDOM auth_uid p_title p_topics p_min_questions
                p_max_questions p_passing_standard db)
      as [[m' Hm]|[(m' & d & Hm & _)|(_ & Hpool & Hm)]]; [congruence|congruence|].
    rewrite Hpool in Hlen. simpl in Hlen.
    split; [by destruct (pool_candidates db auth_uid p_topics)|].
    revert H. unfold create_cat_test.
    destruct (varchar 255 p_title); [|done].
    destruct (varchar_array 255 p_topics); [|done]. by eauto.
  - intros Hlong.
    assert (create_cat_test RANDOM auth_uid p_title p_topics p_min_questions
              p_max_questions p_passing_standard db
            = Raise "value too long for type character varying(255)") as Hcall.
    { unfold create_cat_test. destruct Hlong as [-> | ->]; [done|].
      by destruct (varchar 255 p_title). }
    split; [by rewrite Hcall|]. simpl. unfold run_txn. rewrite Hcall.
    apply same_tables_refl.
Qed.

Lemma create_cat_test_without_candidates_witness :
  create_cat_test Examples.stored_order (Some 7) "NCLEX CAT Simulation"
    (Some [Some "Maternity"]) 75 145 0%R Examples.bank
  = Return (CreateFailed "Could not create test: No questions available matching criteria")
      (with_tests Examples.bank (tests Examples.bank) (tests_id_seq Examples.bank + 1)).
Proof.
  refine (proj1 (create_cat_test_without_candidates Examples.stored_order (Some 7)
                   "NCLEX CAT Simulation" (Some [Some "Maternity"]) 75 145 0%R
                   Examples.bank NextQuestionFacts.stored_order_permutation eq_refl) _ _ _).
  - by eexists.
  - by eexists.
  - vm_compute. reflexivity.
Defined.

End EngineGuarantees.

(** ** [initialize_cat_parameters] *)

Module InitializeFacts.
Import IRT Numeric IRTFacts NumericFacts PoolFacts.
Local Open Scope list_scope.

Lemma label_difficulty_cases (label : string) :
  label_difficulty label = (-1)%R \/ label_difficulty label = 0%R
  \/ label_difficulty label = 1%R.
Proof.
  unfold label_difficulty.
  destruct (String.eqb label "Easy"); [left; lra|].
  destruct (String.eqb label "Medium"); [right; left; lra|].
  destruct (String.eqb label "Hard"); [right; right; lra|right; left; lra].
Qed.

Lemma questions_without_parameters_spec db q :
  q ∈ questions_without_parameters db <->
  is_Some (questions db !! q) /\ question_difficulty_parameters db !! q = None.
Proof.
  unfold questions_without_parameters.
  rewrite list_elem_of_In, filter_In, <- list_elem_of_In, negb_true_iff, bool_decide_eq_false.
  rewrite <- eq_None_not_Some. split.
  - intros [Hin Hnone]. split; [|done].
    apply list_elem_of_In, in_map_iff in Hin as ([k qu] & <- & Hin).
    apply list_elem_of_In, elem_of_map_to_list in Hin. by eexists.
  - intros [[qu Hq] Hnone]. split; [|done].
    apply list_elem_of_In, in_map_iff. exists (q, qu). split; [done|].
    by apply list_elem_of_In, elem_of_map_to_list.
Qed.

Section Initialize.

Variable user_role : uuid -> option string.
Variable question_difficulty : Z -> string.
Variable random : nat -> R.
Hypothesis random_range : forall k, (0 <= random k < 1)%R.

Lemma initialize_row_range acc q :
  exists p,
    fst (initialize_row question_difficulty random acc q) = <[q := p]> (fst acc)
    /\ initial_parameters (question_difficulty q) p.
Proof.
  eexists. split; [reflexivity|].
  pose proof (random_range (snd acc)) as H0.
  pose proof (random_range (S (snd acc))) as H1.
  pose proof (random_range (S (S (snd acc)))) as H2.
  unfold initial_parameters. simpl. split; [|split].
  - apply to_numeric_5_2_bounds. unfold of_numeric_2. lra.
  - apply to_numeric_5_2_bounds. unfold of_numeric_2. lra.
  - destruct (label_difficulty_cases (question_difficulty q)) as [Hl|[Hl|Hl]]; rewrite Hl.
    + pose proof (to_numeric_5_2_bounds (-125) (-75) (-1 + (random (snd acc) * 0.5 - 0.25))%R)
        as Hb.
      unfold of_numeric_2 in Hb |- *.
      destruct Hb as [Hlo Hhi]; [lra|]. apply IZR_le in Hlo, Hhi. lra.
    + pose proof (to_numeric_5_2_bounds (-25) 25 (0 + (random (snd acc) * 0.5 - 0.25))%R)
        as Hb.
      unfold of_numeric_2 in Hb |- *.
      destruct Hb as [Hlo Hhi]; [lra|]. apply IZR_le in Hlo, Hhi. lra.
    + pose proof (to_numeric_5_2_bounds 75 125 (1 + (random (snd acc) * 0.5 - 0.25))%R)
        as Hb.
      unfold of_numeric_2 in Hb |- *.
      destruct Hb as [Hlo Hhi]; [lra|]. apply IZR_le in Hlo, Hhi. lra.
Qed.

(** The loop writes a row in range for each question of the query and
    leaves every other row as it was. *)
Lemma initialize_loop_spec (l : list Z) (acc : gmap Z difficulty_parameters * nat) :
  let table := fst (fold_left (initialize_row question_difficulty random) l acc) in
  (forall q, q ∉ l -> table !! q = fst acc !! q)
  /\ (forall q, q ∈ l ->
        exists p, table !! q = Some p /\ initial_parameters (question_difficulty q) p).
Proof.
  revert acc. induction l as [|q0 l IH]; intros acc; simpl.
  - split; [done|]. intros q Hq. by apply elem_of_nil in Hq.
  - destruct (IH (initialize_row question_difficulty random acc q0)) as [Hout Hin].
    destruct (initialize_row_range acc q0) as (p0 & Hrow & Hp0).
    split.
    + intros q Hq. apply not_elem_of_cons in Hq as [Hne Hq].
      rewrite (Hout q Hq), Hrow. by rewrite lookup_insert_ne.
    + intros q Hq. destruct (decide (q ∈ l)) as [Hl|Hl]; [by apply Hin|].
      apply elem_of_cons in Hq as [->|Hq]; [|done].
      exists p0. split; [|done]. rewrite (Hout q0 Hl), Hrow. by rewrite lookup_insert_eq.
Qed.

Lemma initialize_cat_parameters_table auth_uid db :
  user_role auth_uid = Some "admin" ->
  exists table,
    initialize_cat_parameters user_role question_difficulty random auth_uid db
    = Return tt (with_question_difficulty_parameters db table)
    /\ (forall q p, question_difficulty_parameters db !! q = Some p -> table !! q = Some p)
    /\ (forall q, is_Some (questions db !! q) -> is_Some (table !! q))
    /\ (forall q p, table !! q = Some p -> question_difficulty_parameters db !! q = None ->
          is_Some (questions db !! q) /\ initial_parameters (question_difficulty q) p).
Proof.
  intros Hadmin. unfold initialize_cat_parameters.
  rewrite bool_decide_eq_true_2 by done. simpl.
  eexists. split; [reflexivity|].
  destruct (initialize_loop_spec (questions_without_parameters db)
              (question_difficulty_parameters db, 0%nat)) as [Hout Hin].
  simpl in Hout, Hin. split; [|split].
  - intros q p Hq. rewrite Hout; [done|].
    rewrite questions_without_parameters_spec. intros [_ Hnone]. congruence.
  - intros q Hq. destruct (question_difficulty_parameters db !! q) as [p|] eqn:Hp.
    + rewrite Hout; [by rewrite Hp|].
      rewrite questions_without_parameters_spec. intros [_ Hnone]. congruence.
    + destruct (Hin q) as (p & -> & _); [|done].
      by apply questions_without_parameters_spec.
  - intros q p Hq Hnone.
    destruct (decide (q ∈ questions_without_parameters db)) as [Hl|Hl].
    + destruct (Hin q Hl) as (p' & Hq' & Hrange).
      rewrite Hq in Hq'. injection Hq' as <-.
      apply questions_without_parameters_spec in Hl as [Hsome _]. done.
    + rewrite (Hout q Hl), Hnone in Hq. done.
Qed.

End Initialize.

(** With every question carrying parameters, the loop query is empty. *)
Lemma questions_without_parameters_none db :
  (forall q, is_Some (questions db !! q) -> is_Some (question_difficulty_parameters db !! q)) ->
  questions_without_parameters db = [].
Proof.
  intros Hall. destruct (questions_without_parameters db) as [|q l] eqn:He; [done|].
  assert (q ∈ questions_without_parameters db) as Hq by (rewrite He; left).
  apply questions_without_parameters_spec in Hq as [Hsome Hnone].
  apply Hall in Hsome. rewrite Hnone in Hsome. by destruct Hsome.
Qed.

(** With every question carrying parameters and no topic filter, every
    question is a candidate for the pool. *)
Lemma pool_candidates_all db u :
  (forall q, is_Some (questions db !! q) -> is_Some (question_difficulty_parameters db !! q)) ->
  length (pool_candidates db u None) = size (questions db).
Proof.
  intros Hall. unfold pool_candidates.
  assert (forall (l : list (Z * question)),
            (forall x, x ∈ l -> is_Some (question_difficulty_parameters db !! fst x)) ->
            length (omap (fun qr : Z * question =>
                            _ ← question_difficulty_parameters db !! fst qr; Some (fst qr)) l)
            = length l) as Hlen.
  { induction l as [|x l IH]; intros Hl; [done|]. simpl.
    destruct (Hl x) as [p Hp]; [left|]. rewrite Hp. simpl. f_equal.
    apply IH. intros y Hy. apply Hl. by right. }
  rewrite Hlen; [by rewrite length_map_to_list|].
  intros [k qu] Hx. apply elem_of_map_to_list in Hx. apply Hall. by eexists.
Qed.

(** With a discrimination other than 0 and a guessing parameter in [0, 1)
    the information is positive. *)
Lemma calculate_information_positive (theta a b c : R) :
  (0 <= c < 1)%R -> a <> 0%R -> (0 < calculate_information theta a b c)%R.
Proof.
  intros Hc Ha.
  pose proof (calculate_information_nonneg theta a b c Hc) as Hnn.
  destruct (Req_dec (calculate_information theta a b c) 0) as [H0|H0]; [exfalso|lra].
  revert H0. unfold calculate_information.
  pose proof (calculate_probability_range theta a b c Hc) as Hp.
  set (p := calculate_probability theta a b c) in *.
  assert (0 < p * (1 - p))%R as Hpp by (apply Rmult_lt_0_compat; lra).
  assert (0 < a * a)%R as Haa by nra.
  assert (0 < a * a * p * (1 - p))%R as Hsimple by nra.
  case_Rdec; try lra.
  intros H0. apply Rmult_integral in H0 as [H0|H0].
  - assert (0 < (p - c) * (p - c))%R by nra. nra.
  - revert H0. apply Rinv_neq_0_compat.
    assert (0 < (1 - c) * (1 - c))%R by nra. nra.
Qed.

End InitializeFacts.

Module InitializeExtras.
Import IRT Numeric IRTFacts NumericFacts SelectorFacts PoolFacts InitializeFacts.
Local Open Scope list_scope.

Lemma initialize_loop_covers question_difficulty random (l : list Z)
    (acc : gmap Z difficulty_parameters * nat) (q : Z) :
  q ∈ l \/ is_Some (fst acc !! q) ->
  is_Some (fst (fold_left (initialize_row question_difficulty random) l acc) !! q).
Proof.
  revert acc. induction l as [|q0 l IH]; intros acc [Hq|Hq]; simpl.
  - by apply elem_of_nil in Hq.
  - done.
  - apply IH. apply elem_of_cons in Hq as [->|Hq]; [right|by left].
    simpl. rewrite lookup_insert_eq. by eexists.
  - apply IH. right. simpl. apply lookup_insert_is_Some'. by right.
Qed.

(** The role and labels of the sample run: user 1 is the administrator,
    and every question is labelled 'Hard'. *)
Lemma half_in_range : forall k : nat, (0 <= (fun _ : nat => / 2) k < 1)%R.
Proof. intros k. simpl. lra. Qed.

(** X19: [initialize_cat_parameters] raises for a caller whose role is not
    'admin'.  For an administrator it returns and changes the parameter
    table only: every row there was is kept, every question of the bank
    has a row afterwards, and each row added belongs to a question of the
    bank and has its discrimination in [0.80, 1.20], its guessing
    parameter in [0.20, 0.25] and its difficulty within 0.25 of -1, 0 or 1
    for the labels 'Easy', 'Medium' and 'Hard' (0 for any other label). *)
Theorem initialize_cat_parameters_completes_the_bank
    (user_role : uuid -> option string) (question_difficulty : Z -> string)
    (random : nat -> R) (auth_uid : uuid) (db : database) :
  (forall k, (0 <= random k < 1)%R) ->
  (user_role auth_uid <> Some "admin" ->
   initialize_cat_parameters user_role question_difficulty random auth_uid db
   = Raise "Only administrators can initialize CAT parameters")
  /\ (user_role auth_uid = Some "admin" ->
      exists table,
        initialize_cat_parameters user_role question_difficulty random auth_uid db
        = Return tt (with_question_difficulty_parameters db table)
        /\ (forall q p, question_difficulty_parameters db !! q = Some p ->
              table !! q = Some p)
        /\ (forall q, is_Some (questions db !! q) -> is_Some (table !! q))
        /\ (forall q p, table !! q = Some p ->
              question_difficulty_parameters db !! q = None ->
              is_Some (questions db !! q)
              /\ initial_parameters (question_difficulty q) p)).
Proof.
  intros Hrandom. split.
  - intros Hrole. unfold initialize_cat_parameters.
    by rewrite bool_decide_eq_false_2.
  - by apply initialize_cat_parameters_table.
Qed.

Lemma initialize_cat_parameters_completes_the_bank_witness :
  exists table,
    initialize_cat_parameters (fun u => if u =? 1 then Some "admin" else None)
      (fun _ => "Hard") (fun _ => / 2)%R 1 Examples.bank
    = Return tt (with_question_difficulty_parameters Examples.bank table)
    /\ is_Some (table !! 3).
Proof.
  destruct (proj2 (initialize_cat_parameters_completes_the_bank
                     (fun u => if u =? 1 then Some "admin" else None)
                     (fun _ => "Hard") (fun _ => / 2)%R 1 Examples.bank half_in_range)
              eq_refl) as (table & Hrun & _ & Hall & _).
  exists table. split; [exact Hrun|]. apply Hall. by eexists.
Defined.

(** X20: once an administrator has run [initialize_cat_parameters], a
    second run by an administrator changes nothing, whatever the labels
    and the values of [random()]. *)
Theorem initialize_cat_parameters_idempotent
    (user_role : uuid -> option string) (question_difficulty question_difficulty' : Z -> string)
    (random random' : nat -> R) (auth_uid auth_uid' : uuid) (db db' : database) :
  initialize_cat_parameters user_role question_difficulty random auth_uid db
    = Return tt db' ->
  user_role auth_uid' = Some "admin" ->
  initialize_cat_parameters user_role question_difficulty' random' auth_uid' db'
    = Return tt db'.
Proof.
  unfold initialize_cat_parameters at 1. intros Hrun Hadmin.
  destruct (negb _); [done|]. injection Hrun as <-.
  assert (forall q, is_Some (questions db !! q) ->
            is_Some (fst (fold_left (initialize_row question_difficulty random)
                            (questions_without_parameters db)
                            (question_difficulty_parameters db, 0%nat)) !! q)) as Hall.
  { intros q Hq. apply initialize_loop_covers.
    destruct (question_difficulty_parameters db !! q) as [p|] eqn:Hp; [right; by eexists|].
    left. by apply questions_without_parameters_spec. }
  revert Hall. generalize (fst (fold_left (initialize_row question_difficulty random)
                                  (questions_without_parameters db)
                                  (question_difficulty_parameters db, 0%nat))).
  intros table Hall.
  unfold initialize_cat_parameters. rewrite bool_decide_eq_true_2 by done. simpl.
  by rewrite (questions_without_parameters_none
                (with_question_difficulty_parameters db table) Hall).
Qed.

Lemma initialize_cat_parameters_idempotent_witness :
  exists db',
    initialize_cat_parameters (fun u => if u =? 1 then Some "admin" else None)
      (fun _ => "Hard") (fun _ => / 2)%R 1 Examples.bank = Return tt db'
    /\ initialize_cat_parameters (fun u => if u =? 1 then Some "admin" else None)
         (fun _ => "Easy") (fun _ => 0)%R 1 db' = Return tt db'.
Proof.
  eexists. split; [reflexivity|].
  apply (initialize_cat_parameters_idempotent
           (fun u => if u =? 1 then Some "admin" else None)
           (fun _ => "Hard") (fun _ => "Easy") (fun _ => / 2)%R (fun _ => 0)%R 1 1
           Examples.bank); reflexivity.
Defined.

(** X21: on a bank that is not empty and that an administrator has
    initialized, the pool query of [create_cat_test] without topics,
    whatever the random order and whoever calls, finds as many questions as
    the bank has, cut at 300; with a title that fits and a fresh test id
    the procedure inserts them as the pool of the new test and then raises
    in the trigger of [tests]. *)
Theorem initialized_bank_supplies_the_pool
    (user_role : uuid -> option string) (question_difficulty : Z -> string)
    (random : nat -> R) (admin : uuid)
    (RANDOM : forall A : Type, list A -> list A)
    (auth_uid : option uuid) (p_title : string) (p_min_questions p_max_questions : Z)
    (p_passing_standard : R) (db db' : database) :
  (forall (A : Type) (l : list A), Permutation (RANDOM A l) l) ->
  initialize_cat_parameters user_role question_difficulty random admin db
    = Return tt db' ->
  questions db <> ∅ ->
  length (drawn_pool RANDOM db' auth_uid None) = Nat.min 300 (size (questions db))
  /\ drawn_pool RANDOM db' auth_uid None <> []
  /\ (is_Some (varchar 255 p_title) -> tests db !! tests_id_seq db = None ->
      exists db2,
        create_cat_test RANDOM auth_uid p_title None p_min_questions p_max_questions
          p_passing_standard db'
        = RaiseAfter "record new has no field updated_at" db2
        /\ length (test_questions db2)
           = (length (test_questions db) + Nat.min 300 (size (questions db)))%nat).
Proof.
  intros Hperm Hrun Hbank.
  unfold initialize_cat_parameters in Hrun.
  destruct (negb _); [done|]. injection Hrun as <-.
  set (db' := with_question_difficulty_parameters db _).
  assert (length (drawn_pool RANDOM db' auth_uid None) = Nat.min 300 (size (questions db)))
    as Hlen.
  { rewrite (drawn_pool_length RANDOM Hperm), pool_candidates_all; [done|].
    intros q Hq. apply initialize_loop_covers.
    destruct (question_difficulty_parameters db !! q) as [p|] eqn:Hp; [right; by eexists|].
    left. by apply questions_without_parameters_spec. }
  assert (drawn_pool RANDOM db' auth_uid None <> []) as Hpool.
  { intros Hnil. rewrite Hnil in Hlen.
    change (0%nat = Nat.min 300 (size (questions db))) in Hlen.
    assert (size (questions db) <> 0%nat) by (by rewrite map_size_empty_iff). lia. }
  split; [exact Hlen|]. split; [exact Hpool|].
  intros [stored_title Hti] Htest.
  eexists. split.
  - by apply (CreateFacts.create_cat_test_raises RANDOM auth_uid p_title None
                p_min_questions p_max_questions p_passing_standard db' stored_title None).
  - simpl. rewrite length_app, CreateFacts.length_number_rows, Hlen. reflexivity.
Qed.

Lemma initialized_bank_supplies_the_pool_witness :
  exists db',
    initialize_cat_parameters (fun u => if u =? 1 then Some "admin" else None)
      (fun _ => "Hard") (fun _ => / 2)%R 1 Examples.bank = Return tt db'
    /\ length (drawn_pool Examples.stored_order db' (Some 7) None) = 3%nat.
Proof.
  eexists. split; [reflexivity|].
  exact (proj1 (initialized_bank_supplies_the_pool
                  (fun u => if u =? 1 then Some "admin" else None)
                  (fun _ => "Hard") (fun _ => / 2)%R 1 Examples.stored_order
                  (Some 7) "NCLEX CAT Simulation" 75 145 0%R Examples.bank _
                  NextQuestionFacts.stored_order_permutation eq_refl
                  ltac:(done))).
Defined.

(** X22: with parameter rows whose discrimination is not 0 and whose
    guessing parameter is in [0, 1), as [initialize_cat_parameters] writes
    them, the selection loop of [get_next_cat_question] finds a question
    whenever its query has a row, whatever the random order: the fallback
    query is then not used, and the question selected has item
    parameters. *)
Theorem information_selection_needs_no_fallback
    (RANDOM : forall A : Type, list A -> list A) (db : database) (sid : Z) (s : cat_session) :
  (forall (A : Type) (l : list A), Permutation (RANDOM A l) l) ->
  (forall q p, question_difficulty_parameters db !! q = Some p ->
     discrimination p <> 0 /\ 0 <= guessing p < 100) ->
  information_candidates db (session_test_id s) sid <> [] ->
  exists q m,
    scan_shortlist (of_numeric_2 (current_ability s))
      (firstn 50 (RANDOM _ (information_candidates db (session_test_id s) sid)))
    = (m, Some q)
    /\ (0 < m)%R
    /\ chosen_question RANDOM db sid s = Some q
    /\ is_Some (question_difficulty_parameters db !! q).
Proof.
  intros Hperm Hparams Hrows.
  set (shortlist := firstn 50 (RANDOM _ (information_candidates db (session_test_id s) sid))).
  assert (forall x, x ∈ shortlist ->
            question_difficulty_parameters db !! fst x = Some (snd x)) as Hmem.
  { intros [q p] Hx.
    by apply (NextQuestionFacts.shortlist_members RANDOM Hperm) in Hx as [_ Hp]. }
  assert (forall x, x ∈ shortlist ->
            (0 < candidate_information (of_numeric_2 (current_ability s)) x)%R) as Hpos.
  { intros x Hx. destruct (Hparams _ _ (Hmem x Hx)) as [Ha [Hc0 Hc1]].
    unfold candidate_information. apply calculate_information_positive.
    - unfold of_numeric_2. apply IZR_le in Hc0. apply IZR_lt in Hc1. lra.
    - unfold of_numeric_2. intros H0. apply Ha. apply eq_IZR. lra. }
  assert (shortlist <> []) as Hsome.
  { unfold shortlist. intros Hnil.
    destruct (RANDOM _ (information_candidates db (session_test_id s) sid))
      as [|y l'] eqn:Hr; [|discriminate Hnil].
    apply Hrows, Permutation_nil. rewrite <- Hr. apply Hperm. }
  destruct (scan_shortlist (of_numeric_2 (current_ability s)) shortlist)
    as [m found] eqn:Hscan.
  destruct (scan_shortlist_spec _ _ _ _ Hscan)
    as [(-> & -> & Hall) | (l1 & x & l2 & Hl & -> & Hm & Hpos' & _)].
  - exfalso. destruct shortlist as [|x l]; [done|].
    specialize (Hall x (list_elem_of_here _ _)).
    specialize (Hpos x (list_elem_of_here _ _)). lra.
  - exists (fst x), m. split; [done|]. split; [done|].
    unfold chosen_question. fold shortlist. rewrite Hscan. simpl. split; [done|].
    rewrite (Hmem x); [by eexists|]. rewrite Hl. apply elem_of_app. right. left.
Qed.

Lemma information_selection_needs_no_fallback_witness :
  exists q m,
    scan_shortlist (of_numeric_2 0)
      (firstn 50 (Examples.stored_order _ (information_candidates Examples.fresh 1 1)))
    = (m, Some q)
    /\ (0 < m)%R.
Proof.
  destruct (information_selection_needs_no_fallback Examples.stored_order Examples.fresh 1
              (Examples.sample_session 0 0 "in_progress")
              NextQuestionFacts.stored_order_permutation) as (q & m & H1 & H2 & _).
  - intros q p Hq. change (Examples.sample_parameters !! q = Some p) in Hq.
    unfold Examples.sample_parameters in Hq.
    apply lookup_insert_Some in Hq as [[_ <-]|[_ Hq]]; [simpl; lia|].
    apply lookup_singleton_Some in Hq as [_ <-]. simpl. lia.
  - discriminate.
  - exists q, m. split; [exact H1|exact H2].
Defined.

End InitializeExtras.

(** ** Serving and summarising a test *)

Module TestFlowFacts.
Import Numeric Scoring ScoringFacts ScoringExtras.
Local Open Scope list_scope.

Lemma unanswered_test_questions_spec u db p tq :
  tq ∈ unanswered_test_questions u db p <->
  tq ∈ test_questions db
  /\ (exists t, tests db !! p = Some t /\ test_user_id t = Some u)
  /\ tq_test_id tq = p
  /\ is_Some (questions db !! tq_question_id tq)
  /\ (forall r, r ∈ test_results db -> result_user_id r = u -> result_test_id r = p ->
        result_question_id r <> tq_question_id tq).
Proof.
  unfold unanswered_test_questions.
  rewrite list_elem_of_In, filter_In, <- list_elem_of_In, !andb_true_iff,
    bool_decide_eq_true, negb_true_iff, Z.eqb_eq.
  unfold visible_test_question, has_result, visible_test_result. split.
  - intros (Hin & ((Hvis & <-) & Hq) & Hres).
    destruct (tests db !! tq_test_id tq) as [t|]; [|done].
    destruct (test_user_id t) as [v|] eqn:Hv; [|done]. simpl in Hvis.
    destruct (Z.eqb_spec v u) as [->|]; [|done].
    repeat split; eauto.
    intros r Hr Hu Ht Hqr. apply not_true_iff_false in Hres. apply Hres.
    apply existsb_exists. exists r. split; [by apply list_elem_of_In|].
    rewrite Hu, Ht, Hqr, !Z.eqb_refl. done.
  - intros (Hin & (t & Ht & Hu) & <- & Hq & Hres). rewrite Ht, Hu. simpl.
    rewrite Z.eqb_refl.
    repeat split; try done.
    apply not_true_iff_false. intros Hex.
    apply existsb_exists in Hex as (r & Hr & Hb).
    apply andb_prop in Hb as [Hb Hb3]. apply andb_prop in Hb as [Hb1 Hb2].
    apply Z.eqb_eq in Hb1, Hb2, Hb3. apply list_elem_of_In in Hr.
    by apply (Hres r Hr).
Qed.

Lemma first_by_order_spec (rows : list test_question) :
  match first_by_order rows with
  | None => rows = []
  | Some least =>
      least ∈ rows /\ forall tq, tq ∈ rows -> question_order least <= question_order tq
  end.
Proof.
  induction rows as [|tq rest IH]; [done|]. simpl.
  destruct (first_by_order rest) as [least|].
  - destruct IH as [Hin Hmin].
    destruct (Z.ltb_spec (question_order least) (question_order tq)) as [Hlt|Hge].
    + split; [by right|]. intros x Hx. apply elem_of_cons in Hx as [->|Hx]; [lia|by apply Hmin].
    + split; [left|]. intros x Hx. apply elem_of_cons in Hx as [->|Hx]; [lia|].
      specialize (Hmin x Hx). lia.
  - subst rest. split; [left|]. intros x Hx.
    apply list_elem_of_singleton in Hx as ->. lia.
Qed.

(** A row returned is the row for a least unanswered question. *)
Lemma get_next_test_question_row u p db row :
  row ∈ get_next_test_question u p db ->
  get_next_test_question u p db = [row]
  /\ exists nq qu,
       first_by_order (unanswered_test_questions u db p) = Some nq
       /\ questions db !! tq_question_id nq = Some qu
       /\ ntq_question_id row = tq_question_id nq
       /\ ntq_question_order row = question_order nq
       /\ ntq_question_format row = question_format qu
       /\ ntq_answers row
          = map answer_id
              (List.filter (fun a => answer_question_id a =? tq_question_id nq) (answers db))
       /\ ntq_answers row <> [].
Proof.
  unfold get_next_test_question. intros Hrow.
  destruct (first_by_order _) as [nq|]; [|by apply elem_of_nil in Hrow].
  destruct (questions db !! tq_question_id nq) as [qu|] eqn:Hq;
    [|by apply elem_of_nil in Hrow].
  destruct (List.filter _ (answers db)) as [|a more] eqn:Hf;
    [by apply elem_of_nil in Hrow|].
  apply list_elem_of_singleton in Hrow as ->. split; [done|].
  exists nq, qu. simpl. by rewrite Hf.
Qed.

Lemma SUM_app (l k : list Z) : SUM (l ++ k) = SUM l + SUM k.
Proof. unfold SUM. induction l as [|x l IH]; simpl; lia. Qed.

Lemma results_of_test_snoc db db1 tid row :
  test_results db1 = test_results db ++ [row] ->
  results_of_test db1 tid
  = results_of_test db tid ++ (if result_test_id row =? tid then [row] else []).
Proof.
  intros H. unfold results_of_test. rewrite H, List.filter_app. simpl.
  by destruct (_ =? _).
Qed.

(** Scores of the scoring block are within [0, max_score] when the credits
    of the options are in [0.00, 1.00] and the penalties are not
    negative. *)
Lemma score_response_within_max fmt partial opts resp :
  (forall a, In a opts -> 0 <= partial_credit a <= numeric_of_int 1 /\ 0 <= penalty_value a) ->
  let '(w, sc, mx) := score_response fmt partial opts resp in 0 <= sc <= mx.
Proof.
  intros Hopts. unfold score_response.
  destruct (String.eqb fmt "Multiple Choice").
  { destruct (first_element resp) as [r|]; [|unfold numeric_of_int; lia].
    destruct (List.find _ opts) as [a|]; simpl; [|unfold numeric_of_int; lia].
    destruct (is_correct a); unfold numeric_of_int; lia. }
  destruct (String.eqb fmt "Select All That Apply" && partial).
  - assert (partial_sum resp opts <= correct_count opts /\ 0 <= correct_count opts)
      as [H1 H2]; [|unfold correct_count in *; lia].
    unfold partial_sum, correct_count, numeric_of_int.
    induction opts as [|a opts IH]; simpl; [lia|].
    destruct (Hopts a (or_introl eq_refl)) as [[Hc0 Hc1] Hp].
    destruct (IH (fun b Hb => Hopts b (or_intror Hb))) as [IH1 IH2].
    pose proof (partial_term_bounds resp a Hc0 Hp) as Hterm.
    unfold numeric_of_int in Hc1.
    destruct (is_correct a); simpl length; lia.
  - destruct (_ && _); unfold numeric_of_int; lia.
Qed.

End TestFlowFacts.

Module TestFlowExtras.
Import Numeric Scoring ScoringFacts TriggerFacts TestFlowFacts.
Local Open Scope list_scope.

(** X23: [get_next_test_question] returns at most one row.  A row it
    returns is for a question of the caller's own test that exists in the
    bank and has no result of the caller; no other such question of the
    test has a lower [question_order]; and the row lists the ids of all
    the options of the question, of which there is at least one.  For a
    test of another user, or one that does not exist, it returns no
    row. *)
Theorem get_next_test_question_serves_lowest_unanswered
    (auth_uid : uuid) (p_test_id : Z) (db : database) :
  (forall row, row ∈ get_next_test_question auth_uid p_test_id db ->
     get_next_test_question auth_uid p_test_id db = [row]
     /\ (exists t, tests db !! p_test_id = Some t /\ test_user_id t = Some auth_uid)
     /\ (exists tq, tq ∈ test_questions db /\ tq_test_id tq = p_test_id
                    /\ tq_question_id tq = ntq_question_id row
                    /\ question_order tq = ntq_question_order row)
     /\ is_Some (questions db !! ntq_question_id row)
     /\ (forall r, r ∈ test_results db -> result_user_id r = auth_uid ->
           result_test_id r = p_test_id -> result_question_id r <> ntq_question_id row)
     /\ (forall tq, tq ∈ unanswered_test_questions auth_uid db p_test_id ->
           ntq_question_order row <= question_order tq)
     /\ ntq_answers row
        = map answer_id
            (List.filter (fun a => answer_question_id a =? ntq_question_id row) (answers db))
     /\ ntq_answers row <> [])
  /\ ((forall t, tests db !! p_test_id = Some t -> test_user_id t <> Some auth_uid) ->
      get_next_test_question auth_uid p_test_id db = []).
Proof.
  split.
  - intros row Hrow.
    destruct (get_next_test_question_row _ _ _ _ Hrow)
      as (Hone & nq & qu & Hfirst & Hq & Hid & Hord & _ & Hans & Hsome).
    pose proof (first_by_order_spec (unanswered_test_questions auth_uid db p_test_id))
      as Hspec.
    rewrite Hfirst in Hspec. destruct Hspec as [Hin Hmin].
    apply unanswered_test_questions_spec in Hin as (Hin & Hown & Htest & Hbank & Hres).
    rewrite Hid, Hord. repeat split; eauto.
  - intros Hother. unfold get_next_test_question.
    pose proof (first_by_order_spec (unanswered_test_questions auth_uid db p_test_id))
      as Hspec.
    destruct (first_by_order _) as [nq|]; [|done].
    destruct Hspec as [Hin _].
    apply unanswered_test_questions_spec in Hin as (_ & (t & Ht & Hu) & _).
    by destruct (Hother t Ht).
Qed.

Lemma get_next_test_question_serves_lowest_unanswered_witness :
  get_next_test_question 8 1 Examples.in_flight = [].
Proof.
  apply (proj2 (get_next_test_question_serves_lowest_unanswered 8 1 Examples.in_flight)).
  intros t [= <-]. discriminate.
Defined.

(** X24: once [test_results] holds a result of the caller for a question
    of a test, as the insert of [submit_test_answer] writes it, the
    unanswered questions of that test are those there were but for the
    question answered, so [get_next_test_question] does not return it
    again, and what it returns next comes no earlier in [question_order]
    than what it returned before. *)
Theorem answered_question_is_not_served_again
    (auth_uid : uuid) (p_test_id p_question_id : Z) (db db1 : database)
    (row : test_result) :
  test_results db1 = test_results db ++ [row] ->
  result_test_id row = p_test_id -> result_user_id row = auth_uid ->
  result_question_id row = p_question_id ->
  tests db1 = tests db -> test_questions db1 = test_questions db ->
  questions db1 = questions db -> answers db1 = answers db ->
  unanswered_test_questions auth_uid db1 p_test_id
    = List.filter (fun tq => negb (tq_question_id tq =? p_question_id))
        (unanswered_test_questions auth_uid db p_test_id)
  /\ (forall served, served ∈ get_next_test_question auth_uid p_test_id db1 ->
        ntq_question_id served <> p_question_id)
  /\ (forall served served1,
        served ∈ get_next_test_question auth_uid p_test_id db ->
        served1 ∈ get_next_test_question auth_uid p_test_id db1 ->
        ntq_question_order served <= ntq_question_order served1).
Proof.
  intros Hres Hrt Hru Hrq Htests Htq Hqu Hans.
  assert (unanswered_test_questions auth_uid db1 p_test_id
          = List.filter (fun tq => negb (tq_question_id tq =? p_question_id))
              (unanswered_test_questions auth_uid db p_test_id)) as Hless.
  { unfold unanswered_test_questions. rewrite Htq, Hqu.
    generalize (test_questions db). intros l.
    induction l as [|tq l IH]; [done|]. simpl. rewrite IH.
    unfold visible_test_question, has_result. rewrite Htests, Hres, existsb_app. simpl.
    unfold visible_test_result at 2. rewrite Hrt, Hru, Hrq, Z.eqb_refl, orb_false_r. simpl.
    destruct (tests db !! tq_test_id tq) as [te|]; [|done].
    destruct (holds (sql_eq (test_user_id te) (Some auth_uid))); [|done].
    destruct (Z.eqb_spec (tq_test_id tq) p_test_id) as [->|Hne]; [|done].
    rewrite Z.eqb_refl. simpl.
    destruct (bool_decide _); [|done]. simpl.
    destruct (existsb _ (test_results db)); simpl; [done|].
    rewrite (Z.eqb_sym p_question_id). by destruct (_ =? _). }
  split; [done|].
  assert (forall row1, row1 ∈ get_next_test_question auth_uid p_test_id db1 ->
            exists nq, nq ∈ unanswered_test_questions auth_uid db p_test_id
                       /\ tq_question_id nq <> p_question_id
                       /\ ntq_question_id row1 = tq_question_id nq
                       /\ ntq_question_order row1 = question_order nq) as Hnext.
  { intros row1 Hrow1.
    destruct (get_next_test_question_row _ _ _ _ Hrow1)
      as (_ & nq & _ & Hfirst & _ & Hid & Hord & _).
    pose proof (first_by_order_spec (unanswered_test_questions auth_uid db1 p_test_id))
      as Hspec.
    rewrite Hfirst in Hspec. destruct Hspec as [Hin _].
    rewrite Hless in Hin. apply list_elem_of_In, filter_In in Hin as [Hin Hne].
    apply list_elem_of_In in Hin. apply negb_true_iff, Z.eqb_neq in Hne. eauto. }
  split.
  - intros served Hrow. destruct (Hnext served Hrow) as (nq & _ & Hne & -> & _). done.
  - intros served served1 Hrow Hrow1.
    destruct (Hnext served1 Hrow1) as (nq1 & Hin1 & _ & _ & ->).
    destruct (get_next_test_question_row _ _ _ _ Hrow)
      as (_ & nq & _ & Hfirst & _ & _ & -> & _).
    pose proof (first_by_order_spec (unanswered_test_questions auth_uid db p_test_id))
      as Hspec.
    rewrite Hfirst in Hspec. destruct Hspec as [_ Hmin]. by apply Hmin.
Qed.

Lemma answered_question_is_not_served_again_witness :
  (exists served, get_next_test_question 7 1 Examples.in_flight = [served]
                  /\ ntq_question_id served = 1)
  /\ (forall served, served ∈ get_next_test_question 7 1 one_answer_recorded ->
        ntq_question_id served <> 1).
Proof.
  split; [eexists; split; reflexivity|].
  exact (proj1 (proj2 (answered_question_is_not_served_again 7 1 1
                         Examples.in_flight one_answer_recorded _
                         eq_refl eq_refl eq_refl eq_refl eq_refl eq_refl eq_refl eq_refl))).
Defined.

(** X25: the scoring block never gives a score below 0 or above
    [max_score] when the partial credits of the options are in
    [0.00, 1.00] and the penalties are not negative; the result that
    [submit_test_answer] inserts, for a call that passes its checks, has
    such a score. *)
Theorem recorded_score_is_within_max_score
    (u : uuid) (p_test_id p_question_id : Z) (resp : text_array) (t : Z) (fl : bool)
    (db : database) (te : test) (qu : question) :
  (forall a, In a (answers db) ->
     0 <= partial_credit a <= numeric_of_int 1 /\ 0 <= penalty_value a) ->
  tests db !! p_test_id = Some te -> test_user_id te = Some u ->
  questions db !! p_question_id = Some qu ->
  fits_numeric_5_2 (question_format qu) (use_partial_scoring qu)
    (answers_of (answers db) p_question_id) resp = true ->
  (forall r, r ∈ test_results db ->
     result_id r <> test_results_id_seq db
     /\ ~ (result_test_id r = p_test_id /\ result_question_id r = p_question_id)) ->
  (forall fmt partial any_response,
     0 <= snd (fst (score_response fmt partial (answers_of (answers db) p_question_id)
                      any_response))
       <= snd (score_response fmt partial (answers_of (answers db) p_question_id)
                 any_response))
  /\ exists m db1 row,
       submit_test_answer (Some u) p_test_id p_question_id resp t fl db = RaiseAfter m db1
       /\ test_results db1 = test_results db ++ [row]
       /\ 0 <= score row <= max_score row.
Proof.
  intros Hopts Hte Hown Hqu Hfit Hnew.
  assert (forall fmt partial any_response,
            0 <= snd (fst (score_response fmt partial
                             (answers_of (answers db) p_question_id) any_response))
              <= snd (score_response fmt partial (answers_of (answers db) p_question_id)
                        any_response)) as Hin.
  { intros fmt partial any_response.
    pose proof (score_response_within_max fmt partial
                  (answers_of (answers db) p_question_id) any_response) as H.
    destruct (score_response _ _ _ _) as [[w sc] mx]. simpl. apply H.
    intros a Ha. apply Hopts. unfold answers_of in Ha.
    by apply filter_In in Ha as [Ha _]. }
  split; [exact Hin|].
  destruct (SubmitFacts.submit_test_answer_reaches_trigger u p_test_id p_question_id resp
              t fl db te qu Hte Hown Hqu Hfit Hnew)
    as (uqs & row & Hcall & _ & _ & _ & _ & Hscore).
  eexists _, _, row. split; [exact Hcall|]. split; [reflexivity|].
  specialize (Hin (question_format qu) (use_partial_scoring qu) resp).
  rewrite <- Hscore in Hin. exact Hin.
Qed.

Lemma recorded_score_is_within_max_score_witness :
  exists m db1 row,
    submit_test_answer (Some 7) 1 1 (Some [Some "11"]) 30 false Examples.in_flight
    = RaiseAfter m db1
    /\ test_results db1 = test_results Examples.in_flight ++ [row]
    /\ 0 <= score row <= max_score row.
Proof.
  refine (proj2 (recorded_score_is_within_max_score 7 1 1 (Some [Some "11"]) 30 false
                   Examples.in_flight Examples.sample_test
                   {| topic := "Pharmacology"; sub_topic := "Dosage";
                      question_format := "Multiple Choice";
                      use_partial_scoring := false |}
                   _ eq_refl eq_refl eq_refl eq_refl _)).
  - intros a Ha. vm_compute in Ha.
    destruct Ha as [<-|[<-|[<-|[<-|[<-|[<-|[<-|[]]]]]]]]; vm_compute; repeat split;
      discriminate.
  - intros r Hr. by apply elem_of_nil in Hr.
Defined.

Lemma SUM_bounds {A} (f g : A -> Z) (l : list A) :
  (forall x, In x l -> 0 <= f x <= g x) -> 0 <= SUM (map f l) <= SUM (map g l).
Proof.
  unfold SUM. induction l as [|x l IH]; intros H; simpl; [lia|].
  specialize (IH (fun y Hy => H y (or_intror Hy))).
  specialize (H x (or_introl eq_refl)). lia.
Qed.

(** X26: in a row of [test_summaries] the correct answers are between 0
    and the answered questions; and when every result of the test has its
    score between 0 and its [max_score], the total score is between 0 and
    the total possible score and the percentage between 0 and 100. *)
Theorem test_summary_is_a_percentage (db : database) (p_test_id : Z) (t : test) :
  let row := test_summary_row db p_test_id t in
  0 <= correct_answers row <= answered_questions row
  /\ ((forall tr, In tr (results_of_test db p_test_id) -> 0 <= score tr <= max_score tr) ->
      0 <= total_score row <= total_possible_score row
      /\ (0 <= percentage_score row <= 100)%R).
Proof.
  simpl. split.
  - generalize (results_of_test db p_test_id). intros l. unfold SUM.
    induction l as [|tr l IH]; simpl length; simpl; [lia|].
    destruct (result_is_correct tr) as [[|]|]; lia.
  - intros Hall. pose proof (SUM_bounds score max_score _ Hall) as [H0 H1].
    split; [done|].
    destruct (Z.ltb_spec 0 (SUM (map max_score (results_of_test db p_test_id))))
      as [Hpos|Hzero]; [|lra].
    unfold of_numeric_2.
    apply IZR_le in H0, H1. apply IZR_lt in Hpos.
    set (a := IZR (SUM (map score (results_of_test db p_test_id)))) in *.
    set (b := IZR (SUM (map max_score (results_of_test db p_test_id)))) in *.
    replace (a / 100 / (b / 100) * 100)%R with (a / b * 100)%R by (field; lra).
    assert (0 <= a / b <= 1)%R; [|lra]. split.
    + apply Rmult_le_pos; [lra|]. apply Rlt_le, Rinv_0_lt_compat. lra.
    + apply (Rmult_le_reg_r b); [lra|]. replace (a / b * b)%R with a by (field; lra). lra.
Qed.

Lemma test_summary_is_a_percentage_witness :
  (0 <= percentage_score (test_summary_row one_answer_recorded 1 Examples.sample_test)
   <= 100)%R.
Proof.
  apply (proj2 (test_summary_is_a_percentage one_answer_recorded 1 Examples.sample_test)).
  intros tr [<-|[]]. simpl. lia.
Defined.

(** X27: a result added to [test_results], as the insert of
    [submit_test_answer] writes it, shows in the summary of its test as one
    more answered question, its score and maximum added to the totals, and
    one more correct answer exactly when it is marked correct; the other
    columns of the row and the rows of all other tests stay as they
    were. *)
Theorem added_result_shows_in_the_summary
    (p_test_id : Z) (db db1 : database) (row : test_result) :
  test_results db1 = test_results db ++ [row] ->
  result_test_id row = p_test_id ->
  tests db1 = tests db ->
  (forall te,
     let before := test_summary_row db p_test_id te in
     let after := test_summary_row db1 p_test_id te in
     answered_questions after = answered_questions before + 1
     /\ total_score after = total_score before + score row
     /\ total_possible_score after = total_possible_score before + max_score row
     /\ correct_answers after
        = correct_answers before
          + match result_is_correct row with Some true => 1 | _ => 0 end
     /\ summary_user_id after = summary_user_id before)
  /\ (forall other te, other <> p_test_id ->
        test_summary_row db1 other te = test_summary_row db other te)
  /\ map summary_test_id (test_summaries db1) = map summary_test_id (test_summaries db).
Proof.
  intros Hres Hrt Htests.
  split; [|split].
  - intros te. simpl.
    rewrite (results_of_test_snoc db db1 p_test_id row Hres), Hrt, Z.eqb_refl.
    rewrite !List.map_app, !SUM_app, length_app. simpl.
    repeat split; lia.
  - intros other te Hne. unfold test_summary_row.
    rewrite (results_of_test_snoc db db1 other row Hres), Hrt.
    apply Z.eqb_neq in Hne. rewrite (Z.eqb_sym p_test_id), Hne, app_nil_r. done.
  - unfold test_summaries. rewrite Htests, !List.map_map. done.
Qed.

Lemma added_result_shows_in_the_summary_witness :
  answered_questions (test_summary_row one_answer_recorded 1 Examples.sample_test)
  = answered_questions (test_summary_row Examples.in_flight 1 Examples.sample_test) + 1.
Proof.
  exact (proj1 (proj1 (added_result_shows_in_the_summary 1 Examples.in_flight
                         one_answer_recorded _ eq_refl eq_refl eq_refl)
                 Examples.sample_test)).
Defined.

End TestFlowExtras.

(** ** The study planner *)

Module StudyPlanFacts.
Import StudyPlan.
Local Open Scope list_scope.

Lemma key_le_total (a b : option R) : key_le a b = false -> key_le b a = true.
Proof.
  destruct a as [x|], b as [y|]; simpl; try done.
  destruct (Rle_dec x y); [done|]. intros _. destruct (Rle_dec y x); [done|lra].
Qed.

Lemma key_le_trans (a b c : option R) :
  key_le a b = true -> key_le b c = true -> key_le a c = true.
Proof.
  destruct a as [x|], b as [y|], c as [z|]; simpl; try done.
  destruct (Rle_dec x y); [|done]. destruct (Rle_dec y z); [|done].
  destruct (Rle_dec x z); [done|lra].
Qed.

Lemma insert_by_key_permutation {A} (key : A -> option R) (x : A) (l : list A) :
  insert_by_key key x l ≡ₚ x :: l.
Proof.
  induction l as [|y l IH]; simpl; [done|].
  destruct (key_le _ _); [done|]. rewrite IH. apply perm_swap.
Qed.

Lemma ORDER_BY_permutation {A} (key : A -> option R) (l : list A) : ORDER_BY key l ≡ₚ l.
Proof.
  unfold ORDER_BY. induction l as [|x l IH]; simpl; [done|].
  by rewrite insert_by_key_permutation, IH.
Qed.

Lemma insert_by_key_ascending {A} (key : A -> option R) (x : A) (l : list A) :
  ascending key l -> ascending key (insert_by_key key x l).
Proof.
  induction l as [|y l IH]; simpl; [by intros _; split; [constructor|]|].
  intros [Hall Hasc]. destruct (key_le (key x) (key y)) eqn:Hle; simpl.
  - split; [|done]. constructor; [done|].
    eapply Forall_impl; [exact Hall|]. intros z Hz. simpl in Hz. by eapply key_le_trans.
  - split; [|by apply IH].
    rewrite insert_by_key_permutation. constructor; [by apply key_le_total|done].
Qed.

Lemma ORDER_BY_ascending {A} (key : A -> option R) (l : list A) :
  ascending key (ORDER_BY key l).
Proof.
  unfold ORDER_BY. induction l as [|x l IH]; simpl; [done|].
  by apply insert_by_key_ascending.
Qed.

Lemma ascending_lookup {A} (key : A -> option R) (l : list A) (i j : nat) (a b : A) :
  ascending key l -> (i < j)%nat -> l !! i = Some a -> l !! j = Some b ->
  key_le (key a) (key b) = true.
Proof.
  revert i j. induction l as [|x l IH]; intros i j Hasc Hij Ha Hb; [done|].
  destruct Hasc as [Hall Hasc]. destruct j as [|j]; [lia|]. simpl in Hb.
  destruct i as [|i]; simpl in Ha.
  - injection Ha as ->. rewrite Forall_forall in Hall. apply Hall.
    by eapply list_elem_of_lookup_2.
  - apply (IH i j); [done|lia|done|done].
Qed.

(** The first loop: one item per row, dated from the start date on, never
    going back and never past [p_end_date - 2]. *)
Lemma overview_loop (v_study_plan_id p_end_date : Z)
    (rows : list (topic_row * option user_statistic)) (items : list study_plan_item) (d : Z) :
  (forall row, row ∈ rows -> 0 <= topic_id (fst row)) ->
  d <= p_end_date - 2 ->
  exists new,
    fst (fold_left (overview_step v_study_plan_id p_end_date) rows (items, d)) = items ++ new
    /\ map item_topic new = map (fun row => topic_name (fst row)) rows
    /\ (forall itm, itm ∈ new ->
          item_study_plan_id itm = v_study_plan_id /\ activity_type itm = "Study"
          /\ item_sub_topic itm = None /\ duration_minutes itm = 120
          /\ d <= due_date itm <= p_end_date - 2)
    /\ (forall i j a b, (i < j)%nat -> new !! i = Some a -> new !! j = Some b ->
          due_date a <= due_date b).
Proof.
  revert items d. induction rows as [|row rows IH]; intros items d Hids Hd; simpl.
  - exists []. rewrite app_nil_r. split; [done|]. split; [done|]. split.
    + intros itm Hit. by apply elem_of_nil in Hit.
    + intros i j a b _ Ha. done.
  - set (d' := if d <? p_end_date - 2 then d + Z.rem (topic_id (fst row)) 2 else d).
    assert (0 <= topic_id (fst row)) as Hid by (apply Hids; left).
    assert (d <= d' <= p_end_date - 2) as Hd'.
    { unfold d'. destruct (Z.ltb_spec d (p_end_date - 2)); [|lia].
      pose proof (Z.rem_bound_pos (topic_id (fst row)) 2 Hid). lia. }
    destruct (IH (items ++ [ {| item_study_plan_id := v_study_plan_id; due_date := d;
                                item_topic := topic_name (fst row); item_sub_topic := None;
                                activity_type := "Study";
                                item_description :=
                                  ("Overview of " ++ topic_name (fst row))%string;
                                duration_minutes := 120 |} ]) d')
      as (new & Hfold & Htopics & Hitems & Hmono);
      [intros r Hr; apply Hids; by right|lia|].
    eexists (_ :: new). split; [|split; [|split]].
    + unfold overview_step at 2. simpl. fold d'. rewrite Hfold, <- app_assoc. done.
    + simpl. by rewrite Htopics.
    + intros itm Hit. apply elem_of_cons in Hit as [->|Hit]; simpl; [repeat split; lia|].
      destruct (Hitems itm Hit) as (H1 & H2 & H3 & H4 & H5). repeat split; try done; lia.
    + intros i j a b Hij Ha Hb. destruct j as [|j]; [lia|]. simpl in Hb.
      destruct i as [|i]; simpl in Ha.
      * injection Ha as <-. simpl.
        destruct (Hitems b) as (_ & _ & _ & _ & Hb'); [by eapply list_elem_of_lookup_2|]. lia.
      * apply (Hmono i j); [lia|done|done].
Qed.

(** The second loop: one item per row, dated from the second day after
    the start on, never past [p_end_date - 4]. *)
Lemma practice_loop (v_study_plan_id p_end_date : Z)
    (rows : list (subtopic_row * topic_row * option user_statistic))
    (items : list study_plan_item) (d : Z) :
  (forall row, row ∈ rows -> 0 <= subtopic_id (fst (fst row))) ->
  d <= p_end_date - 4 ->
  exists new,
    fst (fold_left (practice_step v_study_plan_id p_end_date) rows (items, d)) = items ++ new
    /\ length new = length rows
    /\ (forall itm, itm ∈ new ->
          item_study_plan_id itm = v_study_plan_id /\ activity_type itm = "Practice"
          /\ duration_minutes itm = 90
          /\ d <= due_date itm <= p_end_date - 4).
Proof.
  revert items d. induction rows as [|row rows IH]; intros items d Hids Hd; simpl.
  - exists []. rewrite app_nil_r. split; [done|]. split; [done|].
    intros itm Hit. by apply elem_of_nil in Hit.
  - set (d' := if d <? p_end_date - 5 then d + Z.rem (subtopic_id (fst (fst row))) 3 else d).
    assert (0 <= subtopic_id (fst (fst row))) as Hid by (apply Hids; left).
    assert (d <= d' <= p_end_date - 4) as Hd'.
    { unfold d'. destruct (Z.ltb_spec d (p_end_date - 5)); [|lia].
      pose proof (Z.rem_bound_pos (subtopic_id (fst (fst row))) 3 Hid). lia. }
    destruct (IH (items ++ [ {| item_study_plan_id := v_study_plan_id; due_date := d;
                                item_topic := topic_name (snd (fst row));
                                item_sub_topic := Some (subtopic_name (fst (fst row)));
                                activity_type := "Practice";
                                item_description :=
                                  ("Practice questions on "
                                   ++ subtopic_name (fst (fst row)))%string;
                                duration_minutes := 90 |} ]) d')
      as (new & Hfold & Hlen & Hitems);
      [intros r Hr; apply Hids; by right|lia|].
    eexists (_ :: new). split; [|split].
    + unfold practice_step at 2. simpl. fold d'. rewrite Hfold, <- app_assoc. done.
    + simpl. by rewrite Hlen.
    + intros itm Hit. apply elem_of_cons in Hit as [->|Hit]; simpl; [repeat split; lia|].
      destruct (Hitems itm Hit) as (H1 & H2 & H3 & H4). repeat split; try done; lia.
Qed.

Lemma topic_rows_topics pl u row :
  row ∈ topic_rows pl u -> fst row ∈ topics pl.
Proof.
  unfold topic_rows. intros Hrow.
  apply list_elem_of_In, in_flat_map in Hrow as (t & Ht & Hrow).
  apply list_elem_of_In in Ht.
  destruct (List.filter _ _) as [|us l].
  - destruct Hrow as [<-|[]]. done.
  - apply in_map_iff in Hrow as (us' & <- & _). done.
Qed.

Lemma topic_rows_cover pl u t :
  t ∈ topics pl -> exists us, (t, us) ∈ topic_rows pl u.
Proof.
  unfold topic_rows. intros Ht.
  destruct (List.filter (fun us => String.eqb (topic_name t) (us_topic us)
                                   && (us_user_id us =? u)
                                   && bool_decide (us_sub_topic us = None))
              (user_statistics pl)) as [|us l] eqn:Hf.
  - exists None. apply list_elem_of_In, in_flat_map. exists t.
    split; [by apply list_elem_of_In|]. rewrite Hf. by left.
  - exists (Some us). apply list_elem_of_In, in_flat_map. exists t.
    split; [by apply list_elem_of_In|]. rewrite Hf. by left.
Qed.

Lemma subtopic_rows_subtopics pl u row :
  row ∈ subtopic_rows pl u -> fst (fst row) ∈ subtopics pl.
Proof.
  unfold subtopic_rows. intros Hrow.
  apply list_elem_of_In, in_flat_map in Hrow as (s & Hs & Hrow).
  apply list_elem_of_In in Hs.
  apply in_flat_map in Hrow as (t & Ht & Hrow).
  destruct (bool_decide _); [|done].
  destruct (List.filter _ _) as [|us l].
  - destruct Hrow as [<-|[]]. done.
  - apply in_map_iff in Hrow as (us' & <- & _). done.
Qed.

End StudyPlanFacts.

Module StudyPlanExtras.
Import StudyPlan StudyPlanFacts.
Local Open Scope list_scope.



(** X29: a plan [generate_study_plan] makes, when no topic or subtopic id
    is negative, adds to [study_plan_items], all under the id it returns
    and in this order: an overview item per row of the topic query, so at
    least one for each topic, dated within [start, end - 2] and never
    earlier than the item before; a practice item per row of the subtopic
    query, dated within [start + 2, end - 4]; simulated exams on the days
    end - 5, end - 4 and end - 3; and the final review on end - 1.  So
    every item is due on or after the start date and before the end
    date. *)
Theorem study_plan_items_are_dated_within_the_plan
    (auth_uid : option uuid) (p_user_id : uuid) (p_title p_description : string)
    (p_start_date p_end_date p_daily_hours : Z) (pl pl' : planner) (v_study_plan_id : Z) :
  (forall t, t ∈ topics pl -> 0 <= topic_id t) ->
  (forall s, s ∈ subtopics pl -> 0 <= subtopic_id s) ->
  generate_study_plan auth_uid p_user_id p_title p_description
    p_start_date p_end_date p_daily_hours pl = PlanReturn v_study_plan_id pl' ->
  exists overview practice,
    study_plan_items pl'
    = study_plan_items pl ++ overview ++ practice
      ++ [simulation_item v_study_plan_id p_end_date 0;
          simulation_item v_study_plan_id p_end_date 1;
          simulation_item v_study_plan_id p_end_date 2;
          final_review_item v_study_plan_id p_end_date]
    /\ length overview = length (topic_rows pl p_user_id)
    /\ (forall t, t ∈ topics pl -> exists itm, itm ∈ overview /\ item_topic itm = topic_name t)
    /\ (forall itm, itm ∈ overview ->
          activity_type itm = "Study" /\ p_start_date <= due_date itm <= p_end_date - 2)
    /\ (forall i j a b, (i < j)%nat -> overview !! i = Some a -> overview !! j = Some b ->
          due_date a <= due_date b)
    /\ length practice = length (subtopic_rows pl p_user_id)
    /\ (forall itm, itm ∈ practice ->
          activity_type itm = "Practice"
          /\ p_start_date + 2 <= due_date itm <= p_end_date - 4)
    /\ (forall itm, itm ∈ study_plan_items pl' -> itm ∉ study_plan_items pl ->
          item_study_plan_id itm = v_study_plan_id
          /\ p_start_date <= due_date itm < p_end_date).
Proof.
  intros Htopics Hsubtopics. unfold generate_study_plan.
  destruct (holds _); [done|].
  destruct (Z.ltb_spec (p_end_date - p_start_date) 7) as [|Hdays]; [done|].
  destruct (_ =? 0); [done|].
  destruct (varchar 255 p_title) as [stored_title|]; [|done].
  destruct (study_plans pl !! study_plans_id_seq pl); [done|].
  intros [= <- <-]. simpl.
  set (rows1 := ORDER_BY (fun row => order_key (snd row)) (topic_rows pl p_user_id)).
  set (rows2 := ORDER_BY (fun row => order_key (snd row)) (subtopic_rows pl p_user_id)).
  destruct (overview_loop (study_plans_id_seq pl) p_end_date rows1 [] p_start_date)
    as (overview & Hfold1 & Hnames & Hitems1 & Hmono); [|lia|].
  { intros row Hrow. apply Htopics. apply (topic_rows_topics pl p_user_id).
    unfold rows1 in Hrow. by rewrite ORDER_BY_permutation in Hrow. }
  destruct (practice_loop (study_plans_id_seq pl) p_end_date rows2 [] (p_start_date + 2))
    as (practice & Hfold2 & Hlen2 & Hitems2); [|lia|].
  { intros row Hrow. apply Hsubtopics. apply (subtopic_rows_subtopics pl p_user_id).
    unfold rows2 in Hrow. by rewrite ORDER_BY_permutation in Hrow. }
  exists overview, practice.
  unfold overview_items, practice_items. fold rows1 rows2. rewrite Hfold1, Hfold2. simpl.
  split; [done|]. split.
  { rewrite <- (length_map item_topic overview), Hnames, length_map.
    unfold rows1. by rewrite ORDER_BY_permutation. }
  split.
  { intros t Ht. destruct (topic_rows_cover pl p_user_id t Ht) as [us Hrow].
    assert (topic_name t ∈ map item_topic overview) as Hin.
    { rewrite Hnames. apply list_elem_of_In, in_map_iff. exists (t, us). split; [done|].
      apply list_elem_of_In. unfold rows1. by rewrite ORDER_BY_permutation. }
    apply list_elem_of_In, in_map_iff in Hin as (itm & Hname & Hitm).
    exists itm. split; [by apply list_elem_of_In|done]. }
  split.
  { intros itm Hitm. destruct (Hitems1 itm Hitm) as (_ & H2 & _ & _ & H5). done. }
  split; [done|]. split.
  { rewrite Hlen2. unfold rows2. by rewrite ORDER_BY_permutation. }
  split.
  { intros itm Hitm. destruct (Hitems2 itm Hitm) as (_ & H2 & _ & H4). done. }
  intros itm Hitm Hnew.
  apply elem_of_app in Hitm as [Hitm|Hitm]; [done|].
  apply elem_of_app in Hitm as [Hitm|Hitm].
  { destruct (Hitems1 itm Hitm) as (H1 & _ & _ & _ & H5). split; [done|lia]. }
  apply elem_of_app in Hitm as [Hitm|Hitm].
  { destruct (Hitems2 itm Hitm) as (H1 & _ & _ & H4). split; [done|lia]. }
  unfold closing_items in Hitm. simpl in Hitm.
  repeat (apply elem_of_cons in Hitm as [->|Hitm]; [simpl; split; [done|lia]|]).
  by apply elem_of_nil in Hitm.
Qed.

Lemma sample_plan_made :
  exists pl', generate_study_plan (Some 7) 7 "Plan" "Two weeks" 0 14 4 sample_planner
              = PlanReturn 1 pl'.
Proof. eexists. reflexivity. Qed.

Lemma study_plan_items_are_dated_within_the_plan_witness :
  exists pl' overview practice,
    generate_study_plan (Some 7) 7 "Plan" "Two weeks" 0 14 4 sample_planner = PlanReturn 1 pl'
    /\ study_plan_items pl'
       = study_plan_items sample_planner ++ overview ++ practice
         ++ [simulation_item 1 14 0; simulation_item 1 14 1; simulation_item 1 14 2;
             final_review_item 1 14]
    /\ length practice = length (subtopic_rows sample_planner 7).
Proof.
  destruct sample_plan_made as [pl' Hmade]. exists pl'.
  destruct (study_plan_items_are_dated_within_the_plan (Some 7) 7 "Plan" "Two weeks" 0 14 4
              sample_planner pl' 1) as (overview & practice & H1 & _ & _ & _ & _ & H6 & _).
  - intros t Ht. simpl in Ht.
    repeat (apply elem_of_cons in Ht as [->|Ht]; [simpl; lia|]). by apply elem_of_nil in Ht.
  - intros s Hs. simpl in Hs.
    repeat (apply elem_of_cons in Hs as [->|Hs]; [simpl; lia|]). by apply elem_of_nil in Hs.
  - exact Hmade.
  - exists overview, practice. split; [exact Hmade|]. split; [exact H1|exact H6].
Defined.

Lemma topic_rows_statistics pl u t us :
  (t, Some us) ∈ topic_rows pl u -> us ∈ user_statistics pl.
Proof.
  unfold topic_rows. intros Hrow.
  apply list_elem_of_In, in_flat_map in Hrow as (t0 & Ht0 & Hrow).
  destruct (List.filter _ (user_statistics pl)) as [|us0 l] eqn:Hf.
  - by destruct Hrow as [[=]|[]].
  - apply in_map_iff in Hrow as (us' & [= _ <-] & Hin).
    rewrite <- Hf in Hin. apply filter_In in Hin as [Hin _]. by apply list_elem_of_In.
Qed.

(** X30: the overview items follow the rows of the topic query in
    ascending order of the success rate, a statistics row without attempts
    counting as 999 and a topic without statistics row coming last.  So
    when no statistics row has more correct answers than attempts or a
    negative count, a topic without attempts is never placed before a
    topic with attempts. *)
Theorem topics_without_attempts_come_last
    (pl : planner) (p_user_id : uuid) (v_study_plan_id p_start_date p_end_date : Z) :
  (forall us, us ∈ user_statistics pl -> 0 <= us_correct_count us <= us_total_count us) ->
  let rows := ORDER_BY (fun row => order_key (snd row)) (topic_rows pl p_user_id) in
  rows ≡ₚ topic_rows pl p_user_id
  /\ map item_topic (overview_items pl p_user_id v_study_plan_id p_start_date p_end_date)
     = map (fun row => topic_name (fst row)) rows
  /\ forall i j t1 us1 t2 us2,
       (i < j)%nat -> rows !! i = Some (t1, us1) -> rows !! j = Some (t2, us2) ->
       key_le (order_key us1) (order_key us2) = true
       /\ (match us1 with None => True | Some u1 => us_total_count u1 = 0 end ->
           match us2 with None => True | Some u2 => us_total_count u2 = 0 end).
Proof.
  intros Hvalid rows. split; [apply ORDER_BY_permutation|]. split.
  { unfold overview_items. fold rows.
    assert (forall (l : list (topic_row * option user_statistic)) items d,
              map item_topic (fst (fold_left (overview_step v_study_plan_id p_end_date) l
                                     (items, d)))
              = map item_topic items ++ map (fun row => topic_name (fst row)) l) as Hgen.
    { induction l as [|row l IH]; intros items d; simpl; [by rewrite app_nil_r|].
      unfold overview_step at 2. simpl. rewrite IH, List.map_app, <- app_assoc. done. }
    by rewrite Hgen. }
  intros i j t1 us1 t2 us2 Hij H1 H2.
  pose proof (ascending_lookup (fun row : topic_row * option user_statistic =>
                                  order_key (snd row)) rows i j _ _
                (ORDER_BY_ascending _ _) Hij H1 H2) as Hle.
  simpl in Hle. split; [done|]. intros Hnone.
  destruct us2 as [u2|]; [|done].
  destruct (Z.eqb_spec (us_total_count u2) 0) as [|Hattempts]; [done|exfalso].
  assert (u2 ∈ user_statistics pl) as Hu2.
  { apply (topic_rows_statistics pl p_user_id t2).
    rewrite <- (ORDER_BY_permutation (fun row => order_key (snd row))).
    by eapply list_elem_of_lookup_2. }
  specialize (Hvalid u2 Hu2).
  assert (IZR (us_correct_count u2) / IZR (us_total_count u2) <= 1)%R as Hrate.
  { assert (0 < IZR (us_total_count u2))%R by (apply IZR_lt; lia).
    apply (Rmult_le_reg_r (IZR (us_total_count u2))); [done|].
    replace (IZR (us_correct_count u2) / IZR (us_total_count u2) * IZR (us_total_count u2))%R
      with (IZR (us_correct_count u2)) by (field; lra).
    rewrite Rmult_1_l. apply IZR_le. lia. }
  unfold order_key in Hle at 2. apply Z.eqb_neq in Hattempts. rewrite Hattempts in Hle.
  destruct us1 as [u1|]; simpl in Hle; [|done].
  rewrite Hnone in Hle. simpl in Hle.
  destruct (Rle_dec 999 _) as [Hbig|]; [lra|done].
Qed.

Lemma topics_without_attempts_come_last_witness :
  ORDER_BY (fun row => order_key (snd row)) (topic_rows sample_planner 7)
  ≡ₚ topic_rows sample_planner 7.
Proof.
  refine (proj1 (topics_without_attempts_come_last sample_planner 7 1 0 14 _)).
  intros us Hus. simpl in Hus.
  repeat (apply elem_of_cons in Hus as [->|Hus]; [simpl; lia|]). by apply elem_of_nil in Hus.
Defined.

End StudyPlanExtras.
